(** * OrbitX: the state container ([orbitx/state.py])

    A shallow embedding of [PhysicsState], [_EntityView] and the field layout
    table of [orbitx/state.py], with the properties of the container that the
    specification states.

    Python exceptions are modelled by the [result] monad, Python and numpy
    indexing (negative indices wrap, others raise [IndexError]) by [getitem]
    and [setitem], and the float64 numbers of the numeric buffer by an
    interface [Float64] whose operations are the handful of numeric
    primitives the module uses. The interface has two instances: [Exact],
    in which numbers are rationals and nothing rounds, and [Binary64], the
    IEEE 754 binary64 numbers that numpy and Python compute with. *)

From Stdlib Require Import ZArith QArith Qround Lia Ascii.
From Stdlib Require Floats.
From stdpp Require Import base tactics option list strings gmap.

Local Open Scope Z_scope.
Local Open Scope string_scope.
Local Open Scope list_scope.
Local Open Scope stdpp_scope.

(** ** Exceptions *)

Inductive exn : Type :=
  | NoEntityError (msg : string)   (* PhysicsState.NoEntityError *)
  | ValueError (msg : string)
  | IndexError
  | AssertionError
  | TypeError
  | OverflowError.

Inductive result (A : Type) : Type :=
  | Ok (a : A)
  | Raise (e : exn).
Arguments Ok {A} a.
Arguments Raise {A} e.

#[global] Instance result_ret : MRet result := λ A a, Ok a.
#[global] Instance result_bind : MBind result := λ A B f m,
  match m with
  | Ok a => f a
  | Raise e => Raise e
  end.
#[global] Instance result_fmap : FMap result := λ A B f m,
  match m with
  | Ok a => Ok (f a)
  | Raise e => Raise e
  end.

Definition assert (b : bool) : result unit :=
  if b then Ok tt else Raise AssertionError.

(** [for_each body l s]: a [for] loop over [l] that threads the mutated
    object [s] and stops at the first exception. *)
Fixpoint for_each {A S : Type} (body : A → S → result S) (l : list A) (s : S)
  : result S :=
  match l with
  | [] => Ok s
  | a :: l' => s' ← body a s; for_each body l' s'
  end.

(** ** Python sequences *)

(** An index into a sequence of length [len]: [0 <= i < len] is itself,
    [-len <= i < 0] counts from the end, anything else is an [IndexError]. *)
Definition py_index (len : nat) (i : Z) : result nat :=
  if bool_decide (0 ≤ i < Z.of_nat len) then Ok (Z.to_nat i)
  else if bool_decide (- Z.of_nat len ≤ i < 0) then Ok (Z.to_nat (Z.of_nat len + i))
  else Raise IndexError.

Definition getitem {A} (l : list A) (i : Z) : result A :=
  j ← py_index (length l) i;
  match l !! j with
  | Some a => Ok a
  | None => Raise IndexError
  end.

Definition setitem {A} (l : list A) (i : Z) (a : A) : result (list A) :=
  j ← py_index (length l) i;
  Ok (<[j := a]> l).

(** [list.index(w)]: the first position of [w], [None] for Python's
    [ValueError]. *)
Fixpoint list_index (w : string) (l : list string) : option nat :=
  match l with
  | [] => None
  | h :: t => if decide (h = w) then Some 0%nat else S <$> list_index w t
  end.

Definition enumerate {A} (l : list A) : list (nat * A) :=
  zip (seq 0 (length l)) l.

(** [a[lo:hi]] for [0 <= lo <= hi]: slices clamp to the sequence. *)
Definition slice {A} (l : list A) (lo hi : nat) : list A :=
  take (hi - lo) (drop lo l).

(** Assignment through the slice view [a[lo:hi]] of an array: the
    elements of the slice are replaced by [f] of themselves in place. *)
Definition slice_map {A} (f : A → A) (l : list A) (lo hi : nat) : list A :=
  take lo l ++ (f <$> slice l lo hi) ++ drop (lo + length (slice l lo hi)) l.

(** ** Python strings *)

(** [repr(w)] for a [str], as the messages of exceptions quote strings. A
    string is a sequence of bytes here: ASCII is treated as Python treats
    it, and bytes outside ASCII are taken to encode printable characters,
    which [repr] copies. *)
Definition hex_digit (n : nat) : ascii :=
  default "0"%char (String.list_ascii_of_string "0123456789abcdef" !! n).

Definition repr_char (quote c : ascii) : string :=
  let n := nat_of_ascii c in
  if bool_decide (c = quote ∨ c = "\"%char) then String "\" (String c "")
  else if bool_decide (n = 9%nat) then "\t"
  else if bool_decide (n = 10%nat) then "\n"
  else if bool_decide (n = 13%nat) then "\r"
  else if bool_decide (n < 32 ∨ n = 127)%nat then
    String "\" (String "x" (String (hex_digit (n / 16))
                              (String (hex_digit (n mod 16)) "")))
  else String c "".

Definition py_repr (w : string) : string :=
  let cs := String.list_ascii_of_string w in
  let squote := "'"%char in
  let dquote := ascii_of_nat 34 in
  let quote :=
    if bool_decide (squote ∈ cs) && negb (bool_decide (dquote ∈ cs))
    then dquote else squote in
  String quote (foldr (λ c acc, repr_char quote c +:+ acc) (String quote "") cs).

(** [float(w)] for a [str], up to the rounding of the number it denotes:
    the literal that [w] spells, or [None] where [float] raises
    [ValueError]. White space around the literal is dropped, an underscore
    may stand between two digits, and [inf], [infinity] and [nan] are read
    in either case. A decimal literal denotes [digits * 10 ^ exp10]. *)
Inductive float_literal : Type :=
  | LitNan
  | LitInf (negative : bool)
  | LitDec (negative : bool) (digits : Z) (exp10 : Z).

Definition is_space (c : ascii) : bool :=
  let n := nat_of_ascii c in
  bool_decide (9 ≤ n ≤ 13 ∨ n = 32)%nat.

Definition digit_of (c : ascii) : option Z :=
  let n := nat_of_ascii c in
  if bool_decide (48 ≤ n ≤ 57)%nat then Some (Z.of_nat (n - 48)) else None.

Definition lower (c : ascii) : ascii :=
  let n := nat_of_ascii c in
  if bool_decide (65 ≤ n ≤ 90)%nat then ascii_of_nat (n + 32) else c.

Fixpoint lstrip (cs : list ascii) : list ascii :=
  match cs with
  | c :: cs' => if is_space c then lstrip cs' else cs
  | [] => []
  end.

Definition strip (cs : list ascii) : list ascii :=
  reverse (lstrip (reverse (lstrip cs))).

(** The underscores of a numeric literal: each one after a digit and
    before a digit. [prev] is the character before [cs]. *)
Fixpoint without_underscores (prev : option ascii) (cs : list ascii)
  : option (list ascii) :=
  let after_digit :=
    match prev with Some p => bool_decide (is_Some (digit_of p)) | None => false end in
  match cs with
  | [] => if bool_decide (prev = Some "_"%char) then None else Some []
  | c :: cs' =>
      if bool_decide (c = "_"%char) then
        if after_digit then without_underscores (Some c) cs' else None
      else if bool_decide (prev = Some "_"%char)
              && negb (bool_decide (is_Some (digit_of c))) then None
      else (c ::.) <$> without_underscores (Some c) cs'
  end.

Definition parse_sign (cs : list ascii) : bool * list ascii :=
  match cs with
  | c :: cs' =>
      if bool_decide (c = "-"%char) then (true, cs')
      else if bool_decide (c = "+"%char) then (false, cs')
      else (false, cs)
  | [] => (false, [])
  end.

(** The digits at the front of [cs], and what follows them. *)
Fixpoint span_digits (cs : list ascii) : list Z * list ascii :=
  match cs with
  | c :: cs' =>
      match digit_of c with
      | Some d => let '(ds, rest) := span_digits cs' in (d :: ds, rest)
      | None => ([], cs)
      end
  | [] => ([], [])
  end.

Definition digits_value (ds : list Z) : Z :=
  foldl (λ acc d, 10 * acc + d) 0 ds.

Definition parse_decimal (negative : bool) (cs : list ascii)
  : option float_literal :=
  let '(int_part, rest) := span_digits cs in
  let '(frac_part, rest) :=
    match rest with
    | c :: rest' =>
        if bool_decide (c = "."%char) then span_digits rest' else ([], rest)
    | [] => ([], [])
    end in
  let digits := digits_value (int_part ++ frac_part) in
  let scale := Z.of_nat (length frac_part) in
  if bool_decide (int_part = [] ∧ frac_part = []) then None
  else
    match rest with
    | [] => Some (LitDec negative digits (- scale))
    | c :: rest' =>
        if bool_decide (lower c = "e"%char) then
          let '(exp_negative, rest') := parse_sign rest' in
          let '(exp_part, rest') := span_digits rest' in
          if bool_decide (exp_part = [] ∨ rest' ≠ []) then None
          else
            let e := digits_value exp_part in
            Some (LitDec negative digits
                    ((if exp_negative then - e else e) - scale))
        else None
    end.

Definition parse_float (w : string) : option float_literal :=
  cs ← without_underscores None (strip (String.list_ascii_of_string w));
  let '(negative, rest) := parse_sign cs in
  let word := String.string_of_list_ascii (lower <$> rest) in
  if bool_decide (word = "inf" ∨ word = "infinity") then
    Some (LitInf negative)
  else if bool_decide (word = "nan") then Some LitNan
  else parse_decimal negative rest.

(** ** float64

    The numeric primitives that [state.py] applies to the elements of the
    numpy buffer and to the [double] fields of the protobufs. *)
Class Float64 (F : Type) : Type := {
  of_int : Z → F;          (* [float(i)] for an [int] that fits *)
  of_bool : bool → F;      (* a [bool] stored in a float64 slot *)
  to_int : F → result Z;   (* [int(v)]: truncation; raises on nan and inf *)
  eq_int : F → Z → bool;   (* [v == i] *)
  fleb : F → F → bool;     (* [v <= w] *)
  fltb : F → F → bool;     (* [v < w] *)
  np_mod : F → F → F;      (* [np.mod(v, w)] *)
  two_pi : F;              (* [2 * np.pi] *)
  np_empty_cell : F;       (* an element of a fresh [np.empty] array *)
  of_str : string → option F;  (* [float(w)]; [None] for [ValueError] *)
}.

Section Numbers.
Context {F : Type} `{Float64 F}.

(** [bool(v)], which is [v != 0]. *)
Definition to_bool (v : F) : bool := negb (eq_int v 0).

(** [0 <= v < 2π]. *)
Definition within_turn (v : F) : bool :=
  fleb (of_int 0) v && fltb v two_pi.

(** The arithmetic facts the properties below rest on, each stated for the
    values it is used at. In IEEE double precision [index_exact n] and
    [index_eq_exact n] hold for every [n] up to 2^53, and [bool_exact]
    holds. *)
Definition index_exact (n : nat) : Prop :=
  ∀ i : Z, -1 ≤ i < Z.of_nat n → to_int (of_int i) = Ok i.

Definition index_eq_exact (n : nat) : Prop :=
  ∀ i j : Z, -1 ≤ i < Z.of_nat n → -1 ≤ j < Z.of_nat n →
    eq_int (of_int i) j = bool_decide (i = j).

Definition bool_exact : Prop :=
  ∀ b : bool, to_bool (of_bool b) = b.

End Numbers.

(** ** The entity schema *)

Module Field.

(** Modelled from the spec: the fields of the protobuf message [Entity]
    ([orbitx.proto] is not part of the sources), as the attribute list of
    class [Entity] and the data model of the specification give them. *)
Inductive t : Type :=
  | name | x | y | vx | vy | r | mass | heading | spin | fuel | throttle
  | landed_on | broken | artificial | atmosphere_thickness
  | atmosphere_scaling.

#[global] Instance eq_dec : EqDecision t.
Proof. solve_decision. Defined.

(** Modelled from the spec: [protos.Entity.DESCRIPTOR.fields], the fields
    in the order of their declaration in [orbitx.proto], taken from the
    attribute list of class [Entity]; [as_proto] and [__setitem__] list the
    mutable ones in the same order. *)
Definition DESCRIPTOR_fields : list t :=
  [name; x; y; vx; vy; r; mass; heading; spin; fuel; throttle; landed_on;
   broken; artificial; atmosphere_thickness; atmosphere_scaling].

Inductive cpptype : Type := CPPTYPE_DOUBLE | CPPTYPE_BOOL | CPPTYPE_STRING.

(** Modelled from the spec: the type of each field ([field.cpp_type]),
    from the annotations of class [Entity]. *)
Definition cpp_type (f : t) : cpptype :=
  match f with
  | name | landed_on => CPPTYPE_STRING
  | broken | artificial => CPPTYPE_BOOL
  | _ => CPPTYPE_DOUBLE
  end.
End Field.

Definition _PER_ENTITY_UNCHANGING_FIELDS : list Field.t :=
  [Field.name; Field.mass; Field.r; Field.artificial;
   Field.atmosphere_thickness; Field.atmosphere_scaling].

Definition _PER_ENTITY_MUTABLE_FIELDS : list Field.t :=
  filter (λ f, f ∉ _PER_ENTITY_UNCHANGING_FIELDS) Field.DESCRIPTOR_fields.

(** The dict [_FIELD_ORDERING], as the list of its items. *)
Definition _FIELD_ORDERING : list (Field.t * nat) :=
  (λ p, (p.2, p.1)) <$> enumerate _PER_ENTITY_MUTABLE_FIELDS.

(** [_FIELD_ORDERING[f]] *)
Fixpoint dict_get (d : list (Field.t * nat)) (f : Field.t) : option nat :=
  match d with
  | [] => None
  | (g, k) :: d' => if decide (g = f) then Some k else dict_get d' f
  end.

Definition _LANDED_ON : Field.t := Field.landed_on.

(** ** Protobufs *)

(** A Python value read from or assigned to an attribute. *)
Inductive value (F : Type) : Type :=
  | VFloat (v : F)
  | VBool (b : bool)
  | VInt (i : Z)
  | VStr (w : string).
Arguments VFloat {F} v.
Arguments VBool {F} b.
Arguments VInt {F} i.
Arguments VStr {F} w.

Module protos.

(** Modelled from the spec: the protobuf message [Entity] ([orbitx_pb2] is
    generated from [orbitx.proto], which is not part of the sources), with
    the fields of [Field.t]. *)
Record Entity (F : Type) : Type := {
  name : string;
  x : F; y : F; vx : F; vy : F;
  r : F; mass : F;
  heading : F; spin : F; fuel : F; throttle : F;
  landed_on : string;
  broken : bool;
  artificial : bool;
  atmosphere_thickness : F;
  atmosphere_scaling : F;
}.
Arguments name {F} _.
Arguments x {F} _.
Arguments y {F} _.
Arguments vx {F} _.
Arguments vy {F} _.
Arguments r {F} _.
Arguments mass {F} _.
Arguments heading {F} _.
Arguments spin {F} _.
Arguments fuel {F} _.
Arguments throttle {F} _.
Arguments landed_on {F} _.
Arguments broken {F} _.
Arguments artificial {F} _.
Arguments atmosphere_thickness {F} _.
Arguments atmosphere_scaling {F} _.

(** Modelled from the spec: the protobuf message [PhysicalState], with the
    entities and the scalar fields that the data model of the specification
    lists and that [PhysicsState] reads and writes. *)
Record PhysicalState (F : Type) : Type := {
  entities : list (Entity F);
  timestamp : F;
  srb_time : F;
  time_acc : F;
  parachute_deployed : bool;
  reference : string;
  target : string;
  navmode : Z;
}.
Arguments entities {F} _.
Arguments timestamp {F} _.
Arguments srb_time {F} _.
Arguments time_acc {F} _.
Arguments parachute_deployed {F} _.
Arguments reference {F} _.
Arguments target {F} _.
Arguments navmode {F} _.
End protos.

Module common.

(** Modelled from the spec: [common.HABITAT] and [common.AYSE], the names
    of the two pilotable entities ([orbitx/common.py] is not part of the
    sources). *)
Definition HABITAT : string := "Habitat".
Definition AYSE : string := "AYSE".
End common.

(** ** Attribute access on protobuf entities *)

Section Attributes.
Context {F : Type} `{Float64 F}.

(** [getattr(entity, f)] *)
Definition getattr (e : protos.Entity F) (f : Field.t) : value F :=
  match f with
  | Field.name => VStr (protos.name e)
  | Field.x => VFloat (protos.x e)
  | Field.y => VFloat (protos.y e)
  | Field.vx => VFloat (protos.vx e)
  | Field.vy => VFloat (protos.vy e)
  | Field.r => VFloat (protos.r e)
  | Field.mass => VFloat (protos.mass e)
  | Field.heading => VFloat (protos.heading e)
  | Field.spin => VFloat (protos.spin e)
  | Field.fuel => VFloat (protos.fuel e)
  | Field.throttle => VFloat (protos.throttle e)
  | Field.landed_on => VStr (protos.landed_on e)
  | Field.broken => VBool (protos.broken e)
  | Field.artificial => VBool (protos.artificial e)
  | Field.atmosphere_thickness => VFloat (protos.atmosphere_thickness e)
  | Field.atmosphere_scaling => VFloat (protos.atmosphere_scaling e)
  end.

Definition set_double (e : protos.Entity F) (f : Field.t) (v : F)
  : protos.Entity F :=
  let 'protos.Build_Entity _ n x y vx vy r m h sp fu th lo br ar at_ sc := e in
  let mk := protos.Build_Entity F in
  match f with
  | Field.x => mk n v y vx vy r m h sp fu th lo br ar at_ sc
  | Field.y => mk n x v vx vy r m h sp fu th lo br ar at_ sc
  | Field.vx => mk n x y v vy r m h sp fu th lo br ar at_ sc
  | Field.vy => mk n x y vx v r m h sp fu th lo br ar at_ sc
  | Field.r => mk n x y vx vy v m h sp fu th lo br ar at_ sc
  | Field.mass => mk n x y vx vy r v h sp fu th lo br ar at_ sc
  | Field.heading => mk n x y vx vy r m v sp fu th lo br ar at_ sc
  | Field.spin => mk n x y vx vy r m h v fu th lo br ar at_ sc
  | Field.fuel => mk n x y vx vy r m h sp v th lo br ar at_ sc
  | Field.throttle => mk n x y vx vy r m h sp fu v lo br ar at_ sc
  | Field.atmosphere_thickness => mk n x y vx vy r m h sp fu th lo br ar v sc
  | Field.atmosphere_scaling => mk n x y vx vy r m h sp fu th lo br ar at_ v
  | _ => e
  end.

Definition set_bool (e : protos.Entity F) (f : Field.t) (b : bool)
  : protos.Entity F :=
  let 'protos.Build_Entity _ n x y vx vy r m h sp fu th lo br ar at_ sc := e in
  let mk := protos.Build_Entity F in
  match f with
  | Field.broken => mk n x y vx vy r m h sp fu th lo b ar at_ sc
  | Field.artificial => mk n x y vx vy r m h sp fu th lo br b at_ sc
  | _ => e
  end.

Definition set_string (e : protos.Entity F) (f : Field.t) (w : string)
  : protos.Entity F :=
  let 'protos.Build_Entity _ n x y vx vy r m h sp fu th lo br ar at_ sc := e in
  let mk := protos.Build_Entity F in
  match f with
  | Field.name => mk w x y vx vy r m h sp fu th lo br ar at_ sc
  | Field.landed_on => mk n x y vx vy r m h sp fu th w br ar at_ sc
  | _ => e
  end.

(** The integers that [float] converts: those that round to a finite
    double. The largest double is [2^1024 - 2^971], and an integer half way
    from it to [2^1024] or beyond rounds up: [float] of it raises
    [OverflowError]. *)
Definition float_fits (i : Z) : bool :=
  bool_decide (Z.abs i < 2 ^ 1024 - 2 ^ 970).

(** A Python value stored in a float64 slot of a numpy array, which
    converts it as [float] does: an [int] too large raises
    [OverflowError], a string is read as a numeric literal and raises
    [ValueError] when it is none. *)
Definition as_float64 (val : value F) : result F :=
  match val with
  | VFloat v => Ok v
  | VBool b => Ok (of_bool b)
  | VInt i => if float_fits i then Ok (of_int i) else Raise OverflowError
  | VStr w =>
      match of_str w with
      | Some v => Ok v
      | None =>
          Raise (ValueError
                   ("could not convert string to float: " +:+ py_repr w))
      end
  end.

(** [setattr(entity, f, val)], with the type check of the protobuf field. *)
Definition setattr (e : protos.Entity F) (f : Field.t) (val : value F)
  : result (protos.Entity F) :=
  match Field.cpp_type f, val with
  | Field.CPPTYPE_DOUBLE, VStr _ => Raise TypeError
  | Field.CPPTYPE_DOUBLE, _ => v ← as_float64 val; Ok (set_double e f v)
  | Field.CPPTYPE_BOOL, VBool b => Ok (set_bool e f b)
  | Field.CPPTYPE_BOOL, VInt i => Ok (set_bool e f (negb (Z.eqb i 0)))
  | Field.CPPTYPE_STRING, VStr w => Ok (set_string e f w)
  | _, _ => Raise TypeError
  end.

End Attributes.

(** ** PhysicsState *)

Record PhysicsState (F : Type) : Type := {
  _proto_state : protos.PhysicalState F;
  _n : nat;
  _entity_names : list string;
  _array_rep : list F;
  _entities_with_atmospheres : list nat;
}.
Arguments _proto_state {F} _.
Arguments _n {F} _.
Arguments _entity_names {F} _.
Arguments _array_rep {F} _.
Arguments _entities_with_atmospheres {F} _.

(** For if an entity is not landed to anything *)
Definition NO_INDEX : Z := -1.
(** The number of single-element values at the end of the y-vector. *)
Definition N_SINGULAR_ELEMENTS : nat := 2.
Definition SRB_TIME_INDEX : Z := -2.
Definition TIME_ACC_INDEX : Z := -1.

Section State.
Context {F : Type} `{Float64 F}.

Definition with_array (s : PhysicsState F) (a : list F) : PhysicsState F :=
  {| _proto_state := _proto_state s; _n := _n s;
     _entity_names := _entity_names s; _array_rep := a;
     _entities_with_atmospheres := _entities_with_atmospheres s |}.

Definition with_entities (p : protos.PhysicalState F)
    (es : list (protos.Entity F)) : protos.PhysicalState F :=
  {| protos.entities := es; protos.timestamp := protos.timestamp p;
     protos.srb_time := protos.srb_time p;
     protos.time_acc := protos.time_acc p;
     protos.parachute_deployed := protos.parachute_deployed p;
     protos.reference := protos.reference p;
     protos.target := protos.target p; protos.navmode := protos.navmode p |}.

Definition with_proto (s : PhysicsState F) (p : protos.PhysicalState F)
  : PhysicsState F :=
  {| _proto_state := p; _n := _n s; _entity_names := _entity_names s;
     _array_rep := _array_rep s;
     _entities_with_atmospheres := _entities_with_atmospheres s |}.

(** [_name_to_index]: reads [self._entity_names] only, which is what it is
    given here ([__init__] calls it on the half-built object). *)
Definition _name_to_index (_entity_names : list string) (name : string)
  : result Z :=
  if decide (name ≠ "") then
    match list_index name _entity_names with
    | Some i => Ok (Z.of_nat i)
    | None => Raise (NoEntityError (name +:+ " not in entity list"))
    end
  else Ok NO_INDEX.

(** [_index_to_name] *)
Definition _index_to_name (_entity_names : list string) (index : F)
  : result string :=
  i ← to_int index;
  if decide (i ≠ NO_INDEX) then getitem _entity_names i else Ok "".

(** The bounds of the slice that [_y_component] returns. *)
Definition _y_bounds (n : nat) (field_name : Field.t) : result (nat * nat) :=
  match dict_get _FIELD_ORDERING field_name with
  | Some k => Ok ((k * n)%nat, ((k + 1) * n)%nat)
  | None => Raise (ValueError "KeyError")
  end.

Definition _y_component (s : PhysicsState F) (field_name : Field.t)
  : result (list F) :=
  '(lo, hi) ← _y_bounds (_n s) field_name;
  Ok (slice (_array_rep s) lo hi).

(** The body of the two nested loops of [__init__] that fill a new
    y-vector: [cell_value] is the number to store for a field of an entity
    (an index for the name in [landed_on]), [fill_cell] stores it. An index
    into the names is stored as the setter of [landed_on] stores it: it
    always fits a float64. *)
Definition cell_value (names : list string) (field_name : Field.t)
    (entity : protos.Entity F) : result F :=
  let proto_value := getattr entity field_name in
  if decide (field_name = _LANDED_ON) then
    match proto_value with
    | VStr w => of_int <$> _name_to_index names w
    | _ => Raise AssertionError
    end
  else as_float64 proto_value.

Definition fill_cell (names : list string) (n : nat)
    (field_name : Field.t) (field_n : nat)
    (entity_index : nat) (entity : protos.Entity F) (y : list F)
  : result (list F) :=
  v ← cell_value names field_name entity;
  setitem y (Z.of_nat n * Z.of_nat field_n + Z.of_nat entity_index) v.

Definition fill_array (names : list string) (n : nat)
    (entities : list (protos.Entity F)) (y : list F) : result (list F) :=
  for_each
    (λ '(field_name, field_n),
       for_each
         (λ '(entity_index, entity),
            fill_cell names n field_name field_n entity_index entity)
         (enumerate entities))
    _FIELD_ORDERING y.

(** The two branches of [if y is None] in [__init__]: the array
    representation, and [self._proto_state] as the branch leaves it. *)
Definition ingest (y : option (list F)) (proto_state : protos.PhysicalState F)
  : result (list F * protos.PhysicalState F) :=
  let n := length (protos.entities proto_state) in
  let names := protos.name <$> protos.entities proto_state in
  match y with
  | None =>
      let y := replicate
                 (n * length _PER_ENTITY_MUTABLE_FIELDS
                  + N_SINGULAR_ELEMENTS)%nat np_empty_cell in
      y ← fill_array names n (protos.entities proto_state) y;
      y ← setitem y (-2) (protos.srb_time proto_state);
      y ← setitem y (-1) (protos.time_acc proto_state);
      Ok (y, proto_state)
  | Some y =>
      srb ← getitem y SRB_TIME_INDEX;
      acc ← getitem y TIME_ACC_INDEX;
      Ok (y,
          {| protos.entities := protos.entities proto_state;
             protos.timestamp := protos.timestamp proto_state;
             protos.srb_time := srb;
             protos.time_acc := acc;
             protos.parachute_deployed :=
               protos.parachute_deployed proto_state;
             protos.reference := protos.reference proto_state;
             protos.target := protos.target proto_state;
             protos.navmode := protos.navmode proto_state |})
  end.

(** The two assertions on the size of the array. *)
Definition check_size (size n : nat) : result unit :=
  let k := Z.of_nat (length _PER_ENTITY_MUTABLE_FIELDS) in
  _ ← assert (bool_decide
                ((Z.of_nat size - Z.of_nat N_SINGULAR_ELEMENTS) `mod` k = 0));
  assert (bool_decide
            ((Z.of_nat size - Z.of_nat N_SINGULAR_ELEMENTS) `div` k
             = Z.of_nat n)).

(** [np.mod(self.Heading, 2 * np.pi, out=self.Heading)] *)
Definition normalize_heading (n : nat) (array_rep : list F)
  : result (list F) :=
  '(lo, hi) ← _y_bounds n Field.heading;
  Ok (slice_map (λ v, np_mod v two_pi) array_rep lo hi).

(** The indices of the entities that have an atmosphere. *)
Definition atmospheres (es : list (protos.Entity F)) : list nat :=
  (filter
     (λ p : nat * protos.Entity F,
        to_bool (protos.atmosphere_scaling p.2) = true
        ∧ to_bool (protos.atmosphere_thickness p.2) = true)
     (enumerate es)).*1.

(** [PhysicsState.__init__(y, proto_state)] *)
Definition __init__ (y : option (list F)) (proto_state : protos.PhysicalState F)
  : result (PhysicsState F) :=
  let n := length (protos.entities proto_state) in
  let names := protos.name <$> protos.entities proto_state in
  '(array_rep, proto) ← ingest y proto_state;
  _ ← check_size (length array_rep) n;
  array_rep ← normalize_heading n array_rep;
  Ok {| _proto_state := proto; _n := n; _entity_names := names;
        _array_rep := array_rep;
        _entities_with_atmospheres := atmospheres (protos.entities proto) |}.

(** [y0] *)
Definition y0 (s : PhysicsState F) : list F := _array_rep s.

End State.

(** ** _EntityView

    A view is the pair of its creator and an index; the accessors below
    take the two apart. A setter mutates the creator in place: it returns
    the creator as the call leaves it, also when the call raises, and the
    outcome of the call. *)

Section Views.
Context {F : Type} `{Float64 F}.

Definition outcome : Type := (PhysicsState F * result unit)%type.

Definition entity_view_unchanging_fget (creator : PhysicsState F) (index : Z)
    (name : Field.t) : result (value F) :=
  e ← getitem (protos.entities (_proto_state creator)) index;
  Ok (getattr e name).

Definition entity_view_unchanging_fset (creator : PhysicsState F) (index : Z)
    (val : value F) (name : Field.t) : outcome :=
  let es := protos.entities (_proto_state creator) in
  match e ← getitem es index; e' ← setattr e name val; setitem es index e' with
  | Ok es' =>
      (with_proto creator (with_entities (_proto_state creator) es'), Ok tt)
  | Raise err => (creator, Raise err)
  end.

(** The slot [self._creator._n * field_n + self._index]. *)
Definition slot (creator : PhysicsState F) (field_n : nat) (index : Z) : Z :=
  Z.of_nat (_n creator) * Z.of_nat field_n + index.

Definition store (creator : PhysicsState F) (field_n : nat) (index : Z)
    (v : result F) : outcome :=
  match v ← v; setitem (_array_rep creator) (slot creator field_n index) v with
  | Ok a => (with_array creator a, Ok tt)
  | Raise err => (creator, Raise err)
  end.

(** The getter and setter of a mutable field, by the type of the field. *)
Definition entity_view_mutable_fget (f : Field.t) (creator : PhysicsState F)
    (index : Z) (field_n : nat) : result (value F) :=
  match Field.cpp_type f with
  | Field.CPPTYPE_DOUBLE =>
      VFloat <$> getitem (_array_rep creator) (slot creator field_n index)
  | Field.CPPTYPE_BOOL =>
      v ← getitem (_array_rep creator) (slot creator field_n index);
      Ok (VBool (to_bool v))
  | Field.CPPTYPE_STRING =>
      if decide (f = _LANDED_ON) then
        v ← getitem (_array_rep creator) (slot creator field_n index);
        entity_index ← to_int v;
        if decide (entity_index = NO_INDEX) then Ok (VStr "")
        else VStr <$> getitem (_entity_names creator) entity_index
      else Raise AssertionError
  end.

Definition entity_view_mutable_fset (f : Field.t) (creator : PhysicsState F)
    (index : Z) (val : value F) (field_n : nat) : outcome :=
  match Field.cpp_type f with
  | Field.CPPTYPE_DOUBLE | Field.CPPTYPE_BOOL =>
      store creator field_n index (as_float64 val)
  | Field.CPPTYPE_STRING =>
      if decide (f = _LANDED_ON) then
        match val with
        | VStr w =>
            store creator field_n index
              (of_int <$> _name_to_index (_entity_names creator) w)
        | _ => (creator, Raise AssertionError)
        end
      else (creator, Raise AssertionError)
  end.

(** The properties that the module-level loop installs on [_EntityView]. *)
Definition fget (creator : PhysicsState F) (index : Z) (f : Field.t)
  : result (value F) :=
  if bool_decide (f ∈ _PER_ENTITY_UNCHANGING_FIELDS) then
    entity_view_unchanging_fget creator index f
  else
    match dict_get _FIELD_ORDERING f with
    | Some field_n => entity_view_mutable_fget f creator index field_n
    | None => Raise AssertionError
    end.

Definition fset (creator : PhysicsState F) (index : Z) (f : Field.t)
    (val : value F) : outcome :=
  if bool_decide (f ∈ _PER_ENTITY_UNCHANGING_FIELDS) then
    entity_view_unchanging_fset creator index val f
  else
    match dict_get _FIELD_ORDERING f with
    | Some field_n => entity_view_mutable_fset f creator index val field_n
    | None => (creator, Raise AssertionError)
    end.

(** ** Lookup, replacement and conversion *)

(** An index of [__getitem__] and [__setitem__]: a name or an integer. *)
Inductive key : Type :=
  | ByName (w : string)
  | ByIndex (i : Z).

(** [self._entity_names.index(w)], with the [ValueError] of [list.index] *)
Definition names_index (s : PhysicsState F) (w : string) : result Z :=
  match list_index w (_entity_names s) with
  | Some i => Ok (Z.of_nat i)
  | None => Raise (ValueError (py_repr w +:+ " is not in list"))
  end.

(** [__getitem__]: the index of the [_EntityView] it returns, whose
    creator is [s]. *)
Definition __getitem__ (s : PhysicsState F) (index : key) : result Z :=
  match index with
  | ByName w => names_index s w
  | ByIndex i => Ok i
  end.

(** The fields that [__setitem__] and [as_proto] assign, in their order. *)
Definition assigned_fields : list Field.t :=
  [Field.x; Field.y; Field.vx; Field.vy; Field.heading; Field.spin;
   Field.fuel; Field.throttle; Field.landed_on; Field.broken].

(** The right-hand side of [__setitem__]: an [Entity] that wraps a
    protobuf, or an [_EntityView]. Python compares the creator of a view by
    identity, so a view whose creator is the assigned-to state itself is told
    apart from a view into another [PhysicsState] object. *)
Inductive entity : Type :=
  | Entity (proto : protos.Entity F)
  | ViewOfSelf (index : Z)
  | ViewOf (creator : PhysicsState F) (index : Z).

Definition entity_attr (self : PhysicsState F) (val : entity) (f : Field.t)
  : result (value F) :=
  match val with
  | Entity proto => Ok (getattr proto f)
  | ViewOfSelf index => fget self index f
  | ViewOf creator index => fget creator index f
  end.

Fixpoint map_result {A B} (f : A → result B) (l : list A) : result (list B) :=
  match l with
  | [] => Ok []
  | a :: l' => b ← f a; bs ← map_result f l'; Ok (b :: bs)
  end.

(** Assignments one after the other; the first that raises ends them. *)
Fixpoint assign_all (s : PhysicsState F) (index : Z)
    (fvs : list (Field.t * value F)) : outcome :=
  match fvs with
  | [] => (s, Ok tt)
  | (f, v) :: fvs' =>
      match fset s index f v with
      | (s', Ok _) => assign_all s' index fvs'
      | (s', Raise err) => (s', Raise err)
      end
  end.

Definition is_view_of_self (val : entity) : bool :=
  match val with ViewOfSelf _ => true | _ => false end.

(** [__setitem__] *)
Definition __setitem__ (self : PhysicsState F) (index : key) (val : entity)
  : outcome :=
  if is_view_of_self val then (self, Ok tt)
  else
    match
      i ← __getitem__ self index;
      vals ← map_result (entity_attr self val) assigned_fields;
      Ok (i, vals)
    with
    | Ok (i, vals) => assign_all self i (zip assigned_fields vals)
    | Raise err => (self, Raise err)
    end.

(** [__iter__]: the indices of the views it yields. *)
Definition __iter__ (s : PhysicsState F) : list Z :=
  Z.of_nat <$> seq 0 (_n s).

Fixpoint setattr_all (e : protos.Entity F) (fvs : list (Field.t * value F))
  : result (protos.Entity F) :=
  match fvs with
  | [] => Ok e
  | (f, v) :: fvs' => e' ← setattr e f v; setattr_all e' fvs'
  end.

(** [as_proto] *)
Definition as_proto (s : PhysicsState F) : result (protos.PhysicalState F) :=
  let constructed_protobuf := _proto_state s in
  es ← map_result
         (λ '(entity_data, entity),
            vals ← map_result (fget s entity_data) assigned_fields;
            setattr_all entity (zip assigned_fields vals))
         (zip (__iter__ s) (protos.entities constructed_protobuf));
  Ok (with_entities constructed_protobuf es).

(** [craft] *)
Definition craft (s : PhysicsState F) : result (option string) :=
  if bool_decide (common.HABITAT ∉ _entity_names s)
     && bool_decide (common.AYSE ∉ _entity_names s) then Ok None
  else if bool_decide (common.AYSE ∉ _entity_names s) then
    Ok (Some common.HABITAT)
  else
    hab_index ← _name_to_index (_entity_names s) common.HABITAT;
    ayse_index ← _name_to_index (_entity_names s) common.AYSE;
    landed ← _y_component s Field.landed_on;
    v ← getitem landed hab_index;
    if eq_int v ayse_index then Ok (Some common.AYSE)
    else Ok (Some common.HABITAT).

End Views.

(** ** Notions used to state the properties *)

Section Notions.
Context {F : Type} `{Float64 F}.

(** The block of a mutable field in the y-vector. *)
Definition block (f : Field.t) : nat :=
  default 0%nat (dict_get _FIELD_ORDERING f).

(** The shape that [__init__] gives a state and that the setters keep. *)
Definition shaped (s : PhysicsState F) : Prop :=
  length (protos.entities (_proto_state s)) = _n s
  ∧ length (_entity_names s) = _n s
  ∧ length (_array_rep s)
    = (_n s * length _PER_ENTITY_MUTABLE_FIELDS + N_SINGULAR_ELEMENTS)%nat.

(** A field whose values live in the y-vector. *)
Definition mutable (f : Field.t) : Prop := f ∈ _PER_ENTITY_MUTABLE_FIELDS.

(** A field of floating-point type. *)
Definition numeric (f : Field.t) : Prop :=
  Field.cpp_type f = Field.CPPTYPE_DOUBLE.

(** Every landed-on name of the snapshot is empty or the name of one of its
    entities. *)
Definition landings_known (P : protos.PhysicalState F) : Prop :=
  ∀ e, e ∈ protos.entities P →
    protos.landed_on e = ""
    ∨ protos.landed_on e ∈ (protos.name <$> protos.entities P).

(** The headings that [__init__] is given: those of the snapshot without a
    y-vector, the heading block of the y-vector otherwise. *)
Definition ingested_headings (y : option (list F))
    (P : protos.PhysicalState F) : list F :=
  let n := length (protos.entities P) in
  match y with
  | None => protos.heading <$> protos.entities P
  | Some y => slice y (block Field.heading * n) ((block Field.heading + 1) * n)
  end.

(** The entity with its heading reduced by [np.mod(_, 2π)]. *)
Definition reduced (e : protos.Entity F) : protos.Entity F :=
  {| protos.name := protos.name e;
     protos.x := protos.x e; protos.y := protos.y e;
     protos.vx := protos.vx e; protos.vy := protos.vy e;
     protos.r := protos.r e; protos.mass := protos.mass e;
     protos.heading := np_mod (protos.heading e) two_pi;
     protos.spin := protos.spin e;
     protos.fuel := protos.fuel e; protos.throttle := protos.throttle e;
     protos.landed_on := protos.landed_on e;
     protos.broken := protos.broken e;
     protos.artificial := protos.artificial e;
     protos.atmosphere_thickness := protos.atmosphere_thickness e;
     protos.atmosphere_scaling := protos.atmosphere_scaling e |}.

(** The slots of entity [i] hold the mutable fields of [e]: the numbers
    that [__init__] stores for them. *)
Definition holds (s : PhysicsState F) (i : nat) (e : protos.Entity F) : Prop :=
  ∀ f, mutable f →
    ∃ v, cell_value (_entity_names s) f e = Ok v
         ∧ _array_rep s !! (_n s * block f + i)%nat = Some v.

(** [unchanging] fields of the first entity, mutable fields of the second:
    what the assignments of [as_proto] and [__setitem__] make of them. *)
Definition merged (e e2 : protos.Entity F) : protos.Entity F :=
  {| protos.name := protos.name e;
     protos.x := protos.x e2; protos.y := protos.y e2;
     protos.vx := protos.vx e2; protos.vy := protos.vy e2;
     protos.r := protos.r e; protos.mass := protos.mass e;
     protos.heading := protos.heading e2; protos.spin := protos.spin e2;
     protos.fuel := protos.fuel e2; protos.throttle := protos.throttle e2;
     protos.landed_on := protos.landed_on e2;
     protos.broken := protos.broken e2;
     protos.artificial := protos.artificial e;
     protos.atmosphere_thickness := protos.atmosphere_thickness e;
     protos.atmosphere_scaling := protos.atmosphere_scaling e |}.

(** [val], the right-hand side of [self[i] = val], reads as the entity
    [src]: its mutable fields are those of [src]. An [Entity] reads as its
    protobuf. *)
Definition reads_as (s : PhysicsState F) (val : entity)
    (src : protos.Entity F) : Prop :=
  ∀ f, mutable f → entity_attr s val f = Ok (getattr src f).

(** [self[i] = val] as a copy of every field: afterwards each field of
    slot [i] reads as it reads from [val]. *)
Definition replaced (s : PhysicsState F) (i : nat) (val : entity) : Prop :=
  ∀ f : Field.t,
    fget (__setitem__ s (ByIndex (Z.of_nat i)) val).1 (Z.of_nat i) f
    = entity_attr s val f.

End Notions.

Arguments block : simpl never.


(** ** Exact arithmetic

    An instance of [Float64] in which numbers are rationals and no operation
    rounds: arithmetic as it is on paper, for the properties that do not
    turn on rounding. [2 * np.pi] is the rational that the double-precision
    constant denotes. *)
Module Exact.
Local Open Scope Q_scope.

Definition q_mod (v w : Q) : Q :=
  Qred (v - w * inject_Z (Qfloor (v / w)))%Q.

Definition q_trunc (v : Q) : Z := Z.quot (Qnum v) (Z.pos (Qden v)).

(** The number a decimal literal denotes; the rationals have no infinity
    and no NaN, whose names are not read. *)
Definition q_of_str (w : string) : option Q :=
  match parse_float w with
  | Some (LitDec negative digits exp10) =>
      Some (Qred (inject_Z (if negative then - digits else digits)
                  * Qpower 10 exp10))
  | _ => None
  end.

#[global] Instance float64 : Float64 Q := {|
  of_int := inject_Z;
  of_bool := λ b, if b then 1%Q else 0%Q;
  to_int := λ v, Ok (q_trunc v);
  eq_int := λ v i, Qeq_bool v (inject_Z i);
  fleb := Qle_bool;
  fltb := λ v w, negb (Qle_bool w v);
  np_mod := q_mod;
  two_pi := (7074237752028440 # 1125899906842624)%Q;
  np_empty_cell := 0%Q;
  of_str := q_of_str;
|}.

Definition body (name : string) (heading : Q) (landed_on : string)
    (broken : bool) : protos.Entity Q :=
  {| protos.name := name;
     protos.x := 3 # 2; protos.y := -4; protos.vx := 1 # 8; protos.vy := 0;
     protos.r := 10; protos.mass := 100;
     protos.heading := heading; protos.spin := 1 # 4; protos.fuel := 50;
     protos.throttle := 1 # 2;
     protos.landed_on := landed_on; protos.broken := broken;
     protos.artificial := true;
     protos.atmosphere_thickness := 0; protos.atmosphere_scaling := 0 |}.

Definition snapshot (es : list (protos.Entity Q)) : protos.PhysicalState Q :=
  {| protos.entities := es; protos.timestamp := 0;
     protos.srb_time := -1; protos.time_acc := 1;
     protos.parachute_deployed := false;
     protos.reference := "Earth"; protos.target := "AYSE";
     protos.navmode := 0 |}.

(** Habitat docked to AYSE, its heading given as 7.5 rad. *)
Definition docked : protos.PhysicalState Q :=
  snapshot [body "Habitat" (15 # 2) "AYSE" true; body "AYSE" (-1) "" false].

(** A third body, landed on Habitat. *)
Definition probe : protos.Entity Q := body "Probe" (1 # 3) "Habitat" true.

(** AYSE alone. *)
Definition ayse_only : protos.PhysicalState Q :=
  snapshot [body "AYSE" 0 "" false].

(** The state built from a snapshot, for snapshots from which one is. *)
Definition built (p : protos.PhysicalState Q) : PhysicsState Q :=
  match __init__ None p with
  | Ok s => s
  | Raise _ =>
      {| _proto_state := p; _n := 0; _entity_names := [];
         _array_rep := []; _entities_with_atmospheres := [] |}
  end.

End Exact.

(** ** Binary64 arithmetic

    The instance of [Float64] in which numbers are the IEEE 754 binary64
    numbers of the kernel, each operation rounded to the nearest number,
    ties to even, as numpy and Python compute. *)
Module Binary64.
Import PrimFloat.

(** [float(i)] for an integer that fits. *)
Definition b_of_int (i : Z) : float :=
  FloatOps.SF2Prim
    (SpecFloat.binary_normalize FloatOps.prec FloatOps.emax i 0 false).

(** [int(v)]: the integer part, towards zero. *)
Definition b_to_int (v : float) : result Z :=
  match FloatOps.Prim2SF v with
  | SpecFloat.S754_nan =>
      Raise (ValueError "cannot convert float NaN to integer")
  | SpecFloat.S754_infinity _ => Raise OverflowError
  | SpecFloat.S754_zero _ => Ok 0
  | SpecFloat.S754_finite negative m e =>
      Ok (SpecFloat.cond_Zopp negative (Z.shiftl (Z.pos m) e))
  end.

(** C's [fmod]: the remainder of [a / b] with the sign of [a], which is
    exact. *)
Definition fmod (a b : float) : float :=
  match FloatOps.Prim2SF a, FloatOps.Prim2SF b with
  | SpecFloat.S754_nan, _ | _, SpecFloat.S754_nan
  | SpecFloat.S754_infinity _, _ | _, SpecFloat.S754_zero _ => nan
  | SpecFloat.S754_zero _, _
  | SpecFloat.S754_finite _ _ _, SpecFloat.S754_infinity _ => a
  | SpecFloat.S754_finite negative ma ea, SpecFloat.S754_finite _ mb eb =>
      let e := Z.min ea eb in
      let r := Z.rem (Z.shiftl (Z.pos ma) (ea - e))
                 (Z.shiftl (Z.pos mb) (eb - e)) in
      if bool_decide (r = 0) then (if negative then neg_zero else zero)
      else
        FloatOps.SF2Prim
          (SpecFloat.binary_normalize FloatOps.prec FloatOps.emax
             (SpecFloat.cond_Zopp negative r) e false)
  end.

(** [np.mod(a, b)], numpy's [npy_divmod]: [fmod], moved by [b] when its
    sign is not that of [b]. The sum rounds. *)
Definition b_np_mod (a b : float) : float :=
  let mod_ := fmod a b in
  if eqb b zero then mod_
  else if eqb mod_ zero then (if ltb b zero then neg_zero else zero)
  else if xorb (ltb b zero) (ltb mod_ zero) then add mod_ b
  else mod_.

(** [float(w)] of a decimal literal: the number nearest to it. *)
Definition round_decimal (negative : bool) (digits exp10 : Z) : float :=
  match digits with
  | Z.pos m =>
      if bool_decide (0 ≤ exp10)%Z then
        FloatOps.SF2Prim
          (SpecFloat.binary_normalize FloatOps.prec FloatOps.emax
             (SpecFloat.cond_Zopp negative (digits * 10 ^ exp10)%Z) 0%Z
             false)
      else
        FloatOps.SF2Prim
          (SpecFloat.SFdiv FloatOps.prec FloatOps.emax
             (SpecFloat.S754_finite negative m 0%Z)
             (SpecFloat.S754_finite false (Z.to_pos (10 ^ (- exp10))%Z)
                0%Z))
  | _ => if negative then neg_zero else zero
  end.

Definition b_of_str (w : string) : option float :=
  match parse_float w with
  | Some LitNan => Some nan
  | Some (LitInf negative) =>
      Some (if negative then neg_infinity else infinity)
  | Some (LitDec negative digits exp10) =>
      Some (round_decimal negative digits exp10)
  | None => None
  end.

#[global] Instance float64 : Float64 float := {|
  of_int := b_of_int;
  of_bool := λ b, if b then one else zero;
  to_int := b_to_int;
  eq_int := λ v i, eqb v (b_of_int i);
  fleb := leb;
  fltb := ltb;
  np_mod := b_np_mod;
  two_pi := 0x1.921fb54442d18p+2%float;
  np_empty_cell := zero;
  of_str := b_of_str;
|}.

(** [-1e-20]: the number that [float] reads from that literal. *)
Definition tiny : float := (-0x1.79ca10c924223p-67)%float.

(** 7.5 rad, more than one turn. *)
Definition turned : float := 7.5%float.

Definition body (name : string) (heading : float) : protos.Entity float :=
  {| protos.name := name;
     protos.x := 1.5%float; protos.y := (-4)%float;
     protos.vx := 0.125%float; protos.vy := 0%float;
     protos.r := 10%float; protos.mass := 100%float;
     protos.heading := heading; protos.spin := 0.25%float;
     protos.fuel := 50%float; protos.throttle := 0.5%float;
     protos.landed_on := ""; protos.broken := false;
     protos.artificial := true;
     protos.atmosphere_thickness := 0%float;
     protos.atmosphere_scaling := 0%float |}.

(** Habitat turned by [-1e-20] rad, and AYSE turned by 7.5 rad. *)
Definition tilted : protos.PhysicalState float :=
  {| protos.entities := [body "Habitat" tiny; body "AYSE" turned];
     protos.timestamp := 0%float;
     protos.srb_time := (-1)%float; protos.time_acc := 1%float;
     protos.parachute_deployed := false;
     protos.reference := "Earth"; protos.target := "AYSE";
     protos.navmode := 0 |}.

(** The state built from a snapshot, for snapshots from which one is. *)
Definition built (p : protos.PhysicalState float) : PhysicsState float :=
  match __init__ None p with
  | Ok s => s
  | Raise _ =>
      {| _proto_state := p; _n := 0; _entity_names := [];
         _array_rep := []; _entities_with_atmospheres := [] |}
  end.

End Binary64.

(** ** The other accessors of [Entity] and [PhysicsState] *)

Section Accessors.
Context {F : Type} `{Float64 F}.

(** The methods of class [Entity], which [_EntityView] inherits. They go
    through the properties of the object: [attr f] is [self.f], which is
    [getattr] on the protobuf of an [Entity] and [fget] on a view, and
    [set f val] is [self.f = val]. *)

(** [value == w] for a string [w] *)
Definition is_str (w : string) (val : value F) : bool :=
  match val with
  | VStr w' => bool_decide (w' = w)
  | _ => false
  end.

(** [pos] *)
Definition pos_get (attr : Field.t → result (value F))
  : result (value F * value F) :=
  x ← attr Field.x; y ← attr Field.y; Ok (x, y).

(** [v] *)
Definition v_get (attr : Field.t → result (value F))
  : result (value F * value F) :=
  vx ← attr Field.vx; vy ← attr Field.vy; Ok (vx, vy).

(** [dockable] *)
Definition dockable (attr : Field.t → result (value F)) : result bool :=
  name ← attr Field.name; Ok (is_str common.AYSE name).

(** [landed] *)
Definition landed (attr : Field.t → result (value F)) : result bool :=
  landed_on ← attr Field.landed_on; Ok (negb (is_str "" landed_on)).

(** The setters of [pos] and [v] on a view: [self.f0 = coord[0]] and then
    [self.f1 = coord[1]]. *)
Definition set_pair (f0 f1 : Field.t) (creator : PhysicsState F) (index : Z)
    (coord : list (value F)) : outcome :=
  match getitem coord 0 with
  | Raise err => (creator, Raise err)
  | Ok c0 =>
      match fset creator index f0 c0 with
      | (s1, Raise err) => (s1, Raise err)
      | (s1, Ok _) =>
          match getitem coord 1 with
          | Raise err => (s1, Raise err)
          | Ok c1 => fset s1 index f1 c1
          end
      end
  end.

Definition pos_set := set_pair Field.x Field.y.
Definition v_set := set_pair Field.vx Field.vy.

(** [__len__] *)
Definition __len__ (s : PhysicsState F) : nat := _n s.

(** The per-field vectors [X], [Y], [VX], [VY], [Heading], [Spin], [Fuel],
    [Throttle] and [Broken]. *)
Definition X (s : PhysicsState F) := _y_component s Field.x.
Definition Y (s : PhysicsState F) := _y_component s Field.y.
Definition VX (s : PhysicsState F) := _y_component s Field.vx.
Definition VY (s : PhysicsState F) := _y_component s Field.vy.
Definition Heading (s : PhysicsState F) := _y_component s Field.heading.
Definition Spin (s : PhysicsState F) := _y_component s Field.spin.
Definition Fuel (s : PhysicsState F) := _y_component s Field.fuel.
Definition Throttle (s : PhysicsState F) := _y_component s Field.throttle.
Definition Broken (s : PhysicsState F) := _y_component s Field.broken.

(** [LandedOn]: the dict from the index of a landed entity to the index of
    the entity it is landed on. *)
Definition LandedOn (s : PhysicsState F) : result (gmap nat Z) :=
  landed_on ← _y_component s Field.landed_on;
  for_each
    (λ '(landed, landee) (landed_map : gmap nat Z),
       j ← to_int landee;
       if decide (j ≠ NO_INDEX) then Ok (<[landed := j]> landed_map)
       else Ok landed_map)
    (enumerate landed_on) ∅.

(** [Atmospheres] *)
Definition Atmospheres (s : PhysicsState F) : list nat :=
  _entities_with_atmospheres s.

(** The type check of a [double] field of a protobuf. *)
Definition as_double (val : value F) : result F :=
  match val with
  | VStr _ => Raise TypeError
  | _ => as_float64 val
  end.

Definition with_scalars (p : protos.PhysicalState F) (srb acc : F)
  : protos.PhysicalState F :=
  {| protos.entities := protos.entities p;
     protos.timestamp := protos.timestamp p;
     protos.srb_time := srb; protos.time_acc := acc;
     protos.parachute_deployed := protos.parachute_deployed p;
     protos.reference := protos.reference p;
     protos.target := protos.target p; protos.navmode := protos.navmode p |}.

Definition with_names (p : protos.PhysicalState F) (reference target : string)
  : protos.PhysicalState F :=
  {| protos.entities := protos.entities p;
     protos.timestamp := protos.timestamp p;
     protos.srb_time := protos.srb_time p;
     protos.time_acc := protos.time_acc p;
     protos.parachute_deployed := protos.parachute_deployed p;
     protos.reference := reference;
     protos.target := target; protos.navmode := protos.navmode p |}.

(** [srb_time] and [time_acc], and their setters: the protobuf first, then
    the slot at the end of the array. *)
Definition srb_time (s : PhysicsState F) : F :=
  protos.srb_time (_proto_state s).

Definition time_acc (s : PhysicsState F) : F :=
  protos.time_acc (_proto_state s).

Definition set_scalar (index : Z)
    (update : protos.PhysicalState F → F → protos.PhysicalState F)
    (s : PhysicsState F) (val : value F) : outcome :=
  match as_double val with
  | Raise err => (s, Raise err)
  | Ok v =>
      let s1 := with_proto s (update (_proto_state s) v) in
      match setitem (_array_rep s1) index v with
      | Ok a => (with_array s1 a, Ok tt)
      | Raise err => (s1, Raise err)
      end
  end.

Definition srb_time_set : PhysicsState F → value F → outcome :=
  set_scalar SRB_TIME_INDEX (λ p v, with_scalars p v (protos.time_acc p)).

Definition time_acc_set : PhysicsState F → value F → outcome :=
  set_scalar TIME_ACC_INDEX (λ p v, with_scalars p (protos.srb_time p) v).

(** [reference] and [target], and their setters. *)
Definition reference (s : PhysicsState F) : string :=
  protos.reference (_proto_state s).

Definition target (s : PhysicsState F) : string :=
  protos.target (_proto_state s).

Definition reference_set (s : PhysicsState F) (name : value F) : outcome :=
  match name with
  | VStr w =>
      (with_proto s (with_names (_proto_state s) w (protos.target (_proto_state s))),
       Ok tt)
  | _ => (s, Raise TypeError)
  end.

Definition target_set (s : PhysicsState F) (name : value F) : outcome :=
  match name with
  | VStr w =>
      (with_proto s
         (with_names (_proto_state s) (protos.reference (_proto_state s)) w),
       Ok tt)
  | _ => (s, Raise TypeError)
  end.

(** [craft_entity], [reference_entity] and [target_entity]: the index of the
    view that [self[...]] returns. [craft] may be [None], which
    [__getitem__] passes to [int]. *)
Definition craft_entity (s : PhysicsState F) : result Z :=
  c ← craft s;
  match c with
  | Some w => __getitem__ s (ByName w)
  | None => Raise TypeError
  end.

Definition reference_entity (s : PhysicsState F) : result Z :=
  __getitem__ s (ByName (reference s)).

Definition target_entity (s : PhysicsState F) : result Z :=
  __getitem__ s (ByName (target s)).

End Accessors.

(** ** Further notions *)

Section FurtherNotions.
Context {F : Type} `{Float64 F}.

(** The two numbers at the end of the array are [srb_time] and [time_acc]
    of the snapshot that the state owns. *)
Definition mirrored (s : PhysicsState F) : Prop :=
  getitem (_array_rep s) SRB_TIME_INDEX = Ok (srb_time s)
  ∧ getitem (_array_rep s) TIME_ACC_INDEX = Ok (time_acc s).

(** The value has the type of the field. *)
Definition kind_ok (f : Field.t) (val : value F) : Prop :=
  match Field.cpp_type f, val with
  | Field.CPPTYPE_DOUBLE, VFloat _
  | Field.CPPTYPE_BOOL, VBool _
  | Field.CPPTYPE_STRING, VStr _ => True
  | _, _ => False
  end.

End FurtherNotions.


(** ** Further samples *)

Module Sample.
Local Open Scope Q_scope.

(** Earth, which has an atmosphere. *)
Definition earth : protos.Entity Q :=
  {| protos.name := "Earth";
     protos.x := 0; protos.y := 0; protos.vx := 0; protos.vy := 0;
     protos.r := 6371; protos.mass := 5972;
     protos.heading := 0; protos.spin := 1 # 16; protos.fuel := 0;
     protos.throttle := 0;
     protos.landed_on := ""; protos.broken := false;
     protos.artificial := false;
     protos.atmosphere_thickness := 100; protos.atmosphere_scaling := 7 |}.

(** Habitat on the ground. *)
Definition launchpad : protos.PhysicalState Q :=
  Exact.snapshot [earth; Exact.body "Habitat" 0 "Earth" false].

(** A body said to have landed on Mars, which the docked Habitat does not
    know. *)
Definition stray : protos.Entity Q := Exact.body "Stray" 0 "Mars" false.

(** A y-vector for two entities: ten blocks of two numbers, then
    [srb_time] and [time_acc]. The second entity has landed on the first
    and is broken. *)
Definition vector : list Q :=
  [1; 2; 3; 4; 5; 6; 7; 8; 9; 10; 11; 12; 13; 14; 15; 16; -1; 0; 0; 1;
   20; 30].

(** The state built from [vector] and the docked Habitat, and the snapshot
    [as_proto] returns for it. *)
Definition rebuilt : PhysicsState Q :=
  match __init__ (Some vector) Exact.docked with
  | Ok s => s
  | Raise _ => Exact.built Exact.docked
  end.

Definition externalized : protos.PhysicalState Q :=
  match as_proto rebuilt with
  | Ok p => p
  | Raise _ => Exact.docked
  end.

End Sample.

(** * Properties *)

(** [run] steps through the binds of the [result] monad, [fields] through
    the projections of a state. *)
Ltac run := cbn [mbind result_bind mret result_ret fmap result_fmap].
Ltac fields :=
  cbn [_n _entity_names _proto_state _array_rep _entities_with_atmospheres].

(** ** Indexing *)

Section Indexing.
Context {A : Type}.
Implicit Types (l : list A) (a : A).

Lemma py_index_nat (len j : nat) :
  (j < len)%nat → py_index len (Z.of_nat j) = Ok j.
Proof.
  intros Hj. unfold py_index.
  rewrite bool_decide_eq_true_2 by lia. by rewrite Nat2Z.id.
Qed.

Lemma py_index_neg (len : nat) (i : Z) :
  - Z.of_nat len ≤ i < 0 → py_index len i = Ok (Z.to_nat (Z.of_nat len + i)).
Proof.
  intros Hi. unfold py_index.
  rewrite bool_decide_eq_false_2 by lia.
  by rewrite bool_decide_eq_true_2 by lia.
Qed.

Lemma py_index_lt (len : nat) (i : Z) (j : nat) :
  py_index len i = Ok j → (j < len)%nat.
Proof.
  unfold py_index. repeat case_bool_decide; intros [= <-]; lia.
Qed.

Lemma getitem_nat l (j : nat) a :
  l !! j = Some a → getitem l (Z.of_nat j) = Ok a.
Proof.
  intros Hl. unfold getitem.
  rewrite py_index_nat by (by eapply lookup_lt_Some). simpl. by rewrite Hl.
Qed.

Lemma setitem_nat l (j : nat) a :
  (j < length l)%nat → setitem l (Z.of_nat j) a = Ok (<[j := a]> l).
Proof. intros Hj. unfold setitem. by rewrite py_index_nat. Qed.

Lemma setitem_from_end l (i : Z) a :
  - Z.of_nat (length l) ≤ i < 0 →
  setitem l i a = Ok (<[Z.to_nat (Z.of_nat (length l) + i) := a]> l).
Proof. intros Hi. unfold setitem. by rewrite py_index_neg. Qed.

Lemma getitem_from_end l (i : Z) :
  - Z.of_nat (length l) ≤ i < 0 →
  ∃ a, l !! Z.to_nat (Z.of_nat (length l) + i) = Some a
       ∧ getitem l i = Ok a.
Proof.
  intros Hi. unfold getitem. rewrite py_index_neg by done. simpl.
  destruct (lookup_lt_is_Some_2 l (Z.to_nat (Z.of_nat (length l) + i)))
    as [a Ha]; [lia|].
  exists a. by rewrite Ha.
Qed.

Lemma setitem_length l i a l' :
  setitem l i a = Ok l' → length l' = length l.
Proof.
  unfold setitem. destruct (py_index _ _); simpl; [|done].
  intros [= <-]. apply length_insert.
Qed.

Lemma setitem_no_entity l i a msg :
  setitem l i a ≠ Raise (NoEntityError msg).
Proof.
  unfold setitem, py_index. repeat case_bool_decide; simpl; congruence.
Qed.

Lemma getitem_lookup_eq (a b : list A) (k : nat) :
  length a = length b → a !! k = b !! k →
  getitem a (Z.of_nat k) = getitem b (Z.of_nat k).
Proof.
  intros Hl Hk. unfold getitem. rewrite Hl.
  destruct (py_index (length b) (Z.of_nat k)) as [j|] eqn:Hj; [|done].
  revert Hj. unfold py_index. repeat case_bool_decide; intros [= <-]; [|lia].
  run. by rewrite Nat2Z.id, Hk.
Qed.

Lemma getitem_insert_ne (l : list A) (k j : nat) (a : A) :
  k ≠ j → getitem (<[k := a]> l) (Z.of_nat j) = getitem l (Z.of_nat j).
Proof.
  intros Hk. unfold getitem. rewrite length_insert.
  destruct (decide (j < length l)%nat) as [Hj|Hj].
  - rewrite py_index_nat by done. run. by rewrite list_lookup_insert_ne.
  - unfold py_index. by rewrite !bool_decide_eq_false_2 by lia.
Qed.

End Indexing.

Lemma list_index_Some w l i :
  list_index w l = Some i → l !! i = Some w.
Proof.
  revert i. induction l as [|h t IH]; intros i; simpl; [done|].
  case_decide as Hh; [by intros [= <-]; subst|].
  destruct (list_index w t) as [j|]; simpl; [|done].
  intros [= <-]. by apply IH.
Qed.

Lemma list_index_None w l :
  list_index w l = None ↔ w ∉ l.
Proof.
  induction l as [|h t IH]; simpl.
  - split; [intros _; apply not_elem_of_nil|done].
  - case_decide as Hh.
    + subst. split; [done|]. intros Hn. exfalso. apply Hn. left.
    + destruct (list_index w t) as [j|] eqn:Hj; simpl.
      * split; [done|]. intros Hn. exfalso. apply Hn. right.
        apply list_elem_of_lookup. exists j. by apply list_index_Some.
      * split; [|done]. intros _. rewrite not_elem_of_cons. split; [done|].
        by apply IH.
Qed.

Lemma list_index_elem w l :
  w ∈ l → ∃ i, list_index w l = Some i.
Proof.
  intros Hin. destruct (list_index w l) as [i|] eqn:Hi; [by exists i|].
  by apply list_index_None in Hi.
Qed.

(** ** The name table and the landed-on field *)

Section NameTable.
Context {F : Type} `{Float64 F}.

Lemma name_to_index_absent (names : list string) (w : string) :
  w ≠ "" → w ∉ names →
  _name_to_index names w = Raise (NoEntityError (w +:+ " not in entity list")).
Proof.
  intros Hw Hn. unfold _name_to_index.
  rewrite decide_True by done.
  apply list_index_None in Hn. by rewrite Hn.
Qed.

Lemma name_to_index_empty (names : list string) :
  _name_to_index names "" = Ok NO_INDEX.
Proof. done. Qed.

Lemma name_to_index_present (names : list string) (w : string) :
  w ≠ "" → w ∈ names →
  ∃ i : nat, _name_to_index names w = Ok (Z.of_nat i) ∧ names !! i = Some w.
Proof.
  intros Hw Hin. destruct (list_index_elem w names Hin) as [i Hi].
  exists i. unfold _name_to_index. rewrite decide_True by done.
  rewrite Hi. split; [done|]. by apply list_index_Some.
Qed.

Lemma name_to_index_raises (names : list string) (w : string) e :
  _name_to_index names w = Raise e →
  w ≠ "" ∧ (w ∉ names) ∧ e = NoEntityError (w +:+ " not in entity list").
Proof.
  unfold _name_to_index. case_decide as Hw; [|done].
  destruct (list_index w names) eqn:Hi; [done|].
  intros [= <-]. by apply list_index_None in Hi.
Qed.

Lemma fset_landed_on (s : PhysicsState F) (i : Z) (val : value F) :
  fset s i Field.landed_on val
  = match val with
    | VStr w =>
        store s (block Field.landed_on) i
          (of_int <$> _name_to_index (_entity_names s) w)
    | _ => (s, Raise AssertionError)
    end.
Proof. done. Qed.

Lemma fget_landed_on (s : PhysicsState F) (i : Z) :
  fget s i Field.landed_on
  = (v ← getitem (_array_rep s) (slot s (block Field.landed_on) i);
     entity_index ← to_int v;
     if decide (entity_index = NO_INDEX) then Ok (VStr "")
     else VStr <$> getitem (_entity_names s) entity_index).
Proof. done. Qed.

Lemma slot_nat (s : PhysicsState F) (k i : nat) :
  slot s k (Z.of_nat i) = Z.of_nat (_n s * k + i).
Proof. unfold slot. lia. Qed.

Lemma block_lt f : (block f < length _PER_ENTITY_MUTABLE_FIELDS)%nat.
Proof. destruct f; vm_compute; lia. Qed.

Lemma slot_in_range (s : PhysicsState F) (f : Field.t) (i : nat) :
  shaped s → (i < _n s)%nat →
  (_n s * block f + i < length (_array_rep s))%nat.
Proof.
  intros (_ & _ & Ha) Hi. rewrite Ha.
  pose proof (block_lt f). nia.
Qed.

Lemma store_ok (s : PhysicsState F) (f : Field.t) (i : nat) (v : F) :
  shaped s → (i < _n s)%nat →
  store s (block f) (Z.of_nat i) (Ok v)
  = (with_array s (<[(_n s * block f + i)%nat := v]> (_array_rep s)), Ok tt).
Proof.
  intros Hs Hi. unfold store. simpl. rewrite slot_nat.
  by rewrite setitem_nat by by apply slot_in_range.
Qed.

Lemma store_no_entity (s : PhysicsState F) k i (v : F) msg :
  (store s k i (Ok v)).2 ≠ Raise (NoEntityError msg).
Proof.
  unfold store. simpl.
  destruct (setitem _ _ _) eqn:E; simpl; [done|].
  intros [= ->]. by eapply setitem_no_entity.
Qed.

(** C7: writing, through a view, a landed-on name that is not empty and
    that no entity has raises [NoEntityError] and leaves the state, and so
    the whole y-vector, as it was. *)
Theorem landed_on_absent_name_rejected (s : PhysicsState F) (i : Z)
    (w : string) :
  w ≠ "" → w ∉ _entity_names s →
  fset s i Field.landed_on (VStr w)
  = (s, Raise (NoEntityError (w +:+ " not in entity list"))).
Proof.
  intros Hw Hn. rewrite fset_landed_on.
  by rewrite name_to_index_absent.
Qed.

(** C10: writing the empty name to the landed-on field of an entity
    through a view succeeds, stores [NO_INDEX] in the slot of the field, and
    the field then reads as the empty name; a landed-on write raises
    [NoEntityError] only for a name that is not empty and that no entity
    has. *)
Theorem landed_on_cleared (s : PhysicsState F) (i : nat) :
  shaped s → (i < _n s)%nat →
  to_int (of_int NO_INDEX) = Ok NO_INDEX →
  let cell := (_n s * block Field.landed_on + i)%nat in
  let s' := with_array s (<[cell := of_int NO_INDEX]> (_array_rep s)) in
  fset s (Z.of_nat i) Field.landed_on (VStr "") = (s', Ok tt)
  ∧ _array_rep s' !! cell = Some (of_int NO_INDEX)
  ∧ fget s' (Z.of_nat i) Field.landed_on = Ok (VStr "")
  ∧ ∀ w msg,
      (fset s (Z.of_nat i) Field.landed_on (VStr w)).2
      = Raise (NoEntityError msg) →
      w ≠ "" ∧ w ∉ _entity_names s.
Proof.
  intros Hs Hi Hint cell s'.
  assert (Hcell : (cell < length (_array_rep s))%nat)
    by by apply slot_in_range.
  assert (Hread : _array_rep s' !! cell = Some (of_int NO_INDEX))
    by by apply list_lookup_insert_eq.
  split_and!.
  - rewrite fset_landed_on, name_to_index_empty. by apply store_ok.
  - done.
  - rewrite fget_landed_on.
    replace (slot s' (block Field.landed_on) (Z.of_nat i))
      with (Z.of_nat cell) by (unfold slot, cell; simpl; lia).
    rewrite (getitem_nat _ _ _ Hread). simpl. by rewrite Hint.
  - intros w msg. rewrite fset_landed_on.
    destruct (_name_to_index (_entity_names s) w) as [j|e] eqn:Hj.
    + intros Hr. by apply store_no_entity in Hr.
    + apply name_to_index_raises in Hj as (? & ? & ?). done.
Qed.

End NameTable.

(** ** Slices *)

Section Slices.
Context {A : Type}.
Implicit Types (l : list A) (f : A → A).

Lemma length_slice_map f l lo hi :
  length (slice_map f l lo hi) = length l.
Proof.
  unfold slice_map, slice.
  repeat rewrite ?length_app, ?length_fmap, ?length_take, ?length_drop. lia.
Qed.

Lemma lookup_slice l lo hi (j : nat) :
  (j < hi - lo)%nat → slice l lo hi !! j = l !! (lo + j)%nat.
Proof.
  intros Hj. unfold slice. rewrite lookup_take_lt by done.
  by rewrite lookup_drop.
Qed.

Lemma length_slice l lo hi :
  (hi ≤ length l)%nat → length (slice l lo hi) = (hi - lo)%nat.
Proof. intros Hhi. unfold slice. rewrite length_take, length_drop. lia. Qed.

Lemma lookup_slice_map_in f l lo hi (j : nat) :
  (lo ≤ j < hi)%nat → (hi ≤ length l)%nat →
  slice_map f l lo hi !! j = f <$> l !! j.
Proof.
  intros Hj Hhi. unfold slice_map.
  rewrite lookup_app_r by (rewrite length_take; lia).
  rewrite length_take, Nat.min_l by lia.
  rewrite lookup_app_l by (rewrite length_fmap, length_slice; lia).
  rewrite list_lookup_fmap, lookup_slice by lia.
  f_equal. f_equal. lia.
Qed.

Lemma lookup_slice_map_out f l lo hi (j : nat) :
  (j < lo ∨ hi ≤ j)%nat → (lo ≤ hi ≤ length l)%nat →
  slice_map f l lo hi !! j = l !! j.
Proof.
  intros Hj Hhi. unfold slice_map.
  destruct Hj as [Hj|Hj].
  - rewrite lookup_app_l by (rewrite length_take; lia).
    by rewrite lookup_take_lt.
  - rewrite lookup_app_r by (rewrite length_take; lia).
    rewrite length_take, Nat.min_l by lia.
    rewrite lookup_app_r by (rewrite length_fmap, length_slice; lia).
    rewrite length_fmap, length_slice by lia.
    rewrite lookup_drop. f_equal. lia.
Qed.

End Slices.

(** ** [__init__]: the checks on the y-vector *)

Section Checks.
Context {F : Type} `{Float64 F}.

Lemma mutable_count : length _PER_ENTITY_MUTABLE_FIELDS = 10%nat.
Proof. done. Qed.

Lemma check_size_ok (size n : nat) :
  check_size size n = Ok tt ↔ size = (n * 10 + 2)%nat.
Proof.
  unfold check_size, assert, N_SINGULAR_ELEMENTS. rewrite mutable_count.
  change (Z.of_nat 10) with 10. change (Z.of_nat 2) with 2.
  split.
  - repeat case_bool_decide; simpl; try done.
    intros _. Z.div_mod_to_equations; lia.
  - intros ->.
    rewrite !bool_decide_eq_true_2; [done| |]; Z.div_mod_to_equations; lia.
Qed.

Lemma check_size_raises (size n : nat) :
  size ≠ (n * 10 + 2)%nat → check_size size n = Raise AssertionError.
Proof.
  intros Hne. destruct (check_size size n) as [[]|e] eqn:Hc.
  - by apply check_size_ok in Hc.
  - revert Hc. unfold check_size, assert.
    repeat case_bool_decide; simpl; congruence.
Qed.

Lemma normalize_heading_eq (n : nat) (a : list F) :
  normalize_heading n a
  = Ok (slice_map (λ v, np_mod v two_pi) a
          (block Field.heading * n) ((block Field.heading + 1) * n)).
Proof. done. Qed.

(** What [__init__] returns, in terms of what [ingest] does. *)
Lemma init_ok (y : option (list F)) (P : protos.PhysicalState F)
    (s : PhysicsState F) :
  __init__ y P = Ok s ↔
  ∃ a p, ingest y P = Ok (a, p)
    ∧ length a = (length (protos.entities P) * 10 + 2)%nat
    ∧ s = {| _proto_state := p; _n := length (protos.entities P);
             _entity_names := protos.name <$> protos.entities P;
             _array_rep :=
               slice_map (λ v, np_mod v two_pi) a
                 (block Field.heading * length (protos.entities P))
                 ((block Field.heading + 1) * length (protos.entities P));
             _entities_with_atmospheres := atmospheres (protos.entities p) |}.
Proof.
  unfold __init__. destruct (ingest y P) as [[a p]|e]; run.
  - destruct (check_size (length a) _) as [[]|e] eqn:Hc; run.
    + apply check_size_ok in Hc. rewrite normalize_heading_eq. run.
      split.
      * intros [= <-]. by exists a, p.
      * intros (a' & p' & [= <- <-] & _ & ->). done.
    + split; [done|]. intros (a' & p' & [= <- <-] & Hl & _).
      apply check_size_ok in Hl. congruence.
  - split; [done|]. by intros (a' & p' & ? & _).
Qed.

Lemma ingest_some (y : list F) (P : protos.PhysicalState F) a p :
  ingest (Some y) P = Ok (a, p) →
  a = y ∧ protos.entities p = protos.entities P.
Proof.
  unfold ingest.
  destruct (getitem y SRB_TIME_INDEX); run; [|done].
  destruct (getitem y TIME_ACC_INDEX); run; [|done].
  by intros [= <- <-].
Qed.

Lemma init_some_raises (y : list F) (P : protos.PhysicalState F) :
  length y ≠ (length (protos.entities P) * 10 + 2)%nat →
  ∃ e, __init__ (Some y) P = Raise e.
Proof.
  intros Hne. destruct (__init__ (Some y) P) as [s|e] eqn:Hs; [|by exists e].
  apply init_ok in Hs as (a & p & Hi & Hl & _).
  apply ingest_some in Hi as [-> _]. done.
Qed.

End Checks.

(** ** Loops *)

Lemma map_result_ok {A B} (g : A → result B) (l : list A) (l' : list B) :
  map_result g l = Ok l' ↔ Forall2 (λ a b, g a = Ok b) l l'.
Proof.
  revert l'. induction l as [|a l IH]; intros l'; simpl.
  - split; [intros [= <-]; constructor|by intros ->%Forall2_nil_inv_l].
  - destruct (g a) as [b|e] eqn:Hg; run.
    + destruct (map_result g l) as [bs|e] eqn:Hm; run.
      * split.
        -- intros [= <-]. constructor; [done|]. by apply IH.
        -- intros (b' & bs' & Hb & Hbs & ->)%Forall2_cons_inv_l.
           apply IH in Hbs. congruence.
      * split; [done|].
        intros (b' & bs' & Hb & Hbs & ->)%Forall2_cons_inv_l.
        by apply IH in Hbs.
    + split; [done|].
      intros (b' & bs' & Hb & Hbs & ->)%Forall2_cons_inv_l. congruence.
Qed.

Lemma map_result_lookup {A B} (g : A → result B) (l : list A) (l' : list B)
    (i : nat) (a : A) :
  map_result g l = Ok l' → l !! i = Some a →
  ∃ b, g a = Ok b ∧ l' !! i = Some b.
Proof.
  intros Hm%map_result_ok Ha.
  destruct (Forall2_lookup_l _ _ _ _ _ Hm Ha) as (b & ? & ?). eauto.
Qed.

Lemma map_result_length {A B} (g : A → result B) (l : list A) (l' : list B) :
  map_result g l = Ok l' → length l' = length l.
Proof. intros Hm%map_result_ok. symmetry. by eapply Forall2_length. Qed.

Lemma map_result_total {A B} (g : A → result B) (h : A → B) (l : list A) :
  (∀ a, a ∈ l → g a = Ok (h a)) → map_result g l = Ok (h <$> l).
Proof.
  intros Hg. apply map_result_ok. apply Forall2_fmap_r, Forall_Forall2_diag.
  by apply Forall_forall.
Qed.

(** ** [__init__]: filling a new y-vector *)

Section Filling.
Context {F : Type} `{Float64 F}.
Implicit Types (es : list (protos.Entity F)) (y : list F).

Lemma fill_cell_ok (names : list string) (n : nat) (f : Field.t) (k i : nat)
    (e : protos.Entity F) y (v : F) :
  cell_value names f e = Ok v → (n * k + i < length y)%nat →
  fill_cell names n f k i e y = Ok (<[(n * k + i)%nat := v]> y).
Proof.
  intros Hv Hi. unfold fill_cell. rewrite Hv. run.
  replace (Z.of_nat n * Z.of_nat k + Z.of_nat i)
    with (Z.of_nat (n * k + i)) by lia.
  by apply setitem_nat.
Qed.

(** One column: the inner loop over the entities. *)
Lemma fill_column (names : list string) (n : nat) (f : Field.t) (k : nat) es :
  ∀ (a : nat) y (col : list F),
    map_result (cell_value names f) es = Ok col →
    (n * k + a + length es ≤ length y)%nat →
    for_each (λ '(i, e), fill_cell names n f k i e)
      (zip (seq a (length es)) es) y
    = Ok (list_inserts (n * k + a) col y).
Proof.
  induction es as [|e es IH]; intros a y col Hcol Hlen.
  - by injection Hcol as <-.
  - revert Hcol. cbn [map_result].
    destruct (cell_value names f e) as [v|] eqn:Hv; run; [|done].
    destruct (map_result _ es) as [vs|] eqn:Hvs; run; [|done].
    intros [= <-]. cbn [length seq zip zip_with for_each] in *.
    rewrite (fill_cell_ok _ _ _ _ _ _ _ v) by (done || lia). run.
    rewrite (IH (S a) _ vs) by (rewrite ?length_insert; done || lia).
    rewrite Nat.add_succ_r. cbn [list_inserts].
    by rewrite list_insert_inserts_lt by lia.
Qed.

(** All columns: the outer loop over the fields. *)
Lemma fill_columns (names : list string) es (fo : list (Field.t * nat)) :
  let n := length es in
  NoDup fo.*2 →
  ∀ y,
    (∀ f k, (f, k) ∈ fo → (n * k + n ≤ length y)%nat) →
    (∀ f k, (f, k) ∈ fo →
       ∃ col, map_result (cell_value names f) es = Ok col) →
    ∃ y',
      for_each
        (λ '(f, k),
           for_each (λ '(i, e), fill_cell names n f k i e) (enumerate es))
        fo y = Ok y'
      ∧ length y' = length y
      ∧ (∀ f k i e, (f, k) ∈ fo → es !! i = Some e →
           ∃ v, cell_value names f e = Ok v
                ∧ y' !! (n * k + i)%nat = Some v)
      ∧ (∀ j : nat,
           (∀ f k, (f, k) ∈ fo → ¬ (n * k ≤ j < n * k + n)%nat) →
           y' !! j = y !! j).
Proof.
  intros n. induction fo as [|[f k] fo IH]; intros Hnd y Hfit Hcols.
  - exists y. split_and!; [done..| |done].
    intros f k i e Hin. by apply elem_of_nil in Hin.
  - apply NoDup_cons in Hnd as [Hk Hnd].
    destruct (Hcols f k) as [col Hcol]; [left|].
    pose proof (map_result_length _ _ _ Hcol) as Hcl.
    assert (Hrun :
      for_each (λ '(i, e), fill_cell names n f k i e) (enumerate es) y
      = Ok (list_inserts (n * k) col y)).
    { unfold enumerate. rewrite (fill_column names n f k es 0 y col Hcol).
      - by rewrite Nat.add_0_r.
      - pose proof (Hfit f k ltac:(left)). fold n. lia. }
    destruct (IH Hnd (list_inserts (n * k) col y))
      as (y' & Hy' & Hlen & Hin & Hout).
    { intros f' k' Hfk. rewrite length_inserts. apply (Hfit f' k'). by right. }
    { intros f' k' Hfk. apply (Hcols f' k'). by right. }
    exists y'. cbn [for_each]. rewrite Hrun. run. split_and!.
    + done.
    + by rewrite Hlen, length_inserts.
    + intros f' k' i e [[= -> ->]|Hfk]%elem_of_cons He; [|by eapply Hin].
      destruct (map_result_lookup _ _ _ _ _ Hcol He) as (v & Hv & Hci).
      exists v. split; [done|].
      assert (Hi : (i < n)%nat) by by eapply lookup_lt_Some.
      rewrite Hout.
      * rewrite list_lookup_inserts.
        -- by replace (n * k + i - n * k)%nat with i by lia.
        -- lia.
        -- pose proof (Hfit f k ltac:(left)). lia.
      * intros f' k' Hfk [Hlo Hhi].
        assert (k' ≠ k).
        { intros ->. apply Hk. apply list_elem_of_fmap. by exists (f', k). }
        destruct (decide (k' < k)%nat); nia.
    + intros j Hj. rewrite Hout.
      * destruct (decide (j < n * k)%nat) as [Hlt|Hge].
        -- by apply list_lookup_inserts_lt.
        -- apply list_lookup_inserts_ge.
           pose proof (Hj f k ltac:(left)). lia.
      * intros f' k' Hfk. apply (Hj f' k'). by right.
Qed.

End Filling.

(** ** [__init__]: the array built from a snapshot *)

Section FromSnapshot.
Context {F : Type} `{Float64 F}.

Lemma ordering_block (f : Field.t) (k : nat) :
  (f, k) ∈ _FIELD_ORDERING ↔ mutable f ∧ k = block f.
Proof.
  unfold mutable. split.
  - intros Hin. repeat (apply elem_of_cons in Hin as [[= -> ->]|Hin];
      [split; [by vm_compute; repeat constructor|done]|]).
    by apply elem_of_nil in Hin.
  - intros [Hm ->].
    repeat (apply elem_of_cons in Hm as [->|Hm];
      [by vm_compute; repeat constructor|]).
    by apply elem_of_nil in Hm.
Qed.

Lemma ordering_nodup : NoDup _FIELD_ORDERING.*2.
Proof. apply (bool_decide_unpack _). by vm_compute. Qed.

Lemma mutable_block_lt (f : Field.t) :
  (block f < 10)%nat.
Proof. destruct f; vm_compute; lia. Qed.

Lemma cell_value_landed_on (names : list string) (e : protos.Entity F) :
  cell_value names Field.landed_on e
  = of_int <$> _name_to_index names (protos.landed_on e).
Proof.
  unfold cell_value. simpl.
  by destruct (_name_to_index names (protos.landed_on e)).
Qed.

Lemma cell_value_plain (names : list string) (f : Field.t)
    (e : protos.Entity F) :
  f ≠ Field.landed_on → cell_value names f e = as_float64 (getattr e f).
Proof.
  intros Hf. unfold cell_value, _LANDED_ON. by rewrite decide_False.
Qed.

Lemma cell_value_known (names : list string) (f : Field.t)
    (e : protos.Entity F) :
  mutable f →
  protos.landed_on e = "" ∨ protos.landed_on e ∈ names →
  ∃ v, cell_value names f e = Ok v.
Proof.
  intros Hm Hl. destruct (decide (f = Field.landed_on)) as [->|Hf].
  - rewrite cell_value_landed_on. destruct Hl as [->|Hl].
    + rewrite name_to_index_empty. by eexists.
    + destruct (decide (protos.landed_on e = "")) as [->|Hne].
      * rewrite name_to_index_empty. by eexists.
      * destruct (name_to_index_present _ _ Hne Hl) as (i & -> & _).
        by eexists.
  - rewrite cell_value_plain by done. unfold mutable in Hm.
    repeat (apply elem_of_cons in Hm as [->|Hm]; [done || by eexists|]).
    by apply elem_of_nil in Hm.
Qed.

(** The array that [ingest] builds from a snapshot alone. *)
Lemma ingest_none (P : protos.PhysicalState F) :
  let es := protos.entities P in
  let n := length es in
  let names := protos.name <$> es in
  landings_known P →
  ∃ a, ingest None P = Ok (a, P)
    ∧ length a = (n * 10 + 2)%nat
    ∧ (∀ f i e, mutable f → es !! i = Some e →
         ∃ v, cell_value names f e = Ok v
              ∧ a !! (n * block f + i)%nat = Some v)
    ∧ a !! (n * 10)%nat = Some (protos.srb_time P)
    ∧ a !! (n * 10 + 1)%nat = Some (protos.time_acc P).
Proof.
  intros es n names Hk. unfold ingest.
  rewrite mutable_count. unfold N_SINGULAR_ELEMENTS, fill_array.
  destruct (fill_columns names es _FIELD_ORDERING ordering_nodup
              (replicate (n * 10 + 2) np_empty_cell))
    as (y & Hy & Hlen & Hin & _).
  { intros f k [_ ->]%ordering_block. rewrite length_replicate. fold n.
    pose proof (mutable_block_lt f). nia. }
  { intros f k [Hm ->]%ordering_block.
    cut (∀ l, l ⊆ es → ∃ col, map_result (cell_value names f) l = Ok col).
    { intros Hcut. by apply Hcut. }
    induction l as [|e l IH]; intros Hl; [by eexists|].
    destruct (cell_value_known names f e Hm) as [v Hv].
    { destruct (Hk e) as [?|?]; [apply Hl; left|by left|by right]. }
    destruct IH as [col Hcol]. { intros e' He'. apply Hl. by right. }
    exists (v :: col). cbn [map_result]. rewrite Hv. run. by rewrite Hcol. }
  rewrite length_replicate in Hlen. fold n in Hin.
  change (for_each _ _FIELD_ORDERING _) with
    (for_each
       (λ '(f, k),
          for_each (λ '(i, e), fill_cell names (length es) f k i e)
            (enumerate es))
       _FIELD_ORDERING (replicate (n * 10 + 2) np_empty_cell)).
  rewrite Hy. run.
  rewrite setitem_from_end by lia. run.
  rewrite setitem_from_end by (rewrite length_insert; lia).
  rewrite length_insert, Hlen.
  replace (Z.to_nat (Z.of_nat (n * 10 + 2) + -2)) with (n * 10)%nat by lia.
  replace (Z.to_nat (Z.of_nat (n * 10 + 2) + -1)) with (n * 10 + 1)%nat by lia.
  eexists. split; [done|]. split_and!.
  - by rewrite !length_insert.
  - intros f i e Hm He.
    destruct (Hin f (block f) i e) as (v & Hv & Hy'); [|done|].
    { by apply ordering_block. }
    exists v. split; [done|].
    assert (i < n)%nat by by eapply lookup_lt_Some.
    pose proof (mutable_block_lt f).
    rewrite !list_lookup_insert_ne by nia. done.
  - rewrite list_lookup_insert_ne by lia.
    apply list_lookup_insert_eq. lia.
  - apply list_lookup_insert_eq. rewrite length_insert. lia.
Qed.

End FromSnapshot.

(** ** The accessors of a view *)

Section Access.
Context {F : Type} `{Float64 F}.

Lemma mutable_not_unchanging (f : Field.t) :
  mutable f ↔ f ∉ _PER_ENTITY_UNCHANGING_FIELDS.
Proof.
  unfold mutable, _PER_ENTITY_MUTABLE_FIELDS. rewrite list_elem_of_filter.
  split; [by intros [? _]|]. intros Hf. split; [done|].
  destruct f; vm_compute; repeat constructor.
Qed.

Lemma fget_numeric (s : PhysicsState F) (i : Z) (f : Field.t) :
  mutable f → numeric f →
  fget s i f = VFloat <$> getitem (_array_rep s) (slot s (block f) i).
Proof.
  intros Hm Hn. apply mutable_not_unchanging in Hm.
  destruct f; try done; exfalso; apply Hm; vm_compute; repeat constructor.
Qed.

Lemma fset_numeric (s : PhysicsState F) (i : Z) (f : Field.t) (val : value F) :
  mutable f → numeric f →
  fset s i f val = store s (block f) i (as_float64 val).
Proof.
  intros Hm Hn. apply mutable_not_unchanging in Hm.
  destruct f; try done; exfalso; apply Hm; vm_compute; repeat constructor.
Qed.

Lemma fget_unchanging (s : PhysicsState F) (i : Z) (f : Field.t) :
  f ∈ _PER_ENTITY_UNCHANGING_FIELDS →
  fget s i f = entity_view_unchanging_fget s i f.
Proof. intros Hf. unfold fget. by rewrite bool_decide_eq_true_2. Qed.

Lemma fset_unchanging (s : PhysicsState F) (i : Z) (f : Field.t)
    (val : value F) :
  f ∈ _PER_ENTITY_UNCHANGING_FIELDS →
  fset s i f val = entity_view_unchanging_fset s i val f.
Proof. intros Hf. unfold fset. by rewrite bool_decide_eq_true_2. Qed.

Lemma cell_lookup (s : PhysicsState F) (f : Field.t) (i : nat) :
  shaped s → (i < _n s)%nat →
  ∃ v, _array_rep s !! (block f * _n s + i)%nat = Some v.
Proof.
  intros Hs Hi. apply lookup_lt_is_Some_2.
  rewrite Nat.mul_comm. by apply slot_in_range.
Qed.

Lemma setattr_kind (e : protos.Entity F) (f : Field.t) (val : value F) :
  kind_ok f val →
  ∃ e', setattr e f val = Ok e'
    ∧ getattr e' f = val
    ∧ ∀ g, g ≠ f → getattr e' g = getattr e g.
Proof.
  intros Hk. destruct e, f, val; try done;
    (eexists; split_and!; [reflexivity|reflexivity|]);
    intros g Hg; by destruct g.
Qed.



End Access.

Lemma for_each_inv {A S} (body : A → S → result S) (l : list A) (s s' : S)
    (a : A) :
  for_each body l s = Ok s' → a ∈ l → ∃ s1 s2, body a s1 = Ok s2.
Proof.
  revert s. induction l as [|b l IH]; intros s Hrun Hin.
  - by apply elem_of_nil in Hin.
  - cbn [for_each] in Hrun. destruct (body b s) as [s1|] eqn:Hb; [|done].
    apply elem_of_cons in Hin as [->|Hin]; [by eauto|].
    by apply (IH s1).
Qed.

(** ** What [__init__] returns *)

Section Built.
Context {F : Type} `{Float64 F}.
Implicit Types (P : protos.PhysicalState F) (s : PhysicsState F).

Lemma enumerate_lookup {A} (l : list A) (i : nat) (a : A) :
  l !! i = Some a → (i, a) ∈ enumerate l.
Proof.
  intros Hl. unfold enumerate. apply list_elem_of_lookup. exists i.
  apply lookup_zip_with_Some. exists i, a. split_and!; [done| |done].
  apply lookup_seq. split; [done|]. by eapply lookup_lt_Some.
Qed.

Lemma ingest_none_known P a p :
  ingest None P = Ok (a, p) → landings_known P.
Proof.
  unfold ingest, fill_array.
  destruct (for_each _ _FIELD_ORDERING _) as [y|] eqn:Hy; [|done].
  intros _ e He.
  destruct (for_each_inv _ _ _ _ (Field.landed_on, 8%nat) Hy)
    as (y1 & y2 & Hcol); [by vm_compute; repeat constructor|].
  apply list_elem_of_lookup in He as [i Hi].
  destruct (for_each_inv _ _ _ _ (i, e) Hcol) as (y3 & y4 & Hcell);
    [by apply enumerate_lookup|].
  unfold fill_cell in Hcell. rewrite cell_value_landed_on in Hcell.
  destruct (_name_to_index _ (protos.landed_on e)) as [j|err] eqn:Hj; [|done].
  destruct (decide (protos.landed_on e = "")) as [?|Hne]; [by left|right].
  destruct (decide (protos.landed_on e ∈ protos.name <$> protos.entities P))
    as [?|Hn]; [done|].
  by rewrite name_to_index_absent in Hj.
Qed.

Lemma init_built (y : option (list F)) P s :
  __init__ y P = Ok s →
  let n := length (protos.entities P) in
  let lo := (block Field.heading * n)%nat in
  let hi := ((block Field.heading + 1) * n)%nat in
  _n s = n
  ∧ _entity_names s = protos.name <$> protos.entities P
  ∧ protos.entities (_proto_state s) = protos.entities P
  ∧ shaped s
  ∧ ∃ a, ingest y P = Ok (a, _proto_state s)
      ∧ length a = (n * 10 + 2)%nat
      ∧ _array_rep s = slice_map (λ v, np_mod v two_pi) a lo hi
      ∧ slice a lo hi = ingested_headings y P.
Proof.
  intros (a & p & Hi & Hl & ->)%init_ok n lo hi. fields.
  assert (Hes : protos.entities p = protos.entities P).
  { destruct y as [y|].
    - by apply ingest_some in Hi as [_ ?].
    - pose proof (ingest_none_known _ _ _ Hi) as Hk.
      destruct (ingest_none P Hk) as (a' & Hi' & _). congruence. }
  split_and!; [done..| |].
  - unfold shaped. fields. rewrite Hes, length_fmap, length_slice_map.
    by rewrite mutable_count.
  - exists a. split_and!; [done..|].
    destruct y as [y|]; [by apply ingest_some in Hi as [-> _]|].
    pose proof (ingest_none_known _ _ _ Hi) as Hk.
    destruct (ingest_none P Hk) as (a' & Hi' & _ & Hcells & _).
    assert (a' = a) as -> by congruence.
    unfold ingested_headings. apply list_eq. intros i.
    rewrite list_lookup_fmap.
    destruct (protos.entities P !! i) as [e|] eqn:He; cbn [fmap option_fmap option_map].
    + assert (i < n)%nat by by eapply lookup_lt_Some.
      rewrite lookup_slice by (unfold lo, hi; lia).
      destruct (Hcells Field.heading i e) as (v & Hv & Ha); [|done|].
      { by vm_compute; repeat constructor. }
      injection Hv as <-. fold n in Ha. rewrite <- Ha. f_equal.
      unfold lo. lia.
    + apply lookup_ge_None. apply lookup_ge_None in He.
      rewrite length_slice by (unfold hi; fold n; vm_compute block; lia).
      unfold lo, hi. fold n in He. lia.
Qed.

End Built.

(** ** The length of the array and the headings *)

Section Shape.
Context {F : Type} `{Float64 F}.
Implicit Types (P : protos.PhysicalState F) (s : PhysicsState F).

(** C4: a y-vector whose length is not [n * k + 2] makes [__init__] raise,
    and the array of a state that [__init__] returns has a length [l] with
    [(l - 2) mod k = 0] and [(l - 2) / k = n], where [n] is the number of
    entities of the snapshot and [k] the number of mutable fields. *)
Theorem buffer_length_enforced P :
  let n := length (protos.entities P) in
  let k := length _PER_ENTITY_MUTABLE_FIELDS in
  (∀ y : list F, length y ≠ (n * k + 2)%nat →
     ∃ e, __init__ (Some y) P = Raise e)
  ∧ (∀ (y : option (list F)) s, __init__ y P = Ok s →
       let l := Z.of_nat (length (_array_rep s)) in
       _n s = n
       ∧ (l - 2) `mod` Z.of_nat k = 0
       ∧ (l - 2) `div` Z.of_nat k = Z.of_nat n).
Proof.
  intros n k. unfold k. rewrite mutable_count. split.
  - intros y Hy. by apply init_some_raises.
  - intros y s Hs. cbn zeta.
    pose proof (init_built _ _ _ Hs) as (Hn & _ & _ & (_ & _ & Hl) & _).
    rewrite Hl, Hn, mutable_count. fold n.
    unfold N_SINGULAR_ELEMENTS. change (Z.of_nat 10) with 10.
    split; [done|]. split; Z.div_mod_to_equations; lia.
Qed.

(** C9: after [__init__], with or without a y-vector, the heading of every
    entity is [np.mod(_, 2π)] of the heading that was ingested. That number
    is not always below 2π: in binary64, [np.mod] of a negative heading that
    is too small to change 2π when added to it is 2π itself. *)
Theorem heading_normalized (y : option (list F)) P s (i : nat) :
  __init__ y P = Ok s → (i < _n s)%nat →
  ∃ h, ingested_headings y P !! i = Some h
    ∧ _array_rep s !! (block Field.heading * _n s + i)%nat
      = Some (np_mod h two_pi)
    ∧ fget s (Z.of_nat i) Field.heading = Ok (VFloat (np_mod h two_pi)).
Proof.
  intros Hs Hi.
  pose proof (init_built _ _ _ Hs) as (Hn & _ & _ & Hsh & a & _ & Hl & Ha & Hh).
  cbn zeta in *. rewrite <- Hn in *.
  assert (Hcell : _array_rep s !! (block Field.heading * _n s + i)%nat
                  = (λ v, np_mod v two_pi) <$> a !! (block Field.heading * _n s + i)%nat).
  { rewrite Ha. apply lookup_slice_map_in; [lia|].
    rewrite Hl. vm_compute block. lia. }
  destruct (lookup_lt_is_Some_2 a (block Field.heading * _n s + i)) as [h Hah].
  { rewrite Hl. vm_compute block. lia. }
  exists h. rewrite Hah in Hcell. cbn in Hcell.
  assert (Hin : ingested_headings y P !! i = Some h).
  { rewrite <- Hh, lookup_slice by lia. done. }
  split_and!; [done..|].
  rewrite fget_numeric, slot_nat by (done || by vm_compute; repeat constructor).
  rewrite Nat.mul_comm in Hcell. by rewrite (getitem_nat _ _ _ Hcell).
Qed.

End Shape.

(** ** Reading back what the slots hold *)

Section ReadBack.
Context {F : Type} `{Float64 F}.
Implicit Types (P : protos.PhysicalState F) (s : PhysicsState F)
  (e : protos.Entity F).

Lemma name_to_index_range (names : list string) (w : string) (j : Z) :
  _name_to_index names w = Ok j →
  -1 ≤ j < Z.of_nat (length names)
  ∧ (if decide (j = NO_INDEX) then Ok "" else getitem names j) = Ok w.
Proof.
  unfold _name_to_index. case_decide as Hw.
  - destruct (list_index w names) as [i|] eqn:Hi; [|done].
    intros [= <-]. apply list_index_Some in Hi.
    pose proof (lookup_lt_Some _ _ _ Hi). split; [lia|].
    rewrite decide_False by (unfold NO_INDEX; lia).
    by apply getitem_nat.
  - intros [= <-]. split; [unfold NO_INDEX; lia|].
    rewrite decide_True by done. f_equal.
    destruct (decide (w = "")); [done|]. by destruct Hw.
Qed.

Lemma fget_broken s (i : Z) :
  fget s i Field.broken
  = (v ← getitem (_array_rep s) (slot s (block Field.broken) i);
     Ok (VBool (to_bool v))).
Proof. done. Qed.

(** Reading the mutable fields of a slot that holds [e] gives those of
    [e]. *)
Lemma read_back s (i : nat) e (f : Field.t) :
  holds s i e → length (_entity_names s) = _n s →
  index_exact (_n s) → bool_exact →
  mutable f → fget s (Z.of_nat i) f = Ok (getattr e f).
Proof.
  intros Hh Hnames Hint Hbool Hm.
  destruct (Hh f Hm) as (v & Hv & Hcell).
  destruct (decide (f = Field.landed_on)) as [->|Hl];
    [|destruct (decide (f = Field.broken)) as [->|Hb]].
  - rewrite fget_landed_on, slot_nat, (getitem_nat _ _ _ Hcell). run.
    rewrite cell_value_landed_on in Hv.
    destruct (_name_to_index _ (protos.landed_on e)) as [j|] eqn:Hj; [|done].
    injection Hv as <-.
    apply name_to_index_range in Hj as [Hr Hj]. rewrite Hnames in Hr.
    rewrite (Hint j Hr). run.
    change (getattr e Field.landed_on) with (VStr (F := F) (protos.landed_on e)).
    destruct (decide (j = NO_INDEX)); run.
    + by injection Hj as <-.
    + by rewrite Hj.
  - rewrite fget_broken, slot_nat, (getitem_nat _ _ _ Hcell). run.
    rewrite cell_value_plain in Hv by done. injection Hv as <-.
    by rewrite Hbool.
  - rewrite cell_value_plain in Hv by done.
    assert (Hn : numeric f).
    { unfold mutable in Hm.
      repeat (apply elem_of_cons in Hm as [->|Hm]; [done|]).
      by apply elem_of_nil in Hm. }
    rewrite fget_numeric, slot_nat, (getitem_nat _ _ _ Hcell) by done.
    run. destruct f; try done; by injection Hv as <-.
Qed.

Lemma assigned_mutable (f : Field.t) : f ∈ assigned_fields → mutable f.
Proof. done. Qed.

Lemma read_back_all s (i : nat) e :
  holds s i e → length (_entity_names s) = _n s →
  index_exact (_n s) → bool_exact →
  map_result (fget s (Z.of_nat i)) assigned_fields
  = Ok (getattr e <$> assigned_fields).
Proof.
  intros. apply map_result_ok, Forall2_fmap_r, Forall_Forall2_diag.
  apply Forall_forall. intros f Hf. by apply read_back.
Qed.

Lemma setattr_all_merged e e2 :
  setattr_all e (zip assigned_fields (getattr e2 <$> assigned_fields))
  = Ok (merged e e2).
Proof. by destruct e, e2. Qed.

Lemma merged_reduced_of e : merged e (reduced e) = reduced e.
Proof. by destruct e. Qed.

End ReadBack.

Lemma map_result_indexed {B C} (g : Z * B → result C) (h : B → C)
    (l : list B) :
  (∀ (i : nat) b, l !! i = Some b → g (Z.of_nat i, b) = Ok (h b)) →
  map_result g (zip (Z.of_nat <$> seq 0 (length l)) l) = Ok (h <$> l).
Proof.
  cut (∀ a : nat,
         (∀ (i : nat) b, l !! i = Some b → g (Z.of_nat (a + i), b) = Ok (h b)) →
         map_result g (zip (Z.of_nat <$> seq a (length l)) l) = Ok (h <$> l)).
  { intros Hcut Hg. by apply (Hcut 0%nat). }
  induction l as [|b l IH]; intros a Hg; [done|].
  cbn [length seq fmap list_fmap zip zip_with map_result].
  specialize (Hg 0%nat b eq_refl) as Hb. rewrite Nat.add_0_r in Hb.
  rewrite Hb. run. rewrite (IH (S a)); [done|].
  intros i b' Hi. replace (S a + i)%nat with (a + S i)%nat by lia.
  by apply Hg.
Qed.

(** ** From a snapshot to a state and back *)

Section RoundTrip.
Context {F : Type} `{Float64 F}.
Implicit Types (P : protos.PhysicalState F) (s : PhysicsState F)
  (e : protos.Entity F).

Lemma cell_value_reduced (names : list string) (f : Field.t) e :
  f ≠ Field.heading →
  cell_value names f (reduced e) = cell_value names f e.
Proof. intros Hf. by destruct e, f. Qed.

(** The state that [__init__] builds from a snapshot alone holds, for each
    entity, the entity with its heading reduced. *)
Lemma init_none_holds P :
  landings_known P →
  ∃ s, __init__ None P = Ok s
    ∧ _proto_state s = P
    ∧ shaped s
    ∧ ∀ (i : nat) e, protos.entities P !! i = Some e → holds s i (reduced e).
Proof.
  intros Hk. destruct (ingest_none P Hk) as (a & Hi & Hl & Hcells & _ & _).
  eexists. split; [apply init_ok; by exists a, P|].
  split; [done|]. split.
  { unfold shaped. fields.
    by rewrite length_fmap, length_slice_map, mutable_count. }
  intros i e He f Hm. fields.
  assert (i < length (protos.entities P))%nat by by eapply lookup_lt_Some.
  destruct (Hcells f i e Hm He) as (v & Hv & Ha).
  pose proof (mutable_block_lt f).
  destruct (decide (f = Field.heading)) as [->|Hf].
  - exists (np_mod (protos.heading e) two_pi). split; [by destruct e|].
    rewrite lookup_slice_map_in, Ha; [|vm_compute block; lia..].
    injection Hv as <-. done.
  - exists v. rewrite cell_value_reduced by done. split; [done|].
    rewrite lookup_slice_map_out; [done| |vm_compute block; lia].
    assert (block f ≠ block Field.heading).
    { unfold mutable in Hm.
      repeat (apply elem_of_cons in Hm as [->|Hm]; [done|]).
      by apply elem_of_nil in Hm. }
    destruct (decide (block f < block Field.heading)%nat); [left|right]; nia.
Qed.

(** C1: a state built from a snapshot alone and turned back into a snapshot
    gives the snapshot again, except that the heading of each entity is
    reduced by [np.mod(_, 2π)]: the scalar fields of the snapshot, the
    unchanging fields, the other mutable numeric fields, [broken] and the
    landed-on names are those of the snapshot. The reduced heading is not
    always below 2π: see [heading_normalized]. *)
Theorem snapshot_round_trip P :
  landings_known P →
  index_exact (length (protos.entities P)) →
  bool_exact →
  ∃ s, __init__ None P = Ok s
    ∧ as_proto s = Ok (with_entities P (reduced <$> protos.entities P)).
Proof.
  intros Hk Hint Hbool.
  destruct (init_none_holds P Hk) as (s & Hs & Hp & Hsh & Hholds).
  exists s. split; [done|].
  pose proof (init_built _ _ _ Hs) as (Hn & Hnames & _).
  destruct Hsh as (_ & Hln & _).
  unfold as_proto, __iter__. rewrite Hp, Hn.
  rewrite (map_result_indexed _ reduced); [done|].
  intros i e He. rewrite <- Hn in Hint.
  rewrite (read_back_all s i (reduced e)) by auto. run.
  by rewrite setattr_all_merged, merged_reduced_of.
Qed.

End RoundTrip.

(** ** From the y-vector of a state *)

Section Rebuild.
Context {F : Type} `{Float64 F}.
Implicit Types (P : protos.PhysicalState F) (s : PhysicsState F).

(** C3: a state built by [__init__], from a snapshot alone or from a
    y-vector, can be built again from its own y-vector [y0] and the same
    snapshot, and every field of every entity but the heading reads the
    same through the views of the two states. The heading is reduced a
    second time: it reads the same where [np.mod(_, 2π)] leaves the
    heading of the first state as it is, which in binary64 it does not do
    to a heading of 2π. *)
Theorem rebuilt_from_y0 (y : option (list F)) P s :
  __init__ y P = Ok s →
  ∃ s2, __init__ (Some (y0 s)) P = Ok s2
    ∧ _n s2 = _n s
    ∧ (∀ (i : nat) (f : Field.t), (i < _n s)%nat → f ≠ Field.heading →
         fget s2 (Z.of_nat i) f = fget s (Z.of_nat i) f)
    ∧ (∀ i : nat, (i < _n s)%nat →
         ∃ v, fget s (Z.of_nat i) Field.heading = Ok (VFloat v)
           ∧ fget s2 (Z.of_nat i) Field.heading
             = Ok (VFloat (np_mod v two_pi))).
Proof.
  intros Hs.
  pose proof (init_built _ _ _ Hs)
    as (Hn & Hnames & Hes & Hsh & a & _ & Hl & Ha & Hh).
  cbn zeta in *.
  set (n := length (protos.entities P)) in *.
  set (lo := (block Field.heading * n)%nat) in *.
  set (hi := ((block Field.heading + 1) * n)%nat) in *.
  assert (Hlen : length (y0 s) = (n * 10 + 2)%nat).
  { unfold y0. by rewrite Ha, length_slice_map. }
  destruct (getitem_from_end (y0 s) SRB_TIME_INDEX) as (srb & _ & Hsrb);
    [unfold SRB_TIME_INDEX; lia|].
  destruct (getitem_from_end (y0 s) TIME_ACC_INDEX) as (acc & _ & Hacc);
    [unfold TIME_ACC_INDEX; lia|].
  assert (Hbh : block Field.heading = 4%nat) by done.
  assert (Hmh : mutable Field.heading)
    by (apply (bool_decide_unpack _); by vm_compute).
  eexists. split; [|split_and!].
  - apply init_ok. do 2 eexists. split; [|split; [exact Hlen|reflexivity]].
    unfold ingest. rewrite Hsrb, Hacc. reflexivity.
  - by rewrite Hn.
  - intros i f Hi Hf.
    destruct (decide (f ∈ _PER_ENTITY_UNCHANGING_FIELDS)) as [Hu|Hu].
    { rewrite !fget_unchanging by done. unfold entity_view_unchanging_fget.
      cbn [_proto_state protos.entities]. by rewrite Hes. }
    apply mutable_not_unchanging in Hu.
    assert (Hb : block f ≠ 4%nat).
    { intros Hb. apply Hf. unfold mutable in Hu.
      repeat (apply elem_of_cons in Hu as [->|Hu]; [done|]).
      by apply elem_of_nil in Hu. }
    pose proof (mutable_block_lt f) as Hlt.
    assert (Hcell : slice_map (λ v, np_mod v two_pi) (y0 s) lo hi
                      !! (_n s * block f + i)%nat
                    = _array_rep s !! (_n s * block f + i)%nat).
    { unfold y0 in Hlen.
      apply lookup_slice_map_out; unfold lo, hi; rewrite ?Hlen, ?Hbh;
        rewrite Hn in *; fold n; [|lia].
      destruct (decide (block f < 4)%nat); [left|right]; nia. }
    assert (Hget : getitem (slice_map (λ v, np_mod v two_pi) (y0 s) lo hi)
                     (Z.of_nat (_n s * block f + i))
                   = getitem (_array_rep s) (Z.of_nat (_n s * block f + i))).
    { apply getitem_lookup_eq; [by rewrite length_slice_map|done]. }
    destruct (decide (f = Field.landed_on)) as [->|Hl'];
      [|destruct (decide (f = Field.broken)) as [->|Hb']].
    + rewrite !fget_landed_on, !slot_nat. fields. rewrite Hn in *.
      fold n lo hi. rewrite Hget. by rewrite Hnames.
    + rewrite !fget_broken, !slot_nat. fields. rewrite Hn in *.
      fold n lo hi. by rewrite Hget.
    + assert (Hnum : numeric f).
      { unfold mutable in Hu.
        repeat (apply elem_of_cons in Hu as [->|Hu]; [done|]).
        by apply elem_of_nil in Hu. }
      rewrite !fget_numeric, !slot_nat by done. fields. rewrite Hn in *.
      fold n lo hi. by rewrite Hget.
  - intros i Hi.
    destruct (cell_lookup s Field.heading i Hsh Hi) as [v Hv].
    exists v. rewrite !fget_numeric, !slot_nat by done. fields.
    rewrite Nat.mul_comm in Hv. rewrite (getitem_nat _ _ _ Hv).
    split; [done|].
    rewrite (getitem_nat _ _ (np_mod v two_pi)); [done|].
    unfold y0 in *. fold n lo hi.
    rewrite lookup_slice_map_in
      by (unfold lo, hi; rewrite ?Hlen, ?Hbh; rewrite Hn in *; fold n; lia).
    rewrite Hn in *. fold n. fold n in Hv. by rewrite Hv.
Qed.

End Rebuild.

(** ** Lookup by name and the active craft *)

Section Lookup.
Context {F : Type} `{Float64 F}.
Implicit Types (s : PhysicsState F).

(** C8: on a name that no entity has, [__getitem__] raises the
    [ValueError] of [list.index], and not the [NoEntityError] that
    [_name_to_index] raises for the landed-on writes. *)
Theorem getitem_unknown_name s (w : string) :
  w ∉ _entity_names s →
  __getitem__ s (ByName w) = Raise (ValueError (py_repr w +:+ " is not in list"))
  ∧ ∀ msg, __getitem__ s (ByName w) ≠ Raise (NoEntityError msg).
Proof.
  intros Hw%list_index_None. unfold __getitem__, names_index. rewrite Hw.
  split; [done|]. by intros msg.
Qed.

Lemma craft_neither s :
  common.HABITAT ∉ _entity_names s → common.AYSE ∉ _entity_names s →
  craft s = Ok None.
Proof.
  intros Hh Ha. unfold craft. by rewrite !bool_decide_eq_true_2.
Qed.

Lemma craft_habitat_only s :
  common.HABITAT ∈ _entity_names s → common.AYSE ∉ _entity_names s →
  craft s = Ok (Some common.HABITAT).
Proof.
  intros Hh Ha. unfold craft.
  rewrite (bool_decide_eq_false_2 (common.HABITAT ∉ _)) by auto.
  by rewrite bool_decide_eq_true_2.
Qed.

Lemma craft_both s :
  shaped s →
  common.HABITAT ∈ _entity_names s → common.AYSE ∈ _entity_names s →
  ∃ (hab ayse : nat) (v : F),
    _entity_names s !! hab = Some common.HABITAT
    ∧ _entity_names s !! ayse = Some common.AYSE
    ∧ _array_rep s !! (block Field.landed_on * _n s + hab)%nat = Some v
    ∧ craft s
      = Ok (Some (if eq_int v (Z.of_nat ayse) then common.AYSE
                  else common.HABITAT)).
Proof.
  intros Hsh Hh Ha. pose proof Hsh as (_ & Hln & Hla).
  destruct (name_to_index_present _ common.HABITAT ltac:(done) Hh)
    as (hab & Hhi & Hhab).
  destruct (name_to_index_present _ common.AYSE ltac:(done) Ha)
    as (ayse & Hai & Hayse).
  assert (Hlt : (hab < _n s)%nat).
  { rewrite <- Hln. by eapply lookup_lt_Some. }
  destruct (cell_lookup s Field.landed_on hab Hsh Hlt) as [v Hv].
  exists hab, ayse, v. split_and!; [done..|].
  unfold craft.
  rewrite (bool_decide_eq_false_2 (common.HABITAT ∉ _)) by auto.
  rewrite (bool_decide_eq_false_2 (common.AYSE ∉ _)) by auto.
  cbn [andb]. rewrite Hhi, Hai. run.
  unfold _y_component.
  assert (Hb : _y_bounds (_n s) Field.landed_on
               = Ok ((block Field.landed_on * _n s)%nat,
                     ((block Field.landed_on + 1) * _n s)%nat)) by done.
  rewrite Hb. run.
  assert (Hsl : slice (_array_rep s) (block Field.landed_on * _n s)
                  ((block Field.landed_on + 1) * _n s) !! hab = Some v).
  { rewrite lookup_slice by lia. done. }
  rewrite (getitem_nat _ _ _ Hsl). run. by destruct (eq_int v _).
Qed.

(** C5: where AYSE is in the entity list and Habitat is not, [craft] does
    not return AYSE: it raises [NoEntityError] for Habitat. (Without
    either it returns [None], with Habitat alone Habitat, and with both
    the one that the landed-on slot of Habitat decides: [craft_neither],
    [craft_habitat_only], [craft_both].) *)
Theorem craft_ayse_only s :
  common.HABITAT ∉ _entity_names s → common.AYSE ∈ _entity_names s →
  craft s = Raise (NoEntityError (common.HABITAT +:+ " not in entity list")).
Proof.
  intros Hh Ha. unfold craft.
  rewrite (bool_decide_eq_false_2 (common.AYSE ∉ _)) by auto.
  rewrite andb_false_r.
  by rewrite (name_to_index_absent _ common.HABITAT ltac:(done) Hh).
Qed.

End Lookup.

(** ** Replacing an entity *)

Section Replace.
Context {F : Type} `{Float64 F}.
Implicit Types (s : PhysicsState F) (src : protos.Entity F).

Lemma fset_mutable s (i : Z) (f : Field.t) src :
  mutable f →
  fset s i f (getattr src f)
  = store s (block f) i (cell_value (_entity_names s) f src).
Proof.
  intros Hm. destruct (decide (f = Field.landed_on)) as [->|Hl].
  - by rewrite fset_landed_on, cell_value_landed_on.
  - rewrite cell_value_plain by done. unfold mutable in Hm.
    repeat (apply elem_of_cons in Hm as [->|Hm]; [done|]).
    by apply elem_of_nil in Hm.
Qed.

Lemma block_inj (f g : Field.t) :
  mutable f → mutable g → block f = block g → f = g.
Proof.
  unfold mutable. intros Hf Hg.
  repeat (apply elem_of_cons in Hf as [->|Hf];
    [repeat (apply elem_of_cons in Hg as [->|Hg]; [done|]);
     by apply elem_of_nil in Hg|]).
  by apply elem_of_nil in Hf.
Qed.

Lemma shaped_with_array s (a : list F) :
  shaped s → length a = length (_array_rep s) → shaped (with_array s a).
Proof.
  intros (? & ? & ?) Ha. unfold shaped, with_array. fields. by rewrite Ha.
Qed.

(** The assignments of [__setitem__] store the mutable fields of [src] in
    the slots of entity [i] and touch no other slot. *)
Lemma assign_all_stores (i : nat) src (l : list Field.t) :
  NoDup l → (∀ f, f ∈ l → mutable f) →
  ∀ s, shaped s → (i < _n s)%nat →
    (∀ f, f ∈ l → ∃ v, cell_value (_entity_names s) f src = Ok v) →
    ∃ a, assign_all s (Z.of_nat i) (zip l (getattr src <$> l))
         = (with_array s a, Ok tt)
      ∧ length a = length (_array_rep s)
      ∧ (∀ f, f ∈ l →
           ∃ v, cell_value (_entity_names s) f src = Ok v
                ∧ a !! (_n s * block f + i)%nat = Some v)
      ∧ (∀ j : nat, (∀ f, f ∈ l → j ≠ (_n s * block f + i)%nat) →
           a !! j = _array_rep s !! j).
Proof.
  induction l as [|f l IH]; intros Hnd Hmut s Hsh Hi Hval.
  - exists (_array_rep s). split_and!; [by destruct s|done| |done].
    intros f Hf. by apply elem_of_nil in Hf.
  - apply NoDup_cons in Hnd as [Hfl Hnd].
    destruct (Hval f ltac:(left)) as [v Hv].
    pose proof (Hmut f ltac:(left)) as Hm.
    set (a1 := <[(_n s * block f + i)%nat := v]> (_array_rep s)).
    assert (Hstep : fset s (Z.of_nat i) f (getattr src f)
                    = (with_array s a1, Ok tt)).
    { rewrite fset_mutable, Hv by done. by apply store_ok. }
    destruct (IH Hnd (λ g Hg, Hmut g ltac:(by right)) (with_array s a1))
      as (a & Hrun & Hlen & Hin & Hout).
    { apply shaped_with_array; [done|]. apply length_insert. }
    { done. }
    { intros g Hg. apply (Hval g). by right. }
    exists a. cbn [fmap list_fmap zip zip_with assign_all].
    rewrite Hstep. fields.
    change (zip_with pair l (list_fmap _ _ (getattr src) l))
      with (zip l (getattr src <$> l)).
    rewrite Hrun. split_and!.
    + done.
    + rewrite Hlen. apply length_insert.
    + intros g [->|Hg]%elem_of_cons; [|by apply Hin].
      exists v. split; [done|]. rewrite Hout.
      * apply list_lookup_insert_eq. by apply slot_in_range.
      * intros g Hg Heq. apply Hfl.
        unfold with_array in Heq. cbn [_n] in Heq.
        assert (block f = block g) by nia.
        pose proof (Hmut g ltac:(by right)).
        by rewrite (block_inj f g).
    + intros j Hj. rewrite Hout.
      * apply list_lookup_insert_ne. intros Heq. by apply (Hj f); [left|].
      * intros g Hg. apply (Hj g). by right.
Qed.

Lemma setitem_view_of_self s (index : key) (j : Z) :
  __setitem__ s index (ViewOfSelf j) = (s, Ok tt).
Proof. done. Qed.

(** C6, amended: [self[i] = val], for [val] an [Entity] or a view into
    another state that reads as the entity [src] whose landed-on name is
    empty or known to [self], stores the mutable fields of [src] in slot [i]
    and leaves the unchanging fields of slot [i] as they are; for [val] the
    view of [self] at [i] itself it does nothing. *)
Theorem setitem_copies_mutable s (i : nat) (val : entity) src :
  shaped s → (i < _n s)%nat → index_exact (_n s) → bool_exact →
  (is_view_of_self val = false → reads_as s val src →
   protos.landed_on src = "" ∨ protos.landed_on src ∈ _entity_names s →
   ∃ s', __setitem__ s (ByIndex (Z.of_nat i)) val = (s', Ok tt)
     ∧ (∀ f, mutable f → fget s' (Z.of_nat i) f = Ok (getattr src f))
     ∧ (∀ f, f ∈ _PER_ENTITY_UNCHANGING_FIELDS →
          fget s' (Z.of_nat i) f = fget s (Z.of_nat i) f))
  ∧ __setitem__ s (ByIndex (Z.of_nat i)) (ViewOfSelf (Z.of_nat i))
    = (s, Ok tt).
Proof.
  intros Hsh Hi Hint Hbool. split; [|apply setitem_view_of_self].
  intros Hval Hreads Hland.
  assert (Hvals : map_result (entity_attr s val) assigned_fields
                  = Ok (getattr src <$> assigned_fields)).
  { apply map_result_ok, Forall2_fmap_r, Forall_Forall2_diag, Forall_forall.
    intros f Hf. by apply Hreads. }
  destruct (assign_all_stores i src assigned_fields) with (s := s)
    as (a & Hrun & Hlen & Hin & _); [|done..| |].
  { apply (bool_decide_unpack _). by vm_compute. }
  { intros f Hf. by apply cell_value_known. }
  exists (with_array s a). split_and!.
  - unfold __setitem__. rewrite Hval. cbn [__getitem__]. run.
    rewrite Hvals. run. done.
  - intros f Hm. apply read_back; [|by destruct Hsh as (_ & ? & _)|done..].
    intros g Hg. by apply Hin.
  - intros f Hf. by rewrite !fget_unchanging.
Qed.

End Replace.

(** ** The shape of a state *)

Section Invariant.
Context {F : Type} `{Float64 F}.
Implicit Types (s : PhysicsState F).

(** [__init__] gives the state its shape and the setters of the views keep
    it, also when they raise. *)
Lemma init_shaped (y : option (list F)) (P : protos.PhysicalState F) s :
  __init__ y P = Ok s → shaped s.
Proof. intros Hs. by pose proof (init_built _ _ _ Hs) as (_ & _ & _ & ? & _). Qed.

Lemma store_shaped s (k : nat) (i : Z) (v : result F) :
  shaped s → shaped (store s k i v).1.
Proof.
  intros Hsh. unfold store. destruct v as [v|]; run; [|done].
  destruct (setitem _ _ v) as [a|] eqn:Ha; [|done].
  apply shaped_with_array; [done|]. by eapply setitem_length.
Qed.

Lemma fset_shaped s (i : Z) (f : Field.t) (val : value F) :
  shaped s → shaped (fset s i f val).1.
Proof.
  intros Hsh. unfold fset. case_bool_decide.
  - unfold entity_view_unchanging_fset.
    destruct (getitem _ i) as [e|]; run; [|done].
    destruct (setattr e f val) as [e'|]; run; [|done].
    destruct (setitem _ i e') as [es|] eqn:Hes; [|done].
    destruct Hsh as (He & Hn & Ha). unfold shaped, with_proto, with_entities.
    cbn [fst]. fields. cbn [protos.entities].
    by rewrite (setitem_length _ _ _ _ Hes).
  - destruct (dict_get _ f) as [k|]; [|done].
    unfold entity_view_mutable_fset.
    destruct (Field.cpp_type f); try by apply store_shaped.
    case_decide; [|done]. destruct val; try done. by apply store_shaped.
Qed.

End Invariant.

(** * The properties on the exact model *)

Section ExactModel.

Lemma exact_index_exact (n : nat) : index_exact (F := Q) n.
Proof.
  intros i _. cbn. unfold Exact.q_trunc. cbn. by rewrite Z.quot_1_r.
Qed.

Lemma exact_bool_exact : bool_exact (F := Q).
Proof. by intros []. Qed.

Lemma docked_built :
  __init__ None Exact.docked = Ok (Exact.built Exact.docked).
Proof. by vm_compute. Qed.

Lemma docked_shaped : shaped (Exact.built Exact.docked).
Proof. by vm_compute. Qed.

Lemma docked_landings_known : landings_known Exact.docked.
Proof.
  intros e He. unfold Exact.docked, Exact.snapshot in He.
  cbn [protos.entities] in He.
  repeat (apply elem_of_cons in He as [->|He];
    [apply (bool_decide_unpack _); by vm_compute|]).
  by apply elem_of_nil in He.
Qed.

Lemma ayse_only_built :
  __init__ None Exact.ayse_only = Ok (Exact.built Exact.ayse_only).
Proof. by vm_compute. Qed.

End ExactModel.

(** * The properties on the binary64 model *)

Section Binary64Model.

Lemma binary64_index_exact (n : nat) :
  (n ≤ 2)%nat → index_exact (F := PrimFloat.float) n.
Proof.
  intros Hn i Hi.
  assert (Hcases : i = -1 ∨ i = 0 ∨ i = 1) by lia.
  destruct Hcases as [Hi'|[Hi'|Hi']]; subst i; by vm_compute.
Qed.

Lemma binary64_bool_exact : bool_exact (F := PrimFloat.float).
Proof. intros []; by vm_compute. Qed.

Lemma tilted_built :
  __init__ None Binary64.tilted = Ok (Binary64.built Binary64.tilted).
Proof. by vm_compute. Qed.

Lemma tilted_landings_known : landings_known Binary64.tilted.
Proof.
  intros e He. unfold Binary64.tilted in He. cbn [protos.entities] in He.
  repeat (apply elem_of_cons in He as [->|He]; [by left|]).
  by apply elem_of_nil in He.
Qed.

(** [float_fits] is the range of [float] on integers: the largest integer
    it takes rounds to the largest double, the next one to infinity, which
    [int] does not take back. *)
Lemma float_fits_sharp :
  float_fits (2 ^ 1024 - 2 ^ 970 - 1) = true
  ∧ float_fits (2 ^ 1024 - 2 ^ 970) = false
  ∧ of_int (F := PrimFloat.float) (2 ^ 1024 - 2 ^ 970 - 1)
    = of_int (2 ^ 1024 - 2 ^ 971)
  ∧ to_int (of_int (F := PrimFloat.float) (2 ^ 1024 - 2 ^ 971))
    = Ok (2 ^ 1024 - 2 ^ 971)
  ∧ to_int (of_int (F := PrimFloat.float) (2 ^ 1024 - 2 ^ 970))
    = Raise OverflowError.
Proof. split_and!; by vm_compute. Qed.

(** [float] reads [-1e-20] as [tiny], and [2 * np.pi] is the number it
    reads from [6.283185307179586]. *)
Lemma tiny_literal : of_str "-1e-20" = Some Binary64.tiny.
Proof. by vm_compute. Qed.

Lemma two_pi_literal :
  of_str (F := PrimFloat.float) "6.283185307179586" = Some two_pi.
Proof. by vm_compute. Qed.

(** [np.mod(-1e-20, 2π)] is 2π, which is not below 2π, and
    [np.mod(2π, 2π)] is 0. *)
Lemma tiny_reduced : np_mod Binary64.tiny two_pi = two_pi.
Proof. by vm_compute. Qed.

Lemma two_pi_outside : within_turn (F := PrimFloat.float) two_pi = false.
Proof. by vm_compute. Qed.

Lemma two_pi_reduced :
  np_mod (F := PrimFloat.float) two_pi two_pi = of_int 0.
Proof. by vm_compute. Qed.

Lemma tilted_shaped : shaped (Binary64.built Binary64.tilted).
Proof. by vm_compute. Qed.

Lemma tilted_heading :
  fget (Binary64.built Binary64.tilted) 0 Field.heading
  = Ok (VFloat two_pi).
Proof. by vm_compute. Qed.

End Binary64Model.

(** C1 on Habitat turned by -1e-20 rad: its heading comes back as 2π. *)
Lemma snapshot_round_trip_witness :
  landings_known Binary64.tilted
  ∧ index_exact (F := PrimFloat.float)
      (length (protos.entities Binary64.tilted))
  ∧ bool_exact (F := PrimFloat.float)
  ∧ ∃ s, __init__ None Binary64.tilted = Ok s
      ∧ as_proto s
        = Ok (with_entities Binary64.tilted
                (reduced <$> protos.entities Binary64.tilted))
      ∧ protos.heading <$> (reduced <$> protos.entities Binary64.tilted)
        = [two_pi; np_mod Binary64.turned two_pi]
      ∧ within_turn (F := PrimFloat.float) two_pi = false.
Proof.
  assert (Hint : index_exact (F := PrimFloat.float)
                   (length (protos.entities Binary64.tilted)))
    by (apply binary64_index_exact; vm_compute; lia).
  split; [apply tilted_landings_known|]. split; [exact Hint|].
  split; [apply binary64_bool_exact|].
  destruct (snapshot_round_trip Binary64.tilted tilted_landings_known Hint
              binary64_bool_exact) as (s & Hs & Hp).
  exists s. split; [exact Hs|]. split; [exact Hp|].
  split; [by vm_compute|apply two_pi_outside].
Defined.


(** C3 on Habitat turned by -1e-20 rad: its heading reads 2π through the
    state built from the snapshot and 0 through the state built from the
    y-vector of that state. *)
Lemma rebuilt_from_y0_witness :
  let s := Binary64.built Binary64.tilted in
  __init__ None Binary64.tilted = Ok s
  ∧ ∃ s2, __init__ (Some (y0 s)) Binary64.tilted = Ok s2
      ∧ fget s2 0 Field.x = fget s 0 Field.x
      ∧ fget s 0 Field.heading = Ok (VFloat two_pi)
      ∧ fget s2 0 Field.heading = Ok (VFloat (of_int 0))
      ∧ fget s2 0 Field.heading ≠ fget s 0 Field.heading.
Proof.
  intros s. split; [apply tilted_built|].
  assert (Hlt : (0 < _n s)%nat) by (vm_compute; lia).
  destruct (rebuilt_from_y0 None Binary64.tilted s tilted_built)
    as (s2 & Hs2 & _ & Hsame & Hhead).
  destruct (Hhead 0%nat Hlt) as (v & Hv & Hv2).
  change (Z.of_nat 0) with 0 in *.
  assert (Hth : fget s 0 Field.heading = Ok (VFloat two_pi))
    by apply tilted_heading.
  assert (Hv' : v = two_pi) by congruence. subst v.
  rewrite two_pi_reduced in Hv2.
  exists s2. split; [exact Hs2|].
  split; [apply (Hsame 0%nat Field.x Hlt); done|].
  split; [exact Hth|]. split; [exact Hv2|].
  rewrite Hv2, Hth. by vm_compute.
Defined.

(** C4 on a y-vector of three numbers for two entities. *)
Lemma buffer_length_enforced_witness :
  (∃ e, __init__ (Some [1; 2; 3]%Q) Exact.docked = Raise e)
  ∧ (Z.of_nat (length (_array_rep (Exact.built Exact.docked))) - 2)
      `mod` 10 = 0
  ∧ (Z.of_nat (length (_array_rep (Exact.built Exact.docked))) - 2)
      `div` 10 = 2.
Proof.
  destruct (buffer_length_enforced Exact.docked) as [Hfail Hok].
  split.
  - apply Hfail. vm_compute. lia.
  - destruct (Hok None _ docked_built) as (_ & Hmod & Hdiv). by split.
Defined.

(** C5 on AYSE alone. *)
Lemma craft_ayse_only_witness :
  let s := Exact.built Exact.ayse_only in
  (common.HABITAT ∉ _entity_names s) ∧ common.AYSE ∈ _entity_names s
  ∧ craft s
    = Raise (NoEntityError (common.HABITAT +:+ " not in entity list")).
Proof.
  intros s.
  assert (Hh : common.HABITAT ∉ _entity_names s)
    by (apply (bool_decide_unpack _); by vm_compute).
  assert (Ha : common.AYSE ∈ _entity_names s)
    by (apply (bool_decide_unpack _); by vm_compute).
  split_and!; [done..|]. by apply craft_ayse_only.
Defined.

(** C6 as the specification has it fails on the name: the probe assigned
    to the slot of AYSE leaves the name of the slot. *)
Lemma setitem_keeps_unchanging :
  ¬ replaced (Exact.built Exact.docked) 1 (Entity Exact.probe).
Proof.
  intros Hr. specialize (Hr Field.name). vm_compute in Hr. discriminate.
Qed.

(** C6, amended, on the probe assigned to the slot of AYSE. *)
Lemma setitem_copies_mutable_witness :
  let s := Exact.built Exact.docked in
  let val := Entity Exact.probe in
  shaped s ∧ (1 < _n s)%nat ∧ index_exact (F := Q) (_n s)
  ∧ bool_exact (F := Q)
  ∧ is_view_of_self val = false ∧ reads_as s val Exact.probe
  ∧ (protos.landed_on Exact.probe = ""
     ∨ protos.landed_on Exact.probe ∈ _entity_names s)
  ∧ (∃ s', __setitem__ s (ByIndex 1) val = (s', Ok tt)
       ∧ (∀ f, mutable f → fget s' 1 f = Ok (getattr Exact.probe f))
       ∧ (∀ f, f ∈ _PER_ENTITY_UNCHANGING_FIELDS →
            fget s' 1 f = fget s 1 f))
  ∧ __setitem__ s (ByIndex 1) (ViewOfSelf 1) = (s, Ok tt).
Proof.
  intros s val.
  assert (Hsh : shaped s) by apply docked_shaped.
  assert (Hlt : (1 < _n s)%nat) by (vm_compute; lia).
  assert (Hr : reads_as s val Exact.probe) by done.
  assert (Hl : protos.landed_on Exact.probe = ""
               ∨ protos.landed_on Exact.probe ∈ _entity_names s)
    by (apply (bool_decide_unpack _); by vm_compute).
  destruct (setitem_copies_mutable s 1 val Exact.probe Hsh Hlt
              (exact_index_exact _) exact_bool_exact) as [Hcopy Hnoop].
  split_and!; [done|done|apply exact_index_exact|apply exact_bool_exact
              |done|done|done| |exact Hnoop].
  by apply Hcopy.
Defined.

(** C7 on the name of a body that does not exist. *)
Lemma landed_on_absent_name_rejected_witness :
  let s := Exact.built Exact.docked in
  "Mars" ≠ "" ∧ ("Mars" ∉ _entity_names s)
  ∧ fset s 0 Field.landed_on (VStr "Mars")
    = (s, Raise (NoEntityError "Mars not in entity list")).
Proof.
  intros s.
  assert (Hn : "Mars" ∉ _entity_names s)
    by (apply (bool_decide_unpack _); by vm_compute).
  split_and!; [done..|].
  by apply (landed_on_absent_name_rejected s 0 "Mars").
Defined.

(** C8 on the name of a body that does not exist. *)
Lemma getitem_unknown_name_witness :
  let s := Exact.built Exact.docked in
  ("Mars" ∉ _entity_names s)
  ∧ __getitem__ s (ByName "Mars") = Raise (ValueError "'Mars' is not in list")
  ∧ ∀ msg, __getitem__ s (ByName "Mars") ≠ Raise (NoEntityError msg).
Proof.
  intros s.
  assert (Hn : "Mars" ∉ _entity_names s)
    by (apply (bool_decide_unpack _); by vm_compute).
  split; [done|]. by apply (getitem_unknown_name s "Mars").
Defined.

(** C9 on a heading of -1e-20 rad, which becomes 2π, and on one of
    7.5 rad. *)
Lemma heading_normalized_witness :
  let s := Binary64.built Binary64.tilted in
  __init__ None Binary64.tilted = Ok s ∧ (1 < _n s)%nat
  ∧ of_str "-1e-20" = Some Binary64.tiny
  ∧ ingested_headings None Binary64.tilted !! 0%nat = Some Binary64.tiny
  ∧ np_mod Binary64.tiny two_pi = two_pi
  ∧ fget s 0 Field.heading = Ok (VFloat two_pi)
  ∧ within_turn (F := PrimFloat.float) two_pi = false
  ∧ fget s 1 Field.heading = Ok (VFloat (np_mod Binary64.turned two_pi))
  ∧ within_turn (np_mod Binary64.turned two_pi) = true.
Proof.
  intros s.
  assert (Hlt : (1 < _n s)%nat) by (vm_compute; lia).
  assert (H0 : (0 < _n s)%nat) by lia.
  destruct (heading_normalized None Binary64.tilted s 0 tilted_built H0)
    as (h & Hh & _ & Hget).
  destruct (heading_normalized None Binary64.tilted s 1 tilted_built Hlt)
    as (h1 & Hh1 & _ & Hget1).
  vm_compute in Hh. injection Hh as <-.
  vm_compute in Hh1. injection Hh1 as <-.
  change (Z.of_nat 0) with 0 in *. change (Z.of_nat 1) with 1 in *.
  split; [apply tilted_built|]. split; [exact Hlt|].
  split; [apply tiny_literal|]. split; [by vm_compute|].
  split; [apply tiny_reduced|].
  split; [rewrite Hget; by vm_compute|]. split; [apply two_pi_outside|].
  split; [rewrite Hget1; by vm_compute|]. by vm_compute.
Defined.

(** C10 on the docked Habitat. *)
Lemma landed_on_cleared_witness :
  let s := Exact.built Exact.docked in
  shaped s ∧ (0 < _n s)%nat
  ∧ to_int (of_int (F := Q) NO_INDEX) = Ok NO_INDEX
  ∧ (∃ s', fset s 0 Field.landed_on (VStr "") = (s', Ok tt)
       ∧ _array_rep s' !! 16%nat = Some (of_int NO_INDEX)
       ∧ fget s' 0 Field.landed_on = Ok (VStr ""))
  ∧ ∀ w msg,
      (fset s 0 Field.landed_on (VStr w)).2 = Raise (NoEntityError msg) →
      w ≠ "" ∧ w ∉ _entity_names s.
Proof.
  intros s.
  assert (Hsh : shaped s) by apply docked_shaped.
  assert (Hlt : (0 < _n s)%nat) by (vm_compute; lia).
  assert (Hint : to_int (of_int (F := Q) NO_INDEX) = Ok NO_INDEX) by done.
  destruct (landed_on_cleared s 0 Hsh Hlt Hint) as (Hset & Hcell & Hget & Hno).
  split_and!; [done..| |exact Hno].
  eexists. split_and!; [exact Hset|exact Hcell|exact Hget].
Defined.

(** * Further properties *)

(** ** Names and indices *)

Section NameCodec.
Context {F : Type} `{Float64 F}.

Lemma list_index_first (w : string) (l : list string) (i : nat) :
  list_index w l = Some i →
  l !! i = Some w ∧ ∀ j : nat, (j < i)%nat → l !! j ≠ Some w.
Proof.
  revert i. induction l as [|h t IH]; intros i; cbn [list_index]; [done|].
  case_decide as Hh.
  - intros [= <-]. split; [by subst|]. intros j Hj. lia.
  - destruct (list_index w t) as [k|] eqn:Hk; [|done].
    intros [= <-]. destruct (IH k eq_refl) as [Hl Hfirst]. split; [done|].
    intros [|j] Hj; cbn; [congruence|]. apply Hfirst. lia.
Qed.

Lemma list_index_NoDup (l : list string) (i : nat) (w : string) :
  NoDup l → l !! i = Some w → list_index w l = Some i.
Proof.
  intros Hnd Hi.
  destruct (list_index_elem w l) as [j Hj].
  { apply list_elem_of_lookup. by exists i. }
  apply list_index_Some in Hj as Hj'.
  by rewrite (NoDup_lookup l i j w Hnd Hi Hj').
Qed.

(** X1: [_index_to_name] undoes [_name_to_index]: a name that
    [_name_to_index] resolves comes back from the number stored for its
    index, the empty name included; and where the names are pairwise
    distinct, the index of a name that is not empty comes back from
    [_name_to_index]. Among equal names it is the first position that
    comes back. *)
Theorem name_index_round_trip (names : list string) :
  index_exact (length names) →
  (∀ w j, _name_to_index names w = Ok j →
     _index_to_name names (of_int j) = Ok w)
  ∧ (∀ (i : nat) w, names !! i = Some w → w ≠ "" →
       ∃ j : nat, _name_to_index names w = Ok (Z.of_nat j)
         ∧ (j ≤ i)%nat ∧ names !! j = Some w
         ∧ (NoDup names → j = i)).
Proof.
  intros Hint. split.
  - intros w j Hj. destruct (name_to_index_range _ _ _ Hj) as [Hr Hback].
    unfold _index_to_name. rewrite (Hint j Hr). run.
    revert Hback. destruct (decide (j = NO_INDEX)) as [->|Hne]; intros Hback.
    + by rewrite decide_False by (intros Hx; by apply Hx).
    + by rewrite decide_True by done.
  - intros i w Hi Hw.
    destruct (list_index_elem w names) as [j Hj].
    { apply list_elem_of_lookup. by exists i. }
    exists j. unfold _name_to_index. rewrite decide_True by done.
    rewrite Hj. destruct (list_index_first _ _ _ Hj) as [Hjw Hfirst].
    split_and!; [done| |done|].
    + destruct (decide (j ≤ i)%nat); [done|]. destruct (Hfirst i); [lia|done].
    + intros Hnd. by apply (NoDup_lookup names j i w).
Qed.

End NameCodec.

(** ** The per-field vectors *)

Section Components.
Context {F : Type} `{Float64 F}.
Implicit Types (s : PhysicsState F).

Lemma slice_insert_in {A} (l : list A) (lo hi k : nat) (a : A) :
  (lo ≤ k < hi)%nat →
  slice (<[k := a]> l) lo hi = <[(k - lo)%nat := a]> (slice l lo hi).
Proof.
  intros Hk. unfold slice.
  rewrite drop_insert_ge by lia. by rewrite take_insert_lt by lia.
Qed.

Lemma slice_insert_out {A} (l : list A) (lo hi k : nat) (a : A) :
  (k < lo ∨ hi ≤ k)%nat → slice (<[k := a]> l) lo hi = slice l lo hi.
Proof.
  intros [Hk|Hk]; unfold slice.
  - by rewrite drop_insert_lt by lia.
  - destruct (decide (lo ≤ k)%nat).
    + rewrite drop_insert_ge by lia. by rewrite take_insert_ge by lia.
    + by rewrite drop_insert_lt by lia.
Qed.

Lemma y_component_eq s (f : Field.t) :
  mutable f →
  _y_component s f
  = Ok (slice (_array_rep s) (block f * _n s) ((block f + 1) * _n s)).
Proof.
  intros Hm. unfold mutable in Hm.
  repeat (apply elem_of_cons in Hm as [->|Hm]; [done|]).
  by apply elem_of_nil in Hm.
Qed.

(** X2: the vector of a mutable field ([X], [Y], ..., [Broken]) has one
    element for each entity, and its element [i] is the number in slot
    [block f * n + i], which is what the view of entity [i] reads for the
    field: the number itself for a numeric field, its truth value for
    [broken]. *)
Theorem component_matches_views s (f : Field.t) :
  shaped s → mutable f →
  ∃ col, _y_component s f = Ok col
    ∧ length col = _n s
    ∧ ∀ i : nat, (i < _n s)%nat →
        ∃ v, col !! i = Some v
          ∧ _array_rep s !! (block f * _n s + i)%nat = Some v
          ∧ (numeric f → fget s (Z.of_nat i) f = Ok (VFloat v))
          ∧ (f = Field.broken →
             fget s (Z.of_nat i) f = Ok (VBool (to_bool v))).
Proof.
  intros Hsh Hm. eexists. split; [by apply y_component_eq|].
  pose proof (block_lt f) as Hb. rewrite mutable_count in Hb.
  pose proof Hsh as (_ & _ & Hl). rewrite mutable_count in Hl.
  unfold N_SINGULAR_ELEMENTS in Hl.
  split; [rewrite length_slice; nia|].
  intros i Hi. destruct (cell_lookup s f i Hsh Hi) as [v Hv].
  exists v. rewrite lookup_slice by nia. split_and!; [done..| |].
  - intros Hn. rewrite fget_numeric, slot_nat by done.
    rewrite Nat.mul_comm in Hv. by rewrite (getitem_nat _ _ _ Hv).
  - intros ->. rewrite fget_broken, slot_nat.
    rewrite Nat.mul_comm in Hv. by rewrite (getitem_nat _ _ _ Hv).
Qed.

(** X3: a write to a numeric field of entity [i] through its view, of a
    value that converts to a number, replaces element [i] of the vector of
    that field by the number, and leaves alone the vector of every other
    mutable field, the two numbers at the end of the array and the snapshot
    that the state owns. A value that does not convert (an [int] too large,
    a string that is no numeric literal) raises and leaves the state as it
    is. *)
Theorem view_write_frame s (i : nat) (f : Field.t) (val : value F) (w : F) :
  shaped s → (i < _n s)%nat → mutable f → numeric f →
  as_float64 val = Ok w →
  (∃ s' col, fset s (Z.of_nat i) f val = (s', Ok tt)
     ∧ _y_component s f = Ok col
     ∧ _y_component s' f = Ok (<[i := w]> col)
     ∧ (∀ g, mutable g → g ≠ f → _y_component s' g = _y_component s g)
     ∧ getitem (_array_rep s') SRB_TIME_INDEX
       = getitem (_array_rep s) SRB_TIME_INDEX
     ∧ getitem (_array_rep s') TIME_ACC_INDEX
       = getitem (_array_rep s) TIME_ACC_INDEX
     ∧ _proto_state s' = _proto_state s)
  ∧ ∀ bad err, as_float64 bad = Raise err →
      fset s (Z.of_nat i) f bad = (s, Raise err).
Proof.
  intros Hsh Hi Hm Hn Hw.
  split; [|intros bad err Hbad; by rewrite fset_numeric, Hbad by done].
  pose proof (block_lt f) as Hb. rewrite mutable_count in Hb.
  pose proof Hsh as (_ & _ & Hl). rewrite mutable_count in Hl.
  unfold N_SINGULAR_ELEMENTS in Hl.
  set (k := (_n s * block f + i)%nat).
  exists (with_array s (<[k := w]> (_array_rep s))). eexists.
  split_and!.
  - rewrite fset_numeric, Hw by done. by apply store_ok.
  - by apply y_component_eq.
  - rewrite y_component_eq by done. unfold with_array. fields.
    rewrite slice_insert_in by (unfold k; nia).
    do 2 f_equal. unfold k. lia.
  - intros g Hg Hgf. rewrite !y_component_eq by done.
    unfold with_array. fields. rewrite slice_insert_out; [done|].
    assert (block g ≠ block f) by (intros Hbg; by apply Hgf, block_inj).
    unfold k. destruct (decide (block g < block f)%nat); [right|left]; nia.
  - unfold with_array, getitem. fields. rewrite length_insert. run.
    destruct (py_index _ SRB_TIME_INDEX) as [j|] eqn:Hj; run; [|done].
    rewrite list_lookup_insert_ne; [done|].
    revert Hj. unfold py_index, SRB_TIME_INDEX.
    repeat case_bool_decide; intros [= <-]; unfold k; nia.
  - unfold with_array, getitem. fields. rewrite length_insert. run.
    destruct (py_index _ TIME_ACC_INDEX) as [j|] eqn:Hj; run; [|done].
    rewrite list_lookup_insert_ne; [done|].
    revert Hj. unfold py_index, TIME_ACC_INDEX.
    repeat case_bool_decide; intros [= <-]; unfold k; nia.
  - done.
Qed.

End Components.

(** ** The landed-on map *)

Section Landings.
Context {F : Type} `{Float64 F}.
Implicit Types (s : PhysicsState F) (m : gmap nat Z).

(** The loop of [LandedOn] over the landed-on vector, from position [a]. *)
Lemma landed_loop (col : list F) :
  ∀ (a : nat) m0 m,
    (∀ i, is_Some (m0 !! i) → (i < a)%nat) →
    for_each
      (λ '(landed, landee) (landed_map : gmap nat Z),
         j ← to_int landee;
         if decide (j ≠ NO_INDEX) then Ok (<[landed := j]> landed_map)
         else Ok landed_map)
      (zip (seq a (length col)) col) m0 = Ok m →
    ∀ (i : nat) (j : Z),
      m !! i = Some j ↔
      m0 !! i = Some j
      ∨ ((a ≤ i)%nat
         ∧ ∃ v, col !! (i - a)%nat = Some v ∧ to_int v = Ok j
                ∧ j ≠ NO_INDEX).
Proof.
  induction col as [|v col IH]; intros a m0 m Hdom Hrun i j.
  - injection Hrun as <-. split; [by left|].
    intros [?|(_ & v & Hv & _)]; [done|]. by rewrite lookup_nil in Hv.
  - revert Hrun. cbn [length seq zip zip_with for_each].
    destruct (to_int v) as [j0|] eqn:Hj0; run; [|done].
    set (m1 := if decide (j0 ≠ NO_INDEX) then <[a := j0]> m0 else m0).
    assert (Hm0a : m0 !! a = None).
    { destruct (m0 !! a) eqn:Ha; [|done].
      assert (a < a)%nat by (apply Hdom; by rewrite Ha). lia. }
    assert (Hm1 : ∀ i j, m1 !! i = Some j ↔
              m0 !! i = Some j ∨ (i = a ∧ j0 = j ∧ j0 ≠ NO_INDEX)).
    { intros i' j'. unfold m1. case_decide as Hne.
      - rewrite lookup_insert_Some. split.
        + intros [[<- <-]|[_ ?]]; [by right|by left].
        + intros [Hold|(-> & <- & _)]; [|by left]. right. split; [|done].
          intros <-. congruence.
      - split; [by left|]. intros [?|(_ & _ & ?)]; [done|]. by destruct Hne. }
    assert (Hdom1 : ∀ i, is_Some (m1 !! i) → (i < S a)%nat).
    { intros i' [j' Hi']. apply Hm1 in Hi' as [Hold|(-> & _)]; [|lia].
      assert (i' < a)%nat by (apply Hdom; by rewrite Hold). lia. }
    intros Hrun.
    assert (Hrun' :
      for_each
        (λ '(landed, landee) (landed_map : gmap nat Z),
           j ← to_int landee;
           if decide (j ≠ NO_INDEX) then Ok (<[landed := j]> landed_map)
           else Ok landed_map)
        (zip (seq (S a) (length col)) col) m1 = Ok m).
    { unfold m1. by destruct (decide (j0 ≠ NO_INDEX)). }
    rewrite (IH (S a) m1 m Hdom1 Hrun' i j), Hm1. split.
    + intros [[Hold|(-> & <- & Hne)]|(Hle & v' & Hv' & Hj & Hne)].
      * by left.
      * right. split; [lia|]. exists v. by rewrite Nat.sub_diag.
      * right. split; [lia|]. exists v'.
        replace (i - a)%nat with (S (i - S a)) by lia. done.
    + intros [Hold|(Hle & v' & Hv' & Hj & Hne)]; [by left; left|].
      destruct (decide (i = a)) as [->|Hia].
      * rewrite Nat.sub_diag in Hv'. injection Hv' as <-.
        left. right. split; [done|]. split; [congruence|]. congruence.
      * right. split; [lia|]. exists v'.
        replace (i - a)%nat with (S (i - S a)) in Hv' by lia. done.
Qed.

Lemma landed_loop_ok (col : list F) :
  (∀ v, v ∈ col → ∃ j, to_int v = Ok j) →
  ∀ (a : nat) m0,
    ∃ m,
      for_each
        (λ '(landed, landee) (landed_map : gmap nat Z),
           j ← to_int landee;
           if decide (j ≠ NO_INDEX) then Ok (<[landed := j]> landed_map)
           else Ok landed_map)
        (zip (seq a (length col)) col) m0 = Ok m.
Proof.
  induction col as [|v col IH]; intros Hcol a m0; [by eexists|].
  cbn [length seq zip zip_with for_each].
  destruct (Hcol v ltac:(left)) as [j Hj]. rewrite Hj. run.
  destruct (decide (j ≠ NO_INDEX)); run;
    apply IH; intros v' Hv'; apply Hcol; by right.
Qed.

Lemma landed_on_slice s :
  shaped s →
  ∃ col, _y_component s Field.landed_on = Ok col
    ∧ length col = _n s
    ∧ ∀ i : nat, (i < _n s)%nat →
        col !! i = _array_rep s !! (block Field.landed_on * _n s + i)%nat.
Proof.
  intros Hsh. eexists. split.
  { apply y_component_eq. apply (bool_decide_unpack _). by vm_compute. }
  pose proof Hsh as (_ & _ & Hl). rewrite mutable_count in Hl.
  unfold N_SINGULAR_ELEMENTS in Hl.
  assert (Hb : (block Field.landed_on < 10)%nat) by (vm_compute; lia).
  split; [rewrite length_slice; nia|].
  intros i Hi. by rewrite lookup_slice by nia.
Qed.

Lemma landed_on_map_spec s m :
  shaped s → LandedOn s = Ok m →
  ∀ (i : nat) (j : Z),
    m !! i = Some j ↔
    (i < _n s)%nat
    ∧ ∃ v, _array_rep s !! (block Field.landed_on * _n s + i)%nat = Some v
        ∧ to_int v = Ok j ∧ j ≠ NO_INDEX.
Proof.
  intros Hsh. unfold LandedOn.
  destruct (landed_on_slice s Hsh) as (col & -> & Hlen & Hcol).
  run. unfold enumerate. intros Hrun i j.
  rewrite (landed_loop _ 0 ∅ m (λ i' Hi', ltac:(by destruct Hi')) Hrun i j).
  rewrite lookup_empty, Nat.sub_0_r.
  split.
  - intros [?|(_ & v & Hv & Hj & Hne)]; [done|].
    assert (Hi : (i < _n s)%nat).
    { rewrite <- Hlen. by eapply lookup_lt_Some. }
    split; [done|]. exists v. by rewrite <- Hcol.
  - intros (Hi & v & Hv & Hj & Hne). right. split; [lia|]. exists v.
    by rewrite Hcol.
Qed.

Lemma landed_on_map_ok s :
  shaped s →
  (∀ (i : nat) v, (i < _n s)%nat →
     _array_rep s !! (block Field.landed_on * _n s + i)%nat = Some v →
     ∃ j, to_int v = Ok j) →
  ∃ m, LandedOn s = Ok m.
Proof.
  intros Hsh Hdec. unfold LandedOn.
  destruct (landed_on_slice s Hsh) as (col & -> & Hlen & Hcol). run.
  apply landed_loop_ok. intros v [i Hi]%list_elem_of_lookup.
  assert (i < _n s)%nat by (rewrite <- Hlen; by eapply lookup_lt_Some).
  apply (Hdec i); [done|]. by rewrite <- Hcol.
Qed.

(** X4: [LandedOn] returns a dict when [int] accepts the number in the
    landed-on slot of every entity, and a dict that it returns maps an
    index [i] to [j] exactly when [i] is the index of an entity whose
    landed-on slot holds a number that [int] turns into [j], other than
    [NO_INDEX]. *)
Theorem landed_on_map s :
  shaped s →
  ((∀ (i : nat) v, (i < _n s)%nat →
      _array_rep s !! (block Field.landed_on * _n s + i)%nat = Some v →
      ∃ j, to_int v = Ok j) →
   ∃ m, LandedOn s = Ok m)
  ∧ ∀ m, LandedOn s = Ok m →
      ∀ (i : nat) (j : Z),
        m !! i = Some j ↔
        (i < _n s)%nat
        ∧ ∃ v, _array_rep s !! (block Field.landed_on * _n s + i)%nat
               = Some v
            ∧ to_int v = Ok j ∧ j ≠ NO_INDEX.
Proof.
  intros Hsh. split.
  - by apply landed_on_map_ok.
  - intros m Hm. by apply landed_on_map_spec.
Qed.

Lemma read_landed_on s (i : nat) (e : protos.Entity F) :
  holds s i e → length (_entity_names s) = _n s → index_exact (_n s) →
  ∃ j, _name_to_index (_entity_names s) (protos.landed_on e) = Ok j
    ∧ _array_rep s !! (_n s * block Field.landed_on + i)%nat
      = Some (of_int j)
    ∧ to_int (of_int j) = Ok j
    ∧ fget s (Z.of_nat i) Field.landed_on = Ok (VStr (protos.landed_on e)).
Proof.
  intros Hh Hnames Hint.
  destruct (Hh Field.landed_on) as (v & Hv & Hcell).
  { apply (bool_decide_unpack _). by vm_compute. }
  rewrite cell_value_landed_on in Hv.
  destruct (_name_to_index _ (protos.landed_on e)) as [j|] eqn:Hj; [|done].
  injection Hv as <-. exists j.
  destruct (name_to_index_range _ _ _ Hj) as [Hr Hback].
  rewrite Hnames in Hr. split_and!; [done..|by apply Hint|].
  rewrite fget_landed_on, slot_nat, (getitem_nat _ _ _ Hcell). run.
  rewrite (Hint j Hr). run.
  revert Hback. destruct (decide (j = NO_INDEX)); run.
  - by intros [= <-].
  - by intros ->.
Qed.

(** X5: in a state built from a snapshot alone, the view of an entity is
    [landed] exactly when the landed-on name of the entity in the snapshot
    is not empty, and [LandedOn] maps the index of such an entity to the
    first index of the entity of that name, and has no other entries. *)
Theorem landings_of_snapshot (P : protos.PhysicalState F) :
  landings_known P →
  index_exact (length (protos.entities P)) →
  ∃ s m, __init__ None P = Ok s ∧ LandedOn s = Ok m
    ∧ ∀ (i : nat) e, protos.entities P !! i = Some e →
        landed (fget s (Z.of_nat i))
        = Ok (bool_decide (protos.landed_on e ≠ ""))
        ∧ m !! i
          = (if decide (protos.landed_on e = "") then None
             else Z.of_nat <$>
                    list_index (protos.landed_on e)
                      (protos.name <$> protos.entities P)).
Proof.
  intros Hk Hint.
  destruct (init_none_holds P Hk) as (s & Hs & Hp & Hsh & Hholds).
  pose proof (init_built _ _ _ Hs) as (Hn & Hnames & _).
  pose proof Hsh as (_ & Hln & _). rewrite <- Hn in Hint.
  assert (Hread : ∀ (i : nat) e, protos.entities P !! i = Some e →
            ∃ j, _name_to_index (_entity_names s) (protos.landed_on e) = Ok j
              ∧ _array_rep s !! (_n s * block Field.landed_on + i)%nat
                = Some (of_int j)
              ∧ to_int (of_int j) = Ok j
              ∧ fget s (Z.of_nat i) Field.landed_on
                = Ok (VStr (protos.landed_on e))).
  { intros i e He.
    destruct (read_landed_on s i (reduced e)) as (j & Hj & ? & ? & Hget);
      [by apply Hholds|done..|].
    exists j. by destruct e. }
  destruct (landed_on_map_ok s Hsh) as [m Hm].
  { intros i v Hi Hv.
    destruct (lookup_lt_is_Some_2 (protos.entities P) i) as [e He];
      [by rewrite <- Hn|].
    destruct (Hread i e He) as (j & _ & Hcell & Hj & _).
    rewrite Nat.mul_comm, Hcell in Hv. injection Hv as <-. by exists j. }
  exists s, m. split_and!; [done..|]. intros i e He.
  destruct (Hread i e He) as (j & Hidx & Hcell & Hj & Hget).
  assert (Hi : (i < _n s)%nat) by (rewrite Hn; by eapply lookup_lt_Some).
  split.
  - unfold landed. rewrite Hget. run. cbn [is_str]. f_equal.
    by repeat case_bool_decide.
  - rewrite Hnames in Hidx. revert Hidx. unfold _name_to_index.
    destruct (decide (protos.landed_on e = "")) as [He0|He0].
    + rewrite decide_False by (intros Hx; by apply Hx). intros [= <-].
      destruct (m !! i) as [j'|] eqn:Hmi; [|done].
      apply (landed_on_map_spec s m Hsh Hm) in Hmi
        as (_ & v & Hv & Hv' & Hne).
      rewrite Nat.mul_comm, Hcell in Hv. injection Hv as <-. congruence.
    + rewrite decide_True by done.
      destruct (list_index _ _) as [k|] eqn:Hk'; [|done]. intros [= <-].
      cbn. apply (landed_on_map_spec s m Hsh Hm). split; [done|].
      exists (of_int (Z.of_nat k)). rewrite Nat.mul_comm.
      split_and!; [done..|]. unfold NO_INDEX. lia.
Qed.

End Landings.

(** ** The caches that [__init__] fills *)

Section Caches.
Context {F : Type} `{Float64 F}.
Implicit Types (s : PhysicsState F) (P : protos.PhysicalState F).

Lemma enumerate_elem {A} (l : list A) (i : nat) (a : A) :
  (i, a) ∈ enumerate l ↔ l !! i = Some a.
Proof.
  split; [|apply enumerate_lookup].
  unfold enumerate. intros [k Hk]%list_elem_of_lookup.
  apply lookup_zip_with_Some in Hk as (i' & a' & [= <- <-] & Hi & Ha).
  apply lookup_seq in Hi as [-> _]. done.
Qed.

Lemma atmospheres_elem (es : list (protos.Entity F)) (i : nat) :
  i ∈ atmospheres es ↔
  ∃ e, es !! i = Some e
    ∧ to_bool (protos.atmosphere_scaling e) = true
    ∧ to_bool (protos.atmosphere_thickness e) = true.
Proof.
  unfold atmospheres. rewrite list_elem_of_fmap. split.
  - intros ([i' e] & -> & [[? ?] Hin%enumerate_elem]%list_elem_of_filter).
    by exists e.
  - intros (e & He & ? & ?). exists (i, e). split; [done|].
    apply list_elem_of_filter. split; [done|]. by apply enumerate_elem.
Qed.

Lemma init_caches (y : option (list F)) P s :
  __init__ y P = Ok s →
  _entities_with_atmospheres s = atmospheres (protos.entities P)
  ∧ _entity_names s = protos.name <$> protos.entities P
  ∧ protos.entities (_proto_state s) = protos.entities P.
Proof.
  intros Hs. pose proof (init_built _ _ _ Hs) as (_ & Hnames & Hes & _).
  apply init_ok in Hs as (a & p & _ & _ & ->).
  cbn [_entity_names _proto_state _entities_with_atmospheres] in *.
  by rewrite Hes.
Qed.

Lemma fset_caches s (i : Z) (f : Field.t) (val : value F) :
  _entities_with_atmospheres (fset s i f val).1 = _entities_with_atmospheres s
  ∧ _entity_names (fset s i f val).1 = _entity_names s
  ∧ _n (fset s i f val).1 = _n s.
Proof.
  unfold fset. case_bool_decide.
  - unfold entity_view_unchanging_fset.
    by destruct (_ ← getitem _ i; _).
  - destruct (dict_get _ f) as [k|]; [|done].
    unfold entity_view_mutable_fset, store.
    destruct (Field.cpp_type f).
    + by destruct (_ ← as_float64 val; _).
    + by destruct (_ ← as_float64 val; _).
    + case_decide; [|done]. destruct val; try done.
      by destruct (_ ← _ <$> _name_to_index _ w; _).
Qed.

(** X6: [Atmospheres] of a state that [__init__] returns lists exactly
    the indices of the entities of the snapshot whose atmosphere scaling and
    atmosphere thickness are both other than zero, and a write through a
    view, to these two fields or to any other, leaves the list as
    [__init__] computed it. *)
Theorem atmospheres_cached (y : option (list F)) P s :
  __init__ y P = Ok s →
  (∀ i : nat,
     i ∈ Atmospheres s ↔
     ∃ e, protos.entities P !! i = Some e
       ∧ to_bool (protos.atmosphere_scaling e) = true
       ∧ to_bool (protos.atmosphere_thickness e) = true)
  ∧ ∀ (i : Z) (f : Field.t) (val : value F),
      Atmospheres (fset s i f val).1 = Atmospheres s.
Proof.
  intros Hs. destruct (init_caches _ _ _ Hs) as (Ha & _ & _). split.
  - intros i. unfold Atmospheres. rewrite Ha. apply atmospheres_elem.
  - intros i f val. apply fset_caches.
Qed.

(** X7: writing the name of an entity through its view changes the name
    that the view reads and leaves the table of names that [__getitem__]
    searches: the entity is still found under its old name, and not under
    the new one if no entity had it. *)
Theorem rename_keeps_name_table (y : option (list F)) P s (i : nat)
    (old new : string) :
  __init__ y P = Ok s → _entity_names s !! i = Some old →
  ∃ s', fset s (Z.of_nat i) Field.name (VStr new) = (s', Ok tt)
    ∧ fget s' (Z.of_nat i) Field.name = Ok (VStr new)
    ∧ (∀ w, __getitem__ s' (ByName w) = __getitem__ s (ByName w))
    ∧ (new ∉ _entity_names s →
       __getitem__ s' (ByName new)
       = Raise (ValueError (py_repr new +:+ " is not in list"))).
Proof.
  intros Hs Hold. destruct (init_caches _ _ _ Hs) as (_ & Hnames & Hes).
  assert (Hi : (i < length (protos.entities (_proto_state s)))%nat).
  { rewrite Hes, <- (length_fmap protos.name), <- Hnames.
    by eapply lookup_lt_Some. }
  destruct (lookup_lt_is_Some_2 _ _ Hi) as [e He].
  rewrite fset_unchanging by (by vm_compute; repeat constructor).
  unfold entity_view_unchanging_fset.
  rewrite (getitem_nat _ _ _ He). run. cbn [setattr Field.cpp_type]. run.
  rewrite setitem_nat by done.
  eexists. split; [done|]. split_and!.
  - rewrite fget_unchanging by (by vm_compute; repeat constructor).
    unfold entity_view_unchanging_fget, with_proto, with_entities. fields.
    cbn [protos.entities].
    erewrite getitem_nat; [|by apply list_lookup_insert_eq]. run.
    by destruct e.
  - done.
  - intros Hnew%list_index_None. unfold __getitem__, names_index, with_proto.
    fields. by rewrite Hnew.
Qed.

(** X8: in a state that [__init__] returns, looking a name of the snapshot
    up gives the first index that has the name, and the view at that index
    reads the name back. *)
Theorem lookup_by_name (y : option (list F)) P s (w : string) :
  __init__ y P = Ok s → w ∈ (protos.name <$> protos.entities P) →
  ∃ i : nat, __getitem__ s (ByName w) = Ok (Z.of_nat i)
    ∧ fget s (Z.of_nat i) Field.name = Ok (VStr w)
    ∧ ∀ j : nat, (j < i)%nat →
        fget s (Z.of_nat j) Field.name ≠ Ok (VStr w).
Proof.
  intros Hs Hw. destruct (init_caches _ _ _ Hs) as (_ & Hnames & Hes).
  destruct (list_index_elem _ _ Hw) as [i Hi].
  destruct (list_index_first _ _ _ Hi) as [Hiw Hfirst].
  assert (Hname : ∀ j : nat, (j ≤ i)%nat →
            ∃ e, protos.entities P !! j = Some e
              ∧ fget s (Z.of_nat j) Field.name = Ok (VStr (protos.name e))).
  { intros j Hj.
    destruct (lookup_lt_is_Some_2 (protos.entities P) j) as [e He].
    { apply lookup_lt_Some in Hiw. rewrite length_fmap in Hiw. lia. }
    exists e. split; [done|].
    rewrite fget_unchanging by (by vm_compute; repeat constructor).
    unfold entity_view_unchanging_fget. rewrite Hes.
    by rewrite (getitem_nat _ _ _ He). }
  exists i. split_and!.
  - unfold __getitem__, names_index. by rewrite Hnames, Hi.
  - destruct (Hname i) as (e & He & ->); [done|].
    rewrite list_lookup_fmap, He in Hiw. by injection Hiw as ->.
  - intros j Hj. destruct (Hname j) as (e & He & ->); [lia|].
    intros [= Hjw]. apply (Hfirst j Hj).
    by rewrite list_lookup_fmap, He, <- Hjw.
Qed.

End Caches.

(** ** [srb_time] and [time_acc] *)

Section Scalars.
Context {F : Type} `{Float64 F}.
Implicit Types (s : PhysicsState F) (P : protos.PhysicalState F).

Lemma shaped_length s :
  shaped s → length (_array_rep s) = (_n s * 10 + 2)%nat.
Proof. intros (_ & _ & Hl). by rewrite mutable_count in Hl. Qed.

Lemma getitem_srb (a : list F) (n : nat) :
  length a = (n * 10 + 2)%nat →
  getitem a SRB_TIME_INDEX
  = match a !! (n * 10)%nat with Some v => Ok v | None => Raise IndexError end.
Proof.
  intros Hl. unfold getitem, SRB_TIME_INDEX.
  rewrite py_index_neg by lia. run. rewrite Hl.
  by replace (Z.to_nat (Z.of_nat (n * 10 + 2) + -2)) with (n * 10)%nat by lia.
Qed.

Lemma getitem_acc (a : list F) (n : nat) :
  length a = (n * 10 + 2)%nat →
  getitem a TIME_ACC_INDEX
  = match a !! (n * 10 + 1)%nat with
    | Some v => Ok v
    | None => Raise IndexError
    end.
Proof.
  intros Hl. unfold getitem, TIME_ACC_INDEX.
  rewrite py_index_neg by lia. run. rewrite Hl.
  by replace (Z.to_nat (Z.of_nat (n * 10 + 2) + -1))
    with (n * 10 + 1)%nat by lia.
Qed.

Lemma mirrored_lookup s :
  shaped s →
  mirrored s ↔
  _array_rep s !! (_n s * 10)%nat = Some (srb_time s)
  ∧ _array_rep s !! (_n s * 10 + 1)%nat = Some (time_acc s).
Proof.
  intros Hl%shaped_length. unfold mirrored.
  rewrite (getitem_srb _ _ Hl), (getitem_acc _ _ Hl).
  destruct (_ !! (_n s * 10)%nat), (_ !! (_n s * 10 + 1)%nat);
    split; intros [? ?]; split; congruence.
Qed.

Lemma init_mirrored (y : option (list F)) P s :
  __init__ y P = Ok s → mirrored s.
Proof.
  intros Hs. pose proof (init_shaped _ _ _ Hs) as Hsh.
  apply mirrored_lookup; [done|].
  apply init_ok in Hs as (a & p & Hi & Hl & ->).
  unfold srb_time, time_acc. fields.
  set (n := length (protos.entities P)) in *.
  rewrite !lookup_slice_map_out by (vm_compute block; lia).
  destruct y as [y|].
  - revert Hi. unfold ingest.
    destruct (getitem y SRB_TIME_INDEX) as [srb|] eqn:Hsrb; run; [|done].
    destruct (getitem y TIME_ACC_INDEX) as [acc|] eqn:Hacc; run; [|done].
    intros [= <- <-]. cbn [protos.srb_time protos.time_acc].
    rewrite (getitem_srb _ _ Hl) in Hsrb. rewrite (getitem_acc _ _ Hl) in Hacc.
    destruct (y !! (n * 10)%nat), (y !! (n * 10 + 1)%nat); by simplify_eq.
  - pose proof (ingest_none_known _ _ _ Hi) as Hk.
    destruct (ingest_none P Hk) as (a' & Hi' & _ & _ & Hsrb & Hacc).
    rewrite Hi in Hi'. injection Hi' as <- ->. by split.
Qed.

Lemma set_scalar_ok (index : Z) update s (val : value F) (v : F) (k : nat) :
  as_double val = Ok v → py_index (length (_array_rep s)) index = Ok k →
  set_scalar index update s val
  = (with_array (with_proto s (update (_proto_state s) v))
       (<[k := v]> (_array_rep s)), Ok tt).
Proof.
  intros Hv Hk. unfold set_scalar, setitem, with_proto. rewrite Hv.
  cbn zeta. fields. by rewrite Hk.
Qed.

Lemma set_scalar_raises (index : Z) update s (val : value F) err :
  as_double val = Raise err → set_scalar index update s val = (s, Raise err).
Proof. intros Hv. unfold set_scalar. by rewrite Hv. Qed.

Lemma py_index_srb (n : nat) :
  py_index (n * 10 + 2) SRB_TIME_INDEX = Ok (n * 10)%nat.
Proof.
  unfold SRB_TIME_INDEX. rewrite py_index_neg by lia. f_equal. lia.
Qed.

Lemma py_index_acc (n : nat) :
  py_index (n * 10 + 2) TIME_ACC_INDEX = Ok (n * 10 + 1)%nat.
Proof.
  unfold TIME_ACC_INDEX. rewrite py_index_neg by lia. f_equal. lia.
Qed.

Lemma srb_time_set_ok s (val : value F) (v : F) :
  shaped s → as_double val = Ok v →
  srb_time_set s val
  = (with_array
       (with_proto s
          (with_scalars (_proto_state s) v (protos.time_acc (_proto_state s))))
       (<[(_n s * 10)%nat := v]> (_array_rep s)), Ok tt).
Proof.
  intros Hl%shaped_length Hv. unfold srb_time_set.
  rewrite (set_scalar_ok _ _ _ _ v (_n s * 10)); [done..|].
  rewrite Hl. apply py_index_srb.
Qed.

Lemma time_acc_set_ok s (val : value F) (v : F) :
  shaped s → as_double val = Ok v →
  time_acc_set s val
  = (with_array
       (with_proto s
          (with_scalars (_proto_state s) (protos.srb_time (_proto_state s)) v))
       (<[(_n s * 10 + 1)%nat := v]> (_array_rep s)), Ok tt).
Proof.
  intros Hl%shaped_length Hv. unfold time_acc_set.
  rewrite (set_scalar_ok _ _ _ _ v (_n s * 10 + 1)); [done..|].
  rewrite Hl. apply py_index_acc.
Qed.

Lemma as_double_cases (val : value F) :
  (∃ v, as_double val = Ok v) ∨ ∃ err, as_double val = Raise err.
Proof. destruct (as_double val); eauto. Qed.

(** X9: the two numbers at the end of the array and the fields [srb_time]
    and [time_acc] of the owned snapshot go together: [__init__] makes them
    equal, and the setters of [srb_time] and [time_acc] and a write through
    the view of an entity keep them equal, whether the call returns or
    raises. *)
Theorem scalars_stay_mirrored :
  (∀ (y : option (list F)) P s, __init__ y P = Ok s → mirrored s)
  ∧ (∀ s (val : value F), shaped s → mirrored s →
       mirrored (srb_time_set s val).1 ∧ mirrored (time_acc_set s val).1)
  ∧ (∀ s (i : nat) (f : Field.t) (val : value F),
       shaped s → mirrored s → (i < _n s)%nat →
       mirrored (fset s (Z.of_nat i) f val).1).
Proof.
  split_and!.
  - apply init_mirrored.
  - intros s val Hsh Hm.
    pose proof (shaped_length s Hsh) as Hl.
    apply (mirrored_lookup s Hsh) in Hm as [Hsrb Hacc].
    destruct (as_double_cases val) as [[v Hv]|[err Hv]].
    + rewrite (srb_time_set_ok s val v), (time_acc_set_ok s val v) by done.
      cbn [fst].
      split; (apply mirrored_lookup;
        [destruct Hsh as (? & ? & ?);
         unfold shaped, with_array, with_proto, with_scalars; fields;
         cbn [protos.entities]; by rewrite length_insert|]);
        unfold with_array, with_proto, with_scalars, srb_time, time_acc;
        fields; cbn [protos.srb_time protos.time_acc].
      * rewrite list_lookup_insert_eq by lia.
        by rewrite list_lookup_insert_ne by lia.
      * rewrite list_lookup_insert_ne by lia.
        by rewrite list_lookup_insert_eq by lia.
    + unfold srb_time_set, time_acc_set.
      rewrite !(set_scalar_raises _ _ _ _ err) by done.
      cbn [fst]. by split; apply mirrored_lookup.
  - intros s i f val Hsh Hm Hi.
    pose proof (fset_shaped s (Z.of_nat i) f val Hsh) as Hsh'.
    pose proof (shaped_length s Hsh) as Hl.
    apply (mirrored_lookup _ Hsh'). apply (mirrored_lookup s Hsh) in Hm.
    pose proof (fset_caches s (Z.of_nat i) f val) as (_ & _ & ->).
    revert Hsh'. unfold fset. case_bool_decide.
    + unfold entity_view_unchanging_fset.
      by destruct (_ ← getitem _ (Z.of_nat i); _).
    + destruct (dict_get _ f) as [k|] eqn:Hk; [|done].
      assert (Hk10 : (k < 10)%nat).
      { pose proof (block_lt f) as Hb. unfold block in Hb. rewrite Hk in Hb.
        by rewrite mutable_count in Hb. }
      assert (Hstore : ∀ v : result F,
                shaped (store s k (Z.of_nat i) v).1 →
                _array_rep (store s k (Z.of_nat i) v).1 !! (_n s * 10)%nat
                = Some (srb_time (store s k (Z.of_nat i) v).1)
                ∧ _array_rep (store s k (Z.of_nat i) v).1
                  !! (_n s * 10 + 1)%nat
                  = Some (time_acc (store s k (Z.of_nat i) v).1)).
      { intros v _. unfold store. destruct v as [v|]; run; [|done].
        rewrite slot_nat, setitem_nat by (rewrite Hl; nia).
        unfold with_array, srb_time, time_acc. cbn [fst]. fields.
        rewrite !list_lookup_insert_ne by nia. done. }
      unfold entity_view_mutable_fset.
      destruct (Field.cpp_type f); try apply Hstore.
      destruct (decide (f = _LANDED_ON)); [|cbn [fst]; by intros _].
      destruct val; try (cbn [fst]; by intros _). apply Hstore.
Qed.

(** X10: a value given to the setter of [srb_time], or of [time_acc], that
    the [double] field takes travels, as the number it converts to, with the
    y-vector: a state built from [y0] of the state and any snapshot of as
    many entities has that number as its [srb_time], or [time_acc],
    whatever the snapshot says. A value that the field does not take (a
    string, an [int] too large) raises and leaves the state as it is. *)
Theorem scalars_travel_with_y0 s (val : value F) (v : F) P :
  shaped s → as_double val = Ok v →
  length (protos.entities P) = _n s →
  (∃ s2, __init__ (Some (y0 (srb_time_set s val).1)) P = Ok s2
     ∧ srb_time s2 = v)
  ∧ (∃ s2, __init__ (Some (y0 (time_acc_set s val).1)) P = Ok s2
       ∧ time_acc s2 = v)
  ∧ ∀ bad err, as_double bad = Raise err →
      srb_time_set s bad = (s, Raise err)
      ∧ time_acc_set s bad = (s, Raise err).
Proof.
  intros Hsh Hv HP. pose proof (shaped_length s Hsh) as Hl.
  rewrite (srb_time_set_ok s val v), (time_acc_set_ok s val v) by done.
  unfold y0, with_array. cbn [fst]. fields.
  split; [|split];
    [| |intros bad err Hbad; unfold srb_time_set, time_acc_set;
        by rewrite !(set_scalar_raises _ _ _ _ err) by done].
  - set (a := <[(_n s * 10)%nat := v]> (_array_rep s)).
    assert (Hla : length a = (_n s * 10 + 2)%nat)
      by (unfold a; by rewrite length_insert).
    assert (Hsrb : getitem a SRB_TIME_INDEX = Ok v).
    { rewrite (getitem_srb _ _ Hla). unfold a.
      by rewrite list_lookup_insert_eq by lia. }
    destruct (getitem_from_end a TIME_ACC_INDEX) as (acc & _ & Hacc);
      [unfold TIME_ACC_INDEX; lia|].
    eexists. split.
    + apply init_ok. do 2 eexists. split; [|split; [|reflexivity]].
      * unfold ingest. rewrite Hsrb, Hacc. reflexivity.
      * by rewrite HP.
    + done.
  - set (a := <[(_n s * 10 + 1)%nat := v]> (_array_rep s)).
    assert (Hla : length a = (_n s * 10 + 2)%nat)
      by (unfold a; by rewrite length_insert).
    assert (Hacc : getitem a TIME_ACC_INDEX = Ok v).
    { rewrite (getitem_acc _ _ Hla). unfold a.
      by rewrite list_lookup_insert_eq by lia. }
    destruct (getitem_from_end a SRB_TIME_INDEX) as (srb & _ & Hsrb);
      [unfold SRB_TIME_INDEX; lia|].
    eexists. split.
    + apply init_ok. do 2 eexists. split; [|split; [|reflexivity]].
      * unfold ingest. rewrite Hsrb, Hacc. reflexivity.
      * by rewrite HP.
    + done.
Qed.

End Scalars.

(** ** Indices that [__getitem__] does not check *)

Section Unchecked.
Context {F : Type} `{Float64 F}.
Implicit Types (s : PhysicsState F).

(** X11: [__getitem__] hands out a view for any integer. For a view at
    [n + j], past the last entity, an unchanging field raises [IndexError],
    but a numeric field reads the slot of entity [j] in the block that
    follows its own; and the field [x] of the view at [-1] is the last
    number of the array, the slot of [time_acc]. *)
Theorem view_index_unchecked s (j : nat) :
  shaped s → (j < _n s)%nat →
  (∀ i : Z, __getitem__ s (ByIndex i) = Ok i)
  ∧ (∀ u, u ∈ _PER_ENTITY_UNCHANGING_FIELDS →
       fget s (Z.of_nat (_n s + j)) u = Raise IndexError)
  ∧ (∀ f g, mutable f → numeric f → mutable g → numeric g →
       block g = S (block f) →
       fget s (Z.of_nat (_n s + j)) f = fget s (Z.of_nat j) g)
  ∧ fget s (-1) Field.x = VFloat <$> getitem (_array_rep s) TIME_ACC_INDEX.
Proof.
  intros Hsh Hj. split_and!.
  - done.
  - intros u Hu. rewrite fget_unchanging by done.
    unfold entity_view_unchanging_fget, getitem, py_index.
    destruct Hsh as (-> & _).
    rewrite !bool_decide_eq_false_2 by lia. done.
  - intros f g Hf Hnf Hg Hng Hb.
    rewrite !fget_numeric, !slot_nat by done. rewrite Hb.
    do 3 f_equal. lia.
  - rewrite fget_numeric by (done || apply (bool_decide_unpack _); by vm_compute).
    f_equal. f_equal. unfold slot, TIME_ACC_INDEX.
    change (block Field.x) with 0%nat. lia.
Qed.

End Unchecked.

(** ** More on replacing an entity *)

Section ReplaceMore.
Context {F : Type} `{Float64 F}.
Implicit Types (s : PhysicsState F) (src : protos.Entity F).

(** X12: [self[w] = val] for a name [w]: a view of [self] is let through
    without looking [w] up, so also for a name that no entity has; any other
    value with such a name raises the [ValueError] of [list.index] and
    leaves the state as it is; and with a name that an entity has it is
    [self[i] = val] for the first index [i] of the name. *)
Theorem setitem_by_name s (w : string) (val : entity) :
  (is_view_of_self val = true → __setitem__ s (ByName w) val = (s, Ok tt))
  ∧ (is_view_of_self val = false → w ∉ _entity_names s →
     __setitem__ s (ByName w) val
     = (s, Raise (ValueError (py_repr w +:+ " is not in list"))))
  ∧ (∀ i : nat, list_index w (_entity_names s) = Some i →
     __setitem__ s (ByName w) val
     = __setitem__ s (ByIndex (Z.of_nat i)) val).
Proof.
  unfold __setitem__. split_and!.
  - by intros ->.
  - intros -> Hw%list_index_None. cbn [__getitem__]. unfold names_index.
    by rewrite Hw.
  - intros i Hi. cbn [__getitem__]. unfold names_index. by rewrite Hi.
Qed.

Lemma assign_all_app s (index : Z) (l1 l2 : list (Field.t * value F)) :
  assign_all s index (l1 ++ l2)
  = match assign_all s index l1 with
    | (s1, Ok _) => assign_all s1 index l2
    | (s1, Raise err) => (s1, Raise err)
    end.
Proof.
  revert s. induction l1 as [|[f v] l1 IH]; intros s; [done|].
  cbn [app assign_all]. destruct (fset s index f v) as [s1 [[]|err]]; [|done].
  apply IH.
Qed.

(** The numeric fields among the fields that [__setitem__] assigns: those
    before [landed_on]. *)
Lemma assigned_split :
  assigned_fields
  = [Field.x; Field.y; Field.vx; Field.vy; Field.heading; Field.spin;
     Field.fuel; Field.throttle] ++ [Field.landed_on; Field.broken].
Proof. done. Qed.

Lemma numeric_mutable_first (f : Field.t) :
  mutable f → numeric f →
  f ∈ [Field.x; Field.y; Field.vx; Field.vy; Field.heading; Field.spin;
       Field.fuel; Field.throttle].
Proof.
  intros Hm Hn. unfold mutable in Hm.
  repeat (apply elem_of_cons in Hm as [->|Hm];
    [done || (apply (bool_decide_unpack _); by vm_compute)|]).
  by apply elem_of_nil in Hm.
Qed.

(** X13: [self[i] = e] for an [Entity] [e] whose landed-on name is not
    empty and is the name of no entity of [self] raises [NoEntityError],
    after it has assigned the numeric fields: slot [i] then reads the
    numeric fields of [e], and its [landed_on] and [broken] are as
    before. *)
Theorem setitem_stops_at_landed_on s (i : nat) src :
  shaped s → (i < _n s)%nat →
  protos.landed_on src ≠ "" → protos.landed_on src ∉ _entity_names s →
  ∃ s', __setitem__ s (ByIndex (Z.of_nat i)) (Entity src)
        = (s', Raise
                 (NoEntityError
                    (protos.landed_on src +:+ " not in entity list")))
    ∧ (∀ f, mutable f → numeric f →
         fget s' (Z.of_nat i) f = Ok (getattr src f))
    ∧ fget s' (Z.of_nat i) Field.landed_on = fget s (Z.of_nat i) Field.landed_on
    ∧ fget s' (Z.of_nat i) Field.broken = fget s (Z.of_nat i) Field.broken
    ∧ _proto_state s' = _proto_state s.
Proof.
  intros Hsh Hi Hne Habs.
  set (l8 := [Field.x; Field.y; Field.vx; Field.vy; Field.heading; Field.spin;
              Field.fuel; Field.throttle]).
  destruct (assign_all_stores i src l8) with (s := s)
    as (a & Hrun & Hlen & Hin & Hout); [| |done|done| |].
  { apply (bool_decide_unpack _). by vm_compute. }
  { intros f Hf. repeat (apply elem_of_cons in Hf as [->|Hf];
      [apply (bool_decide_unpack _); by vm_compute|]).
    by apply elem_of_nil in Hf. }
  { intros f Hf. repeat (apply elem_of_cons in Hf as [->|Hf]; [by eexists|]).
    by apply elem_of_nil in Hf. }
  exists (with_array s a). split_and!.
  - unfold __setitem__. cbn [is_view_of_self __getitem__]. run.
    rewrite (map_result_total _ (getattr src)) by done. run.
    rewrite assigned_split, fmap_app.
    rewrite zip_with_app by done. rewrite assign_all_app.
    fold l8. change (zip_with pair l8 (getattr src <$> l8))
      with (zip l8 (getattr src <$> l8)).
    rewrite Hrun. cbn [fmap list_fmap zip_with assign_all].
    change (getattr src Field.landed_on)
      with (VStr (F := F) (protos.landed_on src)).
    rewrite fset_landed_on. unfold with_array at 2. fields.
    by rewrite name_to_index_absent.
  - intros f Hm Hn. destruct (Hin f) as (v & Hv & Hcell).
    { by apply numeric_mutable_first. }
    rewrite fget_numeric, slot_nat by done.
    unfold with_array. fields. rewrite (getitem_nat _ _ _ Hcell). run.
    rewrite cell_value_plain in Hv by (by intros ->).
    destruct f; try done; by injection Hv as <-.
  - rewrite !fget_landed_on, !slot_nat. unfold with_array. fields.
    rewrite (getitem_lookup_eq a (_array_rep s)); [done..|].
    apply Hout. intros f Hf Heq.
    assert (block Field.landed_on = block f) by nia.
    repeat (apply elem_of_cons in Hf as [->|Hf]; [done|]).
    by apply elem_of_nil in Hf.
  - rewrite !fget_broken, !slot_nat. unfold with_array. fields.
    rewrite (getitem_lookup_eq a (_array_rep s)); [done..|].
    apply Hout. intros f Hf Heq.
    assert (block Field.broken = block f) by nia.
    repeat (apply elem_of_cons in Hf as [->|Hf]; [done|]).
    by apply elem_of_nil in Hf.
  - done.
Qed.

End ReplaceMore.

(** ** [as_proto] and the views *)

Section Externalize.
Context {F : Type} `{Float64 F}.
Implicit Types (s : PhysicsState F) (e : protos.Entity F).

Lemma fget_kind s (i : Z) (f : Field.t) (val : value F) :
  mutable f → fget s i f = Ok val → kind_ok f val.
Proof.
  intros Hm. destruct (decide (f = Field.landed_on)) as [->|Hl];
    [|destruct (decide (f = Field.broken)) as [->|Hb]].
  - rewrite fget_landed_on.
    destruct (getitem _ _) as [v|]; run; [|done].
    destruct (to_int v) as [j|]; run; [|done].
    destruct (decide (j = NO_INDEX)); [by intros [= <-]|].
    destruct (getitem _ j); run; [|done]. by intros [= <-].
  - rewrite fget_broken. destruct (getitem _ _); run; [|done].
    by intros [= <-].
  - assert (Hn : numeric f).
    { unfold mutable in Hm.
      repeat (apply elem_of_cons in Hm as [->|Hm]; [done|]).
      by apply elem_of_nil in Hm. }
    rewrite fget_numeric by done. destruct (getitem _ _); run; [|done].
    intros [= <-]. unfold kind_ok. by rewrite Hn.
Qed.

Lemma setattr_all_spec (fvs : list (Field.t * value F)) :
  NoDup fvs.*1 → (∀ f val, (f, val) ∈ fvs → kind_ok f val) →
  ∀ e, ∃ e', setattr_all e fvs = Ok e'
    ∧ (∀ f val, (f, val) ∈ fvs → getattr e' f = val)
    ∧ (∀ g, g ∉ fvs.*1 → getattr e' g = getattr e g).
Proof.
  induction fvs as [|[f val] fvs IH]; intros Hnd Hkind e.
  - exists e. split_and!; [done| |done].
    intros f val Hin. by apply elem_of_nil in Hin.
  - apply NoDup_cons in Hnd as [Hf Hnd].
    destruct (setattr_kind e f val) as (e1 & He1 & Hsame & Hother).
    { apply Hkind. left. }
    destruct (IH Hnd (λ g v Hg, Hkind g v ltac:(by right)) e1)
      as (e' & He' & Hin & Hout).
    exists e'. cbn [setattr_all]. rewrite He1. run. split_and!; [done| |].
    + intros g v [[= -> ->]|Hg]%elem_of_cons; [|by apply Hin].
      by rewrite Hout.
    + intros g Hg. cbn [fmap list_fmap fst] in Hg.
      apply not_elem_of_cons in Hg as [Hgf Hg].
      rewrite Hout by done. by apply Hother.
Qed.

Lemma map_result_exists {A B} (g : A → result B) (l : list A) :
  (∀ a, a ∈ l → ∃ b, g a = Ok b) → ∃ l', map_result g l = Ok l'.
Proof.
  induction l as [|a l IH]; intros Hg; [by eexists|].
  destruct (Hg a ltac:(left)) as [b Hb].
  destruct IH as [l' Hl']. { intros a' Ha'. apply Hg. by right. }
  exists (b :: l'). cbn [map_result]. rewrite Hb. run. by rewrite Hl'.
Qed.

(** What [as_proto] makes of one entity. *)
Lemma as_proto_entity s (i : Z) e e' :
  (vals ← map_result (fget s i) assigned_fields;
   setattr_all e (zip assigned_fields vals)) = Ok e' →
  (∀ f, mutable f → fget s i f = Ok (getattr e' f))
  ∧ (∀ u, u ∈ _PER_ENTITY_UNCHANGING_FIELDS → getattr e' u = getattr e u).
Proof.
  destruct (map_result _ assigned_fields) as [vals|] eqn:Hvals; run; [|done].
  intros He'.
  pose proof (map_result_length _ _ _ Hvals) as Hlen.
  assert (Hzip : ∀ f val, (f, val) ∈ zip assigned_fields vals →
            mutable f ∧ fget s i f = Ok val).
  { intros f val [k Hk]%list_elem_of_lookup.
    apply lookup_zip_with_Some in Hk as (f' & v' & [= <- <-] & Hf & Hv).
    destruct (map_result_lookup _ _ _ _ _ Hvals Hf) as (b & Hb & Hb').
    split; [|congruence].
    apply assigned_mutable, list_elem_of_lookup. by exists k. }
  assert (Hfst : (zip assigned_fields vals).*1 = assigned_fields).
  { apply fst_zip. rewrite Hlen. done. }
  destruct (setattr_all_spec (zip assigned_fields vals)) with (e := e)
    as (e2 & He2 & Hin & Hout).
  { rewrite Hfst. apply (bool_decide_unpack _). by vm_compute. }
  { intros f val Hfv. destruct (Hzip f val Hfv). by eapply fget_kind. }
  assert (e2 = e') as -> by congruence.
  split.
  - intros f Hm.
    assert (Hf : f ∈ (zip assigned_fields vals).*1) by (by rewrite Hfst).
    apply list_elem_of_fmap in Hf as ([f' val] & -> & Hfv).
    cbn [fst]. destruct (Hzip _ _ Hfv) as [_ ->]. f_equal. symmetry.
    by apply Hin.
  - intros u Hu. apply Hout. rewrite Hfst.
    intros Hm. by apply mutable_not_unchanging in Hm.
Qed.

(** What [as_proto] returns, read against the views. *)
Lemma as_proto_views s P' :
  shaped s → as_proto s = Ok P' →
  P' = with_entities (_proto_state s) (protos.entities P')
  ∧ length (protos.entities P') = _n s
  ∧ ∀ (i : nat) e', protos.entities P' !! i = Some e' →
      ∀ f, fget s (Z.of_nat i) f = Ok (getattr e' f).
Proof.
  intros Hsh. pose proof Hsh as (Hes & Hln & _).
  unfold as_proto, __iter__.
  destruct (map_result _ _) as [es|] eqn:Hmap; run; [|done].
  intros [= <-]. cbn [protos.entities with_entities].
  pose proof (map_result_length _ _ _ Hmap) as Hlen.
  rewrite length_zip_with, length_fmap, length_seq, Hes in Hlen.
  rewrite Nat.min_id in Hlen.
  split_and!; [done..|].
  intros i e' He'.
  assert (Hi : (i < _n s)%nat) by (rewrite <- Hlen; by eapply lookup_lt_Some).
  destruct (lookup_lt_is_Some_2 (protos.entities (_proto_state s)) i)
    as [e He]; [lia|].
  assert (Hz : zip (Z.of_nat <$> seq 0 (_n s))
                 (protos.entities (_proto_state s)) !! i
               = Some (Z.of_nat i, e)).
  { apply lookup_zip_with_Some. exists (Z.of_nat i), e.
    split_and!; [done| |done].
    rewrite list_lookup_fmap, lookup_seq_lt by done. done. }
  destruct (map_result_lookup _ _ _ _ _ Hmap Hz) as (e2 & He2 & He2').
  assert (e2 = e') as -> by congruence.
  apply as_proto_entity in He2 as [Hmut Hunch].
  intros f. destruct (decide (f ∈ _PER_ENTITY_UNCHANGING_FIELDS)) as [Hu|Hu].
  - rewrite fget_unchanging by done. unfold entity_view_unchanging_fget.
    rewrite (getitem_nat _ _ _ He). run. by rewrite Hunch.
  - apply Hmut. by apply mutable_not_unchanging.
Qed.

(** [as_proto] returns a snapshot when the landed-on field can be read
    through every view. *)
Lemma as_proto_returns s :
  shaped s →
  (∀ i : nat, (i < _n s)%nat →
     ∃ w, fget s (Z.of_nat i) Field.landed_on = Ok w) →
  ∃ P', as_proto s = Ok P'.
Proof.
  intros Hsh Hland. unfold as_proto, __iter__.
  destruct (map_result_exists
              (λ '(entity_data, entity),
                 vals ← map_result (fget s entity_data) assigned_fields;
                 setattr_all entity (zip assigned_fields vals))
              (zip (Z.of_nat <$> seq 0 (_n s))
                 (protos.entities (_proto_state s)))) as [es Hmap].
  { intros [i' e] [k Hk]%list_elem_of_lookup.
    apply lookup_zip_with_Some in Hk as (i2 & e2 & [= <- <-] & Hi & He).
    rewrite list_lookup_fmap in Hi.
    destruct (seq 0 (_n s) !! k) as [k'|] eqn:Hk'; [|done].
    apply lookup_seq in Hk' as [-> Hk']. injection Hi as <-.
    cbn [Nat.add] in *.
    destruct (map_result_exists (fget s (Z.of_nat k)) assigned_fields)
      as [vals Hvals].
    { intros f Hf%assigned_mutable.
      destruct (decide (f = Field.landed_on)) as [->|Hl]; [by apply Hland|].
      destruct (cell_lookup s f k Hsh Hk') as [v Hv].
      rewrite Nat.mul_comm in Hv.
      destruct (decide (f = Field.broken)) as [->|Hb].
      - rewrite fget_broken, slot_nat, (getitem_nat _ _ _ Hv). by eexists.
      - assert (Hn : numeric f).
        { unfold mutable in Hf.
          repeat (apply elem_of_cons in Hf as [->|Hf]; [done|]).
          by apply elem_of_nil in Hf. }
        rewrite fget_numeric, slot_nat, (getitem_nat _ _ _ Hv) by done.
        by eexists. }
    rewrite Hvals. run.
    pose proof (map_result_length _ _ _ Hvals) as Hlen.
    destruct (setattr_all_spec (zip assigned_fields vals)) with (e := e)
      as (e' & He' & _).
    { rewrite fst_zip by (by rewrite Hlen).
      apply (bool_decide_unpack _). by vm_compute. }
    { intros f val [j Hj]%list_elem_of_lookup.
      apply lookup_zip_with_Some in Hj as (f' & v' & [= <- <-] & Hf & Hv).
      destruct (map_result_lookup _ _ _ _ _ Hvals Hf) as (b & Hb & Hb').
      apply (fget_kind s (Z.of_nat k)); [|congruence].
      apply assigned_mutable, list_elem_of_lookup. by exists j. }
    by exists e'. }
  rewrite Hmap. run. by eexists.
Qed.

(** X14: the snapshot that [as_proto] returns agrees with the views: it
    has the scalar fields of the owned snapshot and as many entities, and
    each field of its entity [i] is what the view of entity [i] reads.
    [as_proto] returns one whenever the landed-on field can be read
    through every view. *)
Theorem as_proto_matches_views s :
  shaped s →
  (∀ P', as_proto s = Ok P' →
     P' = with_entities (_proto_state s) (protos.entities P')
     ∧ length (protos.entities P') = _n s
     ∧ ∀ (i : nat) e', protos.entities P' !! i = Some e' →
         ∀ f, fget s (Z.of_nat i) f = Ok (getattr e' f))
  ∧ ((∀ i : nat, (i < _n s)%nat →
        ∃ w, fget s (Z.of_nat i) Field.landed_on = Ok w) →
     ∃ P', as_proto s = Ok P').
Proof.
  intros Hsh. split.
  - intros P'. by apply as_proto_views.
  - by apply as_proto_returns.
Qed.

End Externalize.

(** ** Positions, velocities and the convenience lookups *)

Section Pairs.
Context {F : Type} `{Float64 F}.
Implicit Types (s : PhysicsState F).

Lemma fset_cell s (i : nat) (f : Field.t) (val : value F) (w : F) :
  shaped s → (i < _n s)%nat → mutable f → numeric f →
  as_float64 val = Ok w →
  fset s (Z.of_nat i) f val
  = (with_array s (<[(_n s * block f + i)%nat := w]> (_array_rep s)), Ok tt).
Proof.
  intros Hsh Hi Hm Hn Hw. rewrite fset_numeric, Hw by done. by apply store_ok.
Qed.

Lemma getitem_0 {A} (a : A) (l : list A) : getitem (a :: l) 0 = Ok a.
Proof.
  unfold getitem, py_index. cbn [length].
  by rewrite bool_decide_eq_true_2 by lia.
Qed.

Lemma getitem_1 {A} (a b : A) (l : list A) : getitem (a :: b :: l) 1 = Ok b.
Proof.
  unfold getitem, py_index. cbn [length].
  by rewrite bool_decide_eq_true_2 by lia.
Qed.

(** A write to one slot of the array is seen by the view of entity [j]
    through the field of that slot only. *)
Lemma fget_frame s (k j : nat) (g : Field.t) (w : F) :
  k ≠ (_n s * block g + j)%nat →
  fget (with_array s (<[k := w]> (_array_rep s))) (Z.of_nat j) g
  = fget s (Z.of_nat j) g.
Proof.
  intros Hk.
  destruct (decide (g ∈ _PER_ENTITY_UNCHANGING_FIELDS)) as [Hu|Hu].
  { by rewrite !fget_unchanging by done. }
  apply mutable_not_unchanging in Hu.
  destruct (decide (g = Field.landed_on)) as [->|Hl];
    [|destruct (decide (g = Field.broken)) as [->|Hb]].
  - rewrite !fget_landed_on, !slot_nat. unfold with_array. fields.
    by rewrite getitem_insert_ne.
  - rewrite !fget_broken, !slot_nat. unfold with_array. fields.
    by rewrite getitem_insert_ne.
  - assert (Hn : numeric g).
    { unfold mutable in Hu.
      repeat (apply elem_of_cons in Hu as [->|Hu]; [done|]).
      by apply elem_of_nil in Hu. }
    rewrite !fget_numeric, !slot_nat by done. unfold with_array. fields.
    by rewrite getitem_insert_ne.
Qed.

Lemma fget_written s (i : nat) (f : Field.t) (w : F) :
  shaped s → (i < _n s)%nat → mutable f → numeric f →
  fget (with_array s (<[(_n s * block f + i)%nat := w]> (_array_rep s)))
    (Z.of_nat i) f
  = Ok (VFloat w).
Proof.
  intros Hsh Hi Hm Hn. rewrite fget_numeric, slot_nat by done.
  unfold with_array. fields.
  rewrite (getitem_nat _ _ w); [done|].
  apply list_lookup_insert_eq. by apply slot_in_range.
Qed.

Lemma with_array_shaped s (k : nat) (w : F) :
  shaped s → shaped (with_array s (<[k := w]> (_array_rep s))).
Proof.
  intros (? & ? & ?). unfold shaped, with_array. fields.
  by rewrite length_insert.
Qed.

(** X15: a position (likewise a velocity) assigned through the view of
    entity [i], as two values that convert to numbers, is read back through
    it, and no other pair of that entity or of another entity of the state
    changes; elements of the coordinates after the second are ignored. With
    one coordinate only the assignment raises [IndexError] after it has
    written [x], and with none before it has written anything. A first
    coordinate that does not convert raises and leaves the state as it
    is. *)
Theorem pos_round_trip s (i : nat) (c0 c1 : value F) (rest : list (value F))
    (w0 w1 : F) :
  shaped s → (i < _n s)%nat →
  as_float64 c0 = Ok w0 → as_float64 c1 = Ok w1 →
  (∃ s', pos_set s (Z.of_nat i) (c0 :: c1 :: rest) = (s', Ok tt)
     ∧ pos_get (fget s' (Z.of_nat i)) = Ok (VFloat w0, VFloat w1)
     ∧ v_get (fget s' (Z.of_nat i)) = v_get (fget s (Z.of_nat i))
     ∧ ∀ j : nat, (j < _n s)%nat → j ≠ i →
         pos_get (fget s' (Z.of_nat j)) = pos_get (fget s (Z.of_nat j)))
  ∧ (∃ s', v_set s (Z.of_nat i) (c0 :: c1 :: rest) = (s', Ok tt)
     ∧ v_get (fget s' (Z.of_nat i)) = Ok (VFloat w0, VFloat w1)
     ∧ pos_get (fget s' (Z.of_nat i)) = pos_get (fget s (Z.of_nat i))
     ∧ ∀ j : nat, (j < _n s)%nat → j ≠ i →
         v_get (fget s' (Z.of_nat j)) = v_get (fget s (Z.of_nat j)))
  ∧ (∃ s', pos_set s (Z.of_nat i) [c0] = (s', Raise IndexError)
     ∧ fget s' (Z.of_nat i) Field.x = Ok (VFloat w0)
     ∧ fget s' (Z.of_nat i) Field.y = fget s (Z.of_nat i) Field.y)
  ∧ pos_set s (Z.of_nat i) [] = (s, Raise IndexError)
  ∧ ∀ bad err coords, as_float64 bad = Raise err →
      pos_set s (Z.of_nat i) (bad :: coords) = (s, Raise err)
      ∧ v_set s (Z.of_nat i) (bad :: coords) = (s, Raise err).
Proof.
  intros Hsh Hi H0 H1.
  assert (Hpair : ∀ f0 f1 : Field.t,
            mutable f0 → numeric f0 → mutable f1 → numeric f1 →
            block f0 ≠ block f1 →
            ∃ s', set_pair f0 f1 s (Z.of_nat i) (c0 :: c1 :: rest)
                  = (s', Ok tt)
              ∧ fget s' (Z.of_nat i) f0 = Ok (VFloat w0)
              ∧ fget s' (Z.of_nat i) f1 = Ok (VFloat w1)
              ∧ ∀ (j : nat) g,
                  (_n s * block g + j ≠ _n s * block f0 + i)%nat →
                  (_n s * block g + j ≠ _n s * block f1 + i)%nat →
                  fget s' (Z.of_nat j) g = fget s (Z.of_nat j) g).
  { intros f0 f1 Hm0 Hn0 Hm1 Hn1 Hb.
    set (s1 := with_array s (<[(_n s * block f0 + i)%nat := w0]>
                               (_array_rep s))).
    assert (Hsh1 : shaped s1) by (by apply with_array_shaped).
    exists (with_array s1 (<[(_n s1 * block f1 + i)%nat := w1]>
                             (_array_rep s1))).
    split_and!.
    - unfold set_pair. rewrite getitem_0, getitem_1.
      rewrite (fset_cell s i f0 c0 w0) by done. fold s1.
      by rewrite (fset_cell s1 i f1 c1 w1) by done.
    - rewrite fget_frame by (cbn [_n s1 with_array]; nia).
      by apply fget_written.
    - by apply fget_written.
    - intros j g Hg0 Hg1.
      rewrite fget_frame by (cbn [_n s1 with_array]; lia).
      subst s1. by rewrite fget_frame by lia. }
  assert (Hx : mutable Field.x ∧ numeric Field.x) by (split; [|done];
    apply (bool_decide_unpack _); by vm_compute).
  assert (Hy : mutable Field.y ∧ numeric Field.y) by (split; [|done];
    apply (bool_decide_unpack _); by vm_compute).
  assert (Hvx : mutable Field.vx ∧ numeric Field.vx) by (split; [|done];
    apply (bool_decide_unpack _); by vm_compute).
  assert (Hvy : mutable Field.vy ∧ numeric Field.vy) by (split; [|done];
    apply (bool_decide_unpack _); by vm_compute).
  assert (Hbx : block Field.x = 0%nat) by done.
  assert (Hby : block Field.y = 1%nat) by done.
  assert (Hbvx : block Field.vx = 2%nat) by done.
  assert (Hbvy : block Field.vy = 3%nat) by done.
  split_and!.
  - destruct (Hpair Field.x Field.y) as (s' & Hs' & Hg0 & Hg1 & Hfr);
      [tauto..|by rewrite Hbx, Hby|].
    exists s'. split_and!; [done| | |].
    + unfold pos_get. by rewrite Hg0, Hg1.
    + unfold v_get. by rewrite !Hfr by (rewrite ?Hbx, ?Hby, ?Hbvx, ?Hbvy; lia).
    + intros j Hjn Hj. unfold pos_get.
      by rewrite !Hfr by (rewrite ?Hbx, ?Hby, ?Hbvx, ?Hbvy; lia).
  - destruct (Hpair Field.vx Field.vy) as (s' & Hs' & Hg0 & Hg1 & Hfr);
      [tauto..|by rewrite Hbvx, Hbvy|].
    exists s'. split_and!; [done| | |].
    + unfold v_get. by rewrite Hg0, Hg1.
    + unfold pos_get. by rewrite !Hfr by (rewrite ?Hbx, ?Hby, ?Hbvx, ?Hbvy; lia).
    + intros j Hjn Hj. unfold v_get.
      by rewrite !Hfr by (rewrite ?Hbx, ?Hby, ?Hbvx, ?Hbvy; lia).
  - eexists. split_and!.
    + unfold pos_set, set_pair. rewrite getitem_0.
      rewrite (fset_cell s i Field.x c0 w0) by tauto. reflexivity.
    + apply fget_written; tauto.
    + apply fget_frame. rewrite Hbx, Hby. nia.
  - done.
  - intros bad err coords Hbad. unfold pos_set, v_set, set_pair.
    rewrite getitem_0. by rewrite !fset_numeric, Hbad by tauto.
Qed.

End Pairs.

(** ** The craft, the reference and the target *)

Section Convenience.
Context {F : Type} `{Float64 F}.
Implicit Types (s : PhysicsState F).

Lemma craft_named s (w : string) :
  craft s = Ok (Some w) →
  (w = common.HABITAT ∨ w = common.AYSE) ∧ w ∈ _entity_names s.
Proof.
  unfold craft.
  destruct (decide (common.AYSE ∈ _entity_names s)) as [Ha|Ha].
  - rewrite (bool_decide_eq_false_2 (common.AYSE ∉ _)) by auto.
    rewrite andb_false_r.
    destruct (_name_to_index _ common.HABITAT) as [hab|] eqn:Hhab; run;
      [|done].
    assert (Hh : common.HABITAT ∈ _entity_names s).
    { revert Hhab. unfold _name_to_index. rewrite decide_True by done.
      destruct (list_index _ _) as [i|] eqn:Hi; [|done]. intros _.
      apply list_index_Some in Hi. apply list_elem_of_lookup. by exists i. }
    destruct (_name_to_index _ common.AYSE); run; [|done].
    destruct (_y_component s Field.landed_on); run; [|done].
    destruct (getitem _ hab) as [v|]; run; [|done].
    destruct (eq_int v _); intros [= <-]; split; auto.
  - rewrite (bool_decide_eq_true_2 (common.AYSE ∉ _)) by done.
    rewrite andb_true_r. case_bool_decide as Hh; [done|].
    intros [= <-]. split; [by left|done].
Qed.

(** X16: [craft_entity] returns the view of the first entity that has the
    name [craft] returns, which is Habitat or AYSE; without a craft, when
    [craft] returns [None], it raises [TypeError], and an error of [craft]
    is passed on. *)
Theorem craft_entity_view s :
  (∀ w, craft s = Ok (Some w) →
     (w = common.HABITAT ∨ w = common.AYSE)
     ∧ ∃ i : nat, craft_entity s = Ok (Z.of_nat i)
         ∧ _entity_names s !! i = Some w
         ∧ ∀ j : nat, (j < i)%nat → _entity_names s !! j ≠ Some w)
  ∧ (common.HABITAT ∉ _entity_names s → common.AYSE ∉ _entity_names s →
     craft_entity s = Raise TypeError)
  ∧ (∀ err, craft s = Raise err → craft_entity s = Raise err).
Proof.
  split_and!.
  - intros w Hw. destruct (craft_named s w Hw) as [Hor Hin].
    split; [done|].
    destruct (list_index_elem w _ Hin) as [i Hi].
    exists i. unfold craft_entity. rewrite Hw. run.
    unfold __getitem__, names_index. rewrite Hi.
    split; [done|]. by apply list_index_first.
  - intros Hh Ha. unfold craft_entity. by rewrite craft_neither.
  - intros err Herr. unfold craft_entity. by rewrite Herr.
Qed.

(** X17: the reference and the target are names kept in the snapshot only:
    setting one leaves the other, the y-vector and the name table alone,
    takes a string only ([TypeError] otherwise, and nothing changes), and
    does not check the name against the name table; it is
    [reference_entity], or [target_entity], that raises [ValueError] for a
    name no entity has, and returns the view of the first entity of that
    name otherwise. *)
Theorem reference_and_target s (val : value F) :
  (∀ w, val = VStr w →
     let r := (reference_set s val).1 in
     let t := (target_set s val).1 in
     (reference_set s val).2 = Ok tt ∧ (target_set s val).2 = Ok tt
     ∧ reference r = w ∧ target r = target s
     ∧ target t = w ∧ reference t = reference s
     ∧ y0 r = y0 s ∧ y0 t = y0 s
     ∧ _entity_names r = _entity_names s ∧ _entity_names t = _entity_names s
     ∧ reference_entity r = __getitem__ s (ByName w)
     ∧ target_entity t = __getitem__ s (ByName w)
     ∧ ((w ∉ _entity_names s) →
        reference_entity r = Raise (ValueError (py_repr w +:+ " is not in list")))
     ∧ ∀ i : nat, list_index w (_entity_names s) = Some i →
         reference_entity r = Ok (Z.of_nat i)
         ∧ fget r (Z.of_nat i) Field.name = fget s (Z.of_nat i) Field.name)
  ∧ ((∀ w, val ≠ VStr w) →
     reference_set s val = (s, Raise TypeError)
     ∧ target_set s val = (s, Raise TypeError)).
Proof.
  split.
  - intros w -> r t. subst r t. cbn [reference_set target_set fst snd].
    split_and!; try done.
    + intros Hw%list_index_None. unfold reference_entity, reference.
      unfold with_proto, with_names. fields. cbn [protos.reference].
      unfold __getitem__, names_index. fields. by rewrite Hw.
    + intros i Hi. split.
      * unfold reference_entity, reference, with_proto, with_names. fields.
        cbn [protos.reference]. unfold __getitem__, names_index. fields.
        by rewrite Hi.
      * done.
  - intros Hval. destruct val; try done. by destruct (Hval w).
Qed.

End Convenience.

(** ** States built from a y-vector *)

Section FromVector.
Context {F : Type} `{Float64 F}.
Implicit Types (P : protos.PhysicalState F) (s : PhysicsState F).

(** [__init__] accepts a y-vector of the right length, whatever it holds. *)
Lemma init_some_ok (y : list F) P :
  let n := length (protos.entities P) in
  length y = (n * 10 + 2)%nat →
  ∃ s srb acc, __init__ (Some y) P = Ok s
    ∧ getitem y SRB_TIME_INDEX = Ok srb
    ∧ getitem y TIME_ACC_INDEX = Ok acc
    ∧ _proto_state s = with_scalars P srb acc
    ∧ _n s = n
    ∧ _entity_names s = protos.name <$> protos.entities P
    ∧ _array_rep s
      = slice_map (λ v, np_mod v two_pi) y
          (block Field.heading * n) ((block Field.heading + 1) * n).
Proof.
  intros n Hl.
  destruct (getitem_from_end y SRB_TIME_INDEX) as (srb & _ & Hsrb);
    [unfold SRB_TIME_INDEX; lia|].
  destruct (getitem_from_end y TIME_ACC_INDEX) as (acc & _ & Hacc);
    [unfold TIME_ACC_INDEX; lia|].
  eexists _, srb, acc. split_and!; [|done|done|..].
  - apply init_ok. do 2 eexists. split; [|split; [|reflexivity]].
    + unfold ingest. rewrite Hsrb, Hacc. reflexivity.
    + done.
  - done.
  - done.
  - done.
  - done.
Qed.

(** The slots of a state built from a y-vector. *)
Lemma init_some_cell (y : list F) P s (f : Field.t) (i : nat) :
  let n := length (protos.entities P) in
  __init__ (Some y) P = Ok s → mutable f → (i < n)%nat →
  ∃ v, y !! (n * block f + i)%nat = Some v
    ∧ _array_rep s !! (_n s * block f + i)%nat
      = Some (if decide (f = Field.heading) then np_mod v two_pi else v).
Proof.
  intros n Hs Hm Hi.
  apply init_ok in Hs as (a & p & Hing & Hl & ->).
  apply ingest_some in Hing as [-> _]. fields. fold n in Hl |- *.
  pose proof (mutable_block_lt f) as Hb.
  destruct (lookup_lt_is_Some_2 y (n * block f + i)) as [v Hv]; [nia|].
  exists v. split; [done|].
  assert (Hbh : block Field.heading = 4%nat) by done.
  case_decide as Hf.
  - subst f. rewrite lookup_slice_map_in by (rewrite ?Hbh; lia).
    by rewrite Hv.
  - assert (block f ≠ block Field.heading).
    { intros Hbf. apply Hf. apply block_inj; [done| |done].
      apply (bool_decide_unpack _). by vm_compute. }
    rewrite lookup_slice_map_out by (rewrite ?Hbh in *; nia). done.
Qed.

(** X18: a heading written through a view, as a value that converts to a
    number, is stored as that number, not reduced into one turn; building a
    state from the y-vector then reduces it. A value that does not convert
    raises and leaves the state as it is. *)
Theorem heading_written_unreduced s (i : nat) (val : value F) (w : F) P :
  shaped s → (i < _n s)%nat → as_float64 val = Ok w →
  length (protos.entities P) = _n s →
  (∃ s', fset s (Z.of_nat i) Field.heading val = (s', Ok tt)
     ∧ fget s' (Z.of_nat i) Field.heading = Ok (VFloat w)
     ∧ ∃ s2, __init__ (Some (y0 s')) P = Ok s2
         ∧ fget s2 (Z.of_nat i) Field.heading
           = Ok (VFloat (np_mod w two_pi)))
  ∧ ∀ bad err, as_float64 bad = Raise err →
      fset s (Z.of_nat i) Field.heading bad = (s, Raise err).
Proof.
  intros Hsh Hi Hw HP.
  assert (Hm : mutable Field.heading)
    by (apply (bool_decide_unpack _); by vm_compute).
  split; [|intros bad err Hbad; by rewrite fset_numeric, Hbad by done].
  eexists. split; [by apply fset_cell|].
  split; [by apply fget_written|].
  pose proof Hsh as (_ & _ & Hl). rewrite mutable_count in Hl.
  unfold N_SINGULAR_ELEMENTS in Hl.
  set (s' := with_array s _).
  destruct (init_some_ok (y0 s') P) as (s2 & srb & acc & Hs2 & _ & _ & _ & Hn & _).
  { unfold y0, s', with_array. fields. by rewrite length_insert, HP. }
  exists s2. split; [done|].
  destruct (init_some_cell _ _ _ Field.heading i Hs2 Hm) as (v & Hv & Hcell);
    [lia|].
  rewrite decide_True in Hcell by done.
  rewrite fget_numeric, slot_nat by done.
  rewrite (getitem_nat _ _ _ Hcell). run.
  revert Hv. unfold y0, s', with_array. fields. rewrite HP.
  rewrite list_lookup_insert_eq by (by apply slot_in_range).
  by intros [= <-].
Qed.

(** X19: the snapshot that [as_proto] returns for a state built from a
    y-vector [y] and a snapshot [P] has the timestamp, the reference, the
    target and the unchanging fields of [P], and takes everything else from
    [y]: [srb_time] and [time_acc] from its last two elements, and the
    mutable fields of entity [i] from the slots of [i], with the heading
    reduced, [broken] as a truth value and [landed_on] as the name at the
    index the slot holds. The mutable fields that [P] itself has are not
    used. *)
Theorem vector_externalized (y : list F) P s P' :
  let n := length (protos.entities P) in
  __init__ (Some y) P = Ok s → as_proto s = Ok P' →
  getitem y SRB_TIME_INDEX = Ok (protos.srb_time P')
  ∧ getitem y TIME_ACC_INDEX = Ok (protos.time_acc P')
  ∧ protos.timestamp P' = protos.timestamp P
  ∧ protos.reference P' = protos.reference P
  ∧ protos.target P' = protos.target P
  ∧ length (protos.entities P') = n
  ∧ ∀ (i : nat) e e',
      protos.entities P !! i = Some e → protos.entities P' !! i = Some e' →
      (∀ u, u ∈ _PER_ENTITY_UNCHANGING_FIELDS → getattr e' u = getattr e u)
      ∧ (∀ f, mutable f → numeric f →
           ∃ v, y !! (n * block f + i)%nat = Some v
             ∧ getattr e' f
               = VFloat (if decide (f = Field.heading) then np_mod v two_pi
                         else v))
      ∧ (∃ v, y !! (n * block Field.broken + i)%nat = Some v
           ∧ protos.broken e' = to_bool v)
      ∧ (∃ v j, y !! (n * block Field.landed_on + i)%nat = Some v
           ∧ to_int v = Ok j
           ∧ (if decide (j = NO_INDEX) then Ok ""
              else getitem (protos.name <$> protos.entities P) j)
             = Ok (protos.landed_on e')).
Proof.
  intros n Hs HP'.
  pose proof (init_built _ _ _ Hs) as (Hn & Hnames & Hes & Hsh & a & Hing & Hl & _).
  cbn zeta in Hn, Hl. fold n in Hn, Hl.
  apply ingest_some in Hing as Ha. destruct Ha as [-> _].
  destruct (init_some_ok y P Hl)
    as (s0 & srb & acc & Hs0 & Hsrb & Hacc & Hp & _).
  assert (s0 = s) as -> by congruence.
  destruct (as_proto_views s P' Hsh HP') as (HPeq & Hlen & Hviews).
  rewrite HPeq, Hp. cbn [with_entities with_scalars protos.srb_time
    protos.time_acc protos.timestamp protos.reference protos.target
    protos.entities].
  split_and!; [done|done|done|done|done|by rewrite Hlen|].
  intros i e e' He He'.
  assert (Hi : (i < n)%nat) by (by eapply lookup_lt_Some).
  pose proof (Hviews i e' He') as Hv.
  split_and!.
  - intros u Hu. specialize (Hv u).
    rewrite fget_unchanging in Hv by done.
    unfold entity_view_unchanging_fget in Hv. rewrite Hes in Hv.
    rewrite (getitem_nat _ _ _ He) in Hv. by injection Hv.
  - intros f Hm Hnum.
    destruct (init_some_cell y P s f i Hs Hm Hi) as (v & Hy & Hcell).
    exists v. split; [done|]. specialize (Hv f).
    rewrite fget_numeric, slot_nat, (getitem_nat _ _ _ Hcell) in Hv by done.
    by injection Hv.
  - assert (Hm : mutable Field.broken)
      by (apply (bool_decide_unpack _); by vm_compute).
    destruct (init_some_cell y P s Field.broken i Hs Hm Hi)
      as (v & Hy & Hcell).
    exists v. split; [done|]. specialize (Hv Field.broken).
    rewrite decide_False in Hcell by done.
    rewrite fget_broken, slot_nat, (getitem_nat _ _ _ Hcell) in Hv.
    by injection Hv.
  - assert (Hm : mutable Field.landed_on)
      by (apply (bool_decide_unpack _); by vm_compute).
    destruct (init_some_cell y P s Field.landed_on i Hs Hm Hi)
      as (v & Hy & Hcell).
    rewrite decide_False in Hcell by done.
    specialize (Hv Field.landed_on).
    rewrite fget_landed_on, slot_nat, (getitem_nat _ _ _ Hcell) in Hv.
    revert Hv. run. destruct (to_int v) as [j|] eqn:Hj; run; [|done].
    intros Hv. exists v, j. split_and!; [done..|].
    rewrite <- Hnames. case_decide; [by injection Hv as <-|].
    destruct (getitem _ j); run; [|done]. by injection Hv as <-.
Qed.

End FromVector.

(** ** Iteration *)

Section Iteration.
Context {F : Type} `{Float64 F}.
Implicit Types (P : protos.PhysicalState F) (s : PhysicsState F).

(** X20: iterating over a state yields one view for each entity of the
    snapshot it was built from, in the order of the snapshot: there are
    [len(state)] of them, and the view at position [k] reads the unchanging
    fields of entity [k] of the snapshot, so that it is [dockable] exactly
    when that entity is named AYSE. *)
Theorem iteration_in_order (y : option (list F)) P s :
  __init__ y P = Ok s →
  length (__iter__ s) = __len__ s
  ∧ __len__ s = length (protos.entities P)
  ∧ ∀ (k : nat) e, protos.entities P !! k = Some e →
      ∃ i, __iter__ s !! k = Some i
        ∧ __getitem__ s (ByIndex (Z.of_nat k)) = Ok i
        ∧ (∀ u, u ∈ _PER_ENTITY_UNCHANGING_FIELDS →
             fget s i u = Ok (getattr e u))
        ∧ dockable (fget s i)
          = Ok (bool_decide (protos.name e = common.AYSE)).
Proof.
  intros Hs.
  pose proof (init_built _ _ _ Hs) as (Hn & _ & Hes & _).
  cbn zeta in Hn. unfold __iter__, __len__.
  rewrite length_fmap, length_seq. split_and!; [done..|].
  intros k e He. exists (Z.of_nat k).
  assert (Hk : (k < _n s)%nat) by (rewrite Hn; by eapply lookup_lt_Some).
  assert (Hread : ∀ u, u ∈ _PER_ENTITY_UNCHANGING_FIELDS →
            fget s (Z.of_nat k) u = Ok (getattr e u)).
  { intros u Hu. rewrite fget_unchanging by done.
    unfold entity_view_unchanging_fget. rewrite Hes.
    by rewrite (getitem_nat _ _ _ He). }
  split_and!; [|done|done|].
  - by rewrite list_lookup_fmap, lookup_seq_lt by done.
  - unfold dockable. rewrite Hread; [done|].
    apply (bool_decide_unpack _). by vm_compute.
Qed.

End Iteration.

(** ** Landing and docking through a view *)

Section Docking.
Context {F : Type} `{Float64 F}.
Implicit Types (s : PhysicsState F).

Lemma fset_landed_known s (i k : nat) (w : string) :
  shaped s → (i < _n s)%nat → w ≠ "" →
  list_index w (_entity_names s) = Some k →
  fset s (Z.of_nat i) Field.landed_on (VStr w)
  = (with_array s
       (<[(_n s * block Field.landed_on + i)%nat := of_int (Z.of_nat k)]>
          (_array_rep s)), Ok tt).
Proof.
  intros Hsh Hi Hw Hk. rewrite fset_landed_on. unfold _name_to_index.
  rewrite decide_True by done. rewrite Hk. run. by apply store_ok.
Qed.

Lemma fset_landed_nowhere s (i : nat) :
  shaped s → (i < _n s)%nat →
  fset s (Z.of_nat i) Field.landed_on (VStr "")
  = (with_array s
       (<[(_n s * block Field.landed_on + i)%nat := of_int NO_INDEX]>
          (_array_rep s)), Ok tt).
Proof.
  intros Hsh Hi. rewrite fset_landed_on, name_to_index_empty. run.
  by apply store_ok.
Qed.

(** X21: a name that an entity has, written to the landed-on field of
    entity [i] through its view, is stored as the index of the first entity
    of that name and read back as the name: the entity is then [landed],
    [LandedOn] maps [i] to that index, and no other field of an entity of
    the state reads differently. *)
Theorem landing_round_trip s (i : nat) (w : string) :
  shaped s → (i < _n s)%nat → index_exact (_n s) →
  w ∈ _entity_names s → w ≠ "" →
  ∃ s' (k : nat),
    fset s (Z.of_nat i) Field.landed_on (VStr w) = (s', Ok tt)
    ∧ list_index w (_entity_names s) = Some k
    ∧ _array_rep s' !! (block Field.landed_on * _n s + i)%nat
      = Some (of_int (Z.of_nat k))
    ∧ fget s' (Z.of_nat i) Field.landed_on = Ok (VStr w)
    ∧ landed (fget s' (Z.of_nat i)) = Ok true
    ∧ (∀ m, LandedOn s' = Ok m → m !! i = Some (Z.of_nat k))
    ∧ ∀ (j : nat) (g : Field.t), (j < _n s)%nat →
        j ≠ i ∨ g ≠ Field.landed_on →
        fget s' (Z.of_nat j) g = fget s (Z.of_nat j) g.
Proof.
  intros Hsh Hi Hex Hin Hw.
  destruct (list_index_elem w _ Hin) as [k Hk].
  pose proof (list_index_Some _ _ _ Hk) as Hnk.
  pose proof (lookup_lt_Some _ _ _ Hnk) as Hkn.
  pose proof Hsh as (_ & Hln & _). rewrite Hln in Hkn.
  assert (Hint : to_int (of_int (Z.of_nat k)) = Ok (Z.of_nat k))
    by (apply Hex; lia).
  set (s' := with_array s
               (<[(_n s * block Field.landed_on + i)%nat
                  := of_int (Z.of_nat k)]> (_array_rep s))).
  assert (Hsh' : shaped s') by (by apply with_array_shaped).
  assert (Hcell : _array_rep s' !! (_n s * block Field.landed_on + i)%nat
                  = Some (of_int (Z.of_nat k))).
  { unfold s', with_array. fields.
    apply list_lookup_insert_eq. by apply slot_in_range. }
  assert (Hget : fget s' (Z.of_nat i) Field.landed_on = Ok (VStr w)).
  { rewrite fget_landed_on, slot_nat.
    change (_n s') with (_n s). rewrite (getitem_nat _ _ _ Hcell). run.
    rewrite Hint. run.
    rewrite decide_False by (unfold NO_INDEX; lia).
    change (_entity_names s') with (_entity_names s).
    by rewrite (getitem_nat _ _ _ Hnk). }
  exists s', k. split_and!.
  - by apply fset_landed_known.
  - done.
  - by rewrite Nat.mul_comm.
  - done.
  - unfold landed. rewrite Hget. run. unfold is_str.
    by rewrite bool_decide_eq_false_2.
  - intros m Hm. apply (landed_on_map_spec s' m Hsh' Hm).
    change (_n s') with (_n s). split; [done|].
    exists (of_int (Z.of_nat k)). rewrite Nat.mul_comm.
    split_and!; [done..|]. unfold NO_INDEX. lia.
  - intros j g Hj Hjg. apply fget_frame.
    assert (Hg : g = Field.landed_on ∨ (block g < 8)%nat ∨ (block g = 9)%nat).
    { destruct g; first [by left | right; left; vm_compute; lia
                        | right; right; by vm_compute]. }
    assert (Hb : block Field.landed_on = 8%nat) by done.
    rewrite Hb. destruct Hg as [->|[Hg|Hg]].
    + rewrite Hb. destruct Hjg as [?|?]; [lia|done].
    + nia.
    + rewrite Hg. lia.
Qed.

(** X22: with Habitat and AYSE among the entities, the craft follows the
    landed-on field of Habitat as written through its view: it is AYSE once
    Habitat has landed on AYSE, and Habitat once Habitat has landed
    nowhere. *)
Theorem docking_switches_craft s (hab ayse : nat) :
  shaped s → index_eq_exact (_n s) →
  list_index common.HABITAT (_entity_names s) = Some hab →
  list_index common.AYSE (_entity_names s) = Some ayse →
  (∃ s', fset s (Z.of_nat hab) Field.landed_on (VStr common.AYSE)
         = (s', Ok tt)
     ∧ craft s' = Ok (Some common.AYSE))
  ∧ (∃ s', fset s (Z.of_nat hab) Field.landed_on (VStr "") = (s', Ok tt)
       ∧ craft s' = Ok (Some common.HABITAT)).
Proof.
  intros Hsh Heq Hhab Hayse.
  pose proof (list_index_Some _ _ _ Hhab) as Hnh.
  pose proof (list_index_Some _ _ _ Hayse) as Hna.
  pose proof (lookup_lt_Some _ _ _ Hnh) as Hh.
  pose proof (lookup_lt_Some _ _ _ Hna) as Ha.
  pose proof Hsh as (_ & Hln & Hla). rewrite Hln in Hh, Ha.
  rewrite mutable_count in Hla. unfold N_SINGULAR_ELEMENTS in Hla.
  assert (Hb : block Field.landed_on = 8%nat) by done.
  assert (Hm : mutable Field.landed_on)
    by (apply (bool_decide_unpack _); by vm_compute).
  assert (Hcraft : ∀ v : F,
            craft (with_array s
                     (<[(_n s * block Field.landed_on + hab)%nat := v]>
                        (_array_rep s)))
            = Ok (Some (if eq_int v (Z.of_nat ayse) then common.AYSE
                        else common.HABITAT))).
  { intros v. unfold craft.
    change (_entity_names (with_array s _)) with (_entity_names s).
    rewrite (bool_decide_eq_false_2 (common.AYSE ∉ _)).
    2:{ intros Hn. apply Hn, list_elem_of_lookup. by exists ayse. }
    rewrite andb_false_r.
    unfold _name_to_index. rewrite !decide_True by done.
    rewrite Hhab, Hayse. run.
    rewrite y_component_eq by done. run.
    change (_n (with_array s _)) with (_n s).
    change (_array_rep (with_array s ?a)) with a.
    rewrite (getitem_nat _ hab v); [run; by destruct (eq_int v _)|].
    rewrite lookup_slice by nia.
    rewrite Hb. replace (8 * _n s + hab)%nat with (_n s * 8 + hab)%nat by lia.
    apply list_lookup_insert_eq. lia. }
  split.
  - eexists. split; [by apply fset_landed_known|].
    rewrite Hcraft, Heq by lia. by rewrite bool_decide_eq_true_2.
  - eexists. split; [by apply fset_landed_nowhere|].
    rewrite Hcraft, Heq by (unfold NO_INDEX; lia).
    by rewrite bool_decide_eq_false_2 by (unfold NO_INDEX; lia).
Qed.

End Docking.

(** ** The further properties on the samples *)

Lemma launchpad_built :
  __init__ None Sample.launchpad = Ok (Exact.built Sample.launchpad).
Proof. by vm_compute. Qed.

Lemma vector_built :
  __init__ (Some Sample.vector) Exact.docked = Ok Sample.rebuilt.
Proof. by vm_compute. Qed.

Lemma vector_as_proto : as_proto Sample.rebuilt = Ok Sample.externalized.
Proof. by vm_compute. Qed.

Lemma exact_index_eq_exact (n : nat) : index_eq_exact (F := Q) n.
Proof.
  intros i j _ _. cbn [eq_int of_int Exact.float64].
  unfold Qeq_bool, inject_Z. cbn [Qnum Qden].
  rewrite !Z.mul_1_r. case_bool_decide as Hij.
  - subst. apply Z.eqb_refl.
  - by apply Z.eqb_neq.
Qed.

(** X1 on the names of the docked Habitat. *)
Lemma name_index_round_trip_witness :
  index_exact (F := Q) (length ["Habitat"; "AYSE"])
  ∧ _index_to_name (F := Q) ["Habitat"; "AYSE"] (of_int 1) = Ok "AYSE".
Proof.
  split; [apply exact_index_exact|].
  destruct (name_index_round_trip (F := Q) ["Habitat"; "AYSE"]
              (exact_index_exact _)) as [Hback _].
  by apply Hback.
Defined.

(** X2 on the velocities of the docked Habitat. *)
Lemma component_matches_views_witness :
  let s := Exact.built Exact.docked in
  shaped s ∧ mutable Field.vx
  ∧ ∃ col, VX s = Ok col ∧ length col = _n s.
Proof.
  intros s.
  assert (Hsh : shaped s) by apply docked_shaped.
  assert (Hm : mutable Field.vx)
    by (apply (bool_decide_unpack _); by vm_compute).
  split; [done|]. split; [done|].
  destruct (component_matches_views s Field.vx Hsh Hm) as (col & Hc & Hl & _).
  exists col. split; [exact Hc|exact Hl].
Defined.

(** X3 on the fuel of AYSE, in binary64: the string [7.5] is written as
    a number, [10 ** 400] is not. *)
Lemma view_write_frame_witness :
  let s := Binary64.built Binary64.tilted in
  shaped s ∧ (1 < _n s)%nat ∧ mutable Field.fuel ∧ numeric Field.fuel
  ∧ as_float64 (VStr "7.5") = Ok Binary64.turned
  ∧ (∃ s' col, fset s 1 Field.fuel (VStr "7.5") = (s', Ok tt)
       ∧ Fuel s = Ok col ∧ Fuel s' = Ok (<[1%nat := Binary64.turned]> col)
       ∧ X s' = X s)
  ∧ fset s 1 Field.fuel (VInt (10 ^ 400)) = (s, Raise OverflowError)
  ∧ fset s 1 Field.fuel (VStr "full")
    = (s, Raise (ValueError "could not convert string to float: 'full'")).
Proof.
  intros s.
  assert (Hsh : shaped s) by apply tilted_shaped.
  assert (Hlt : (1 < _n s)%nat) by (vm_compute; lia).
  assert (Hm : mutable Field.fuel)
    by (apply (bool_decide_unpack _); by vm_compute).
  assert (Hn : numeric Field.fuel) by done.
  assert (Hw : as_float64 (VStr "7.5") = Ok Binary64.turned)
    by (by vm_compute).
  assert (Hbig : as_float64 (F := PrimFloat.float) (VInt (10 ^ 400))
                 = Raise OverflowError) by (by vm_compute).
  assert (Hfull : as_float64 (F := PrimFloat.float) (VStr "full")
                  = Raise (ValueError
                             "could not convert string to float: 'full'"))
    by (by vm_compute).
  destruct (view_write_frame s 1 Field.fuel (VStr "7.5") Binary64.turned
              Hsh Hlt Hm Hn Hw)
    as ((s' & col & Hset & Hcol & Hcol' & Hother & _) & Hraise).
  change (Z.of_nat 1) with 1 in *.
  split; [exact Hsh|]. split; [exact Hlt|]. split; [exact Hm|].
  split; [exact Hn|]. split; [exact Hw|].
  split; [|split; [exact (Hraise _ _ Hbig)|exact (Hraise _ _ Hfull)]].
  exists s', col. split; [exact Hset|]. split; [exact Hcol|].
  split; [exact Hcol'|].
  apply Hother; [|done]. apply (bool_decide_unpack _). by vm_compute.
Defined.

(** X4 on the docked Habitat, which has landed on entity 1. *)
Lemma landed_on_map_witness :
  let s := Exact.built Exact.docked in
  shaped s ∧ ∃ m, LandedOn s = Ok m ∧ m !! 0%nat = Some 1.
Proof.
  intros s.
  assert (Hsh : shaped s) by apply docked_shaped.
  split; [done|].
  destruct (landed_on_map s Hsh) as [Hex Hspec].
  destruct Hex as [m Hm]; [intros i v _ _; by eexists|].
  exists m. split; [done|]. apply (Hspec m Hm).
  split; [vm_compute; lia|]. exists 1%Q. by split_and!.
Defined.

(** X5 on the docked Habitat. *)
Lemma landings_of_snapshot_witness :
  landings_known Exact.docked
  ∧ index_exact (F := Q) (length (protos.entities Exact.docked))
  ∧ ∃ s m, __init__ None Exact.docked = Ok s ∧ LandedOn s = Ok m
      ∧ landed (fget s 0) = Ok true ∧ landed (fget s 1) = Ok false
      ∧ m !! 0%nat = Some 1 ∧ m !! 1%nat = None.
Proof.
  split; [apply docked_landings_known|].
  split; [apply exact_index_exact|].
  destruct (landings_of_snapshot Exact.docked docked_landings_known
              (exact_index_exact _)) as (s & m & Hs & Hm & Hall).
  exists s, m.
  destruct (Hall 0%nat _ eq_refl) as [Hl0 Hm0].
  destruct (Hall 1%nat _ eq_refl) as [Hl1 Hm1].
  by split_and!.
Defined.

(** X6 on Habitat on the ground: Earth has an atmosphere, Habitat has
    none. *)
Lemma atmospheres_cached_witness :
  let s := Exact.built Sample.launchpad in
  __init__ None Sample.launchpad = Ok s
  ∧ 0%nat ∈ Atmospheres s ∧ (1%nat ∉ Atmospheres s)
  ∧ Atmospheres (fset s 0 Field.x (VInt 1)).1 = Atmospheres s.
Proof.
  intros s. split; [apply launchpad_built|].
  destruct (atmospheres_cached None Sample.launchpad s launchpad_built)
    as [Hiff Hkeep].
  split_and!.
  - apply Hiff. by exists Sample.earth.
  - intros (e & He & Hsc & _)%Hiff. vm_compute in He.
    injection He as <-. done.
  - apply Hkeep.
Defined.

(** X7 on AYSE renamed Mars. *)
Lemma rename_keeps_name_table_witness :
  let s := Exact.built Exact.docked in
  __init__ None Exact.docked = Ok s
  ∧ _entity_names s !! 1%nat = Some "AYSE"
  ∧ ∃ s', fset s 1 Field.name (VStr "Mars") = (s', Ok tt)
      ∧ fget s' 1 Field.name = Ok (VStr "Mars")
      ∧ __getitem__ s' (ByName "AYSE") = Ok 1
      ∧ __getitem__ s' (ByName "Mars")
        = Raise (ValueError "'Mars' is not in list").
Proof.
  intros s. split; [apply docked_built|]. split; [done|].
  destruct (rename_keeps_name_table None Exact.docked s 1 "AYSE" "Mars"
              docked_built eq_refl) as (s' & Hset & Hget & Hsame & Habs).
  exists s'. split_and!; [done|done| |].
  - by rewrite Hsame.
  - apply Habs. apply (bool_decide_unpack _). by vm_compute.
Defined.

(** X8 on AYSE. *)
Lemma lookup_by_name_witness :
  let s := Exact.built Exact.docked in
  __init__ None Exact.docked = Ok s
  ∧ "AYSE" ∈ (protos.name <$> protos.entities Exact.docked)
  ∧ ∃ i : nat, __getitem__ s (ByName "AYSE") = Ok (Z.of_nat i)
      ∧ fget s (Z.of_nat i) Field.name = Ok (VStr "AYSE").
Proof.
  intros s.
  assert (Hin : "AYSE" ∈ (protos.name <$> protos.entities Exact.docked))
    by (apply (bool_decide_unpack _); by vm_compute).
  split; [apply docked_built|]. split; [done|].
  destruct (lookup_by_name None Exact.docked s "AYSE" docked_built Hin)
    as (i & Hi & Hname & _).
  by exists i.
Defined.

(** X9 on the docked Habitat. *)
Lemma scalars_stay_mirrored_witness :
  let s := Exact.built Exact.docked in
  mirrored s ∧ mirrored (srb_time_set s (VInt 3)).1
  ∧ mirrored (fset s 1 Field.y (VInt 3)).1.
Proof.
  intros s.
  destruct (scalars_stay_mirrored (F := Q)) as (Hinit & Hset & Hview).
  pose proof (Hinit None Exact.docked s docked_built) as Hm.
  assert (Hlt : (1 < _n s)%nat) by (vm_compute; lia).
  split; [exact Hm|]. split.
  - destruct (Hset s (VInt 3) docked_shaped Hm) as [Hsrb _]. exact Hsrb.
  - exact (Hview s 1%nat Field.y (VInt 3) docked_shaped Hm Hlt).
Defined.

(** X10 on the state turned by -1e-20 rad, in binary64: 5 is taken,
    [10 ** 400] and a string are not. *)
Lemma scalars_travel_with_y0_witness :
  let s := Binary64.built Binary64.tilted in
  shaped s ∧ as_double (VInt 5) = Ok (of_int 5)
  ∧ length (protos.entities Binary64.tilted) = _n s
  ∧ (∃ s2, __init__ (Some (y0 (srb_time_set s (VInt 5)).1)) Binary64.tilted
           = Ok s2 ∧ srb_time s2 = of_int 5)
  ∧ (∃ s2, __init__ (Some (y0 (time_acc_set s (VInt 5)).1)) Binary64.tilted
           = Ok s2 ∧ time_acc s2 = of_int 5)
  ∧ srb_time_set s (VInt (10 ^ 400)) = (s, Raise OverflowError)
  ∧ time_acc_set s (VStr "5") = (s, Raise TypeError).
Proof.
  intros s.
  assert (Hsh : shaped s) by apply tilted_shaped.
  assert (Hv : as_double (F := PrimFloat.float) (VInt 5) = Ok (of_int 5))
    by (by vm_compute).
  assert (Hl : length (protos.entities Binary64.tilted) = _n s)
    by (by vm_compute).
  assert (Hbig : as_double (F := PrimFloat.float) (VInt (10 ^ 400))
                 = Raise OverflowError) by (by vm_compute).
  assert (Hstr : as_double (F := PrimFloat.float) (VStr "5")
                 = Raise TypeError) by done.
  destruct (scalars_travel_with_y0 s (VInt 5) (of_int 5) Binary64.tilted
              Hsh Hv Hl) as (Hsrb & Hacc & Hraise).
  split; [exact Hsh|]. split; [exact Hv|]. split; [exact Hl|].
  split; [exact Hsrb|]. split; [exact Hacc|].
  split; [apply (Hraise _ _ Hbig)|apply (Hraise _ _ Hstr)].
Defined.

(** X11 on the docked Habitat: index 2 is out of range for the two
    entities. *)
Lemma view_index_unchecked_witness :
  let s := Exact.built Exact.docked in
  shaped s ∧ (0 < _n s)%nat
  ∧ __getitem__ s (ByIndex 2) = Ok 2
  ∧ fget s 2 Field.name = Raise IndexError
  ∧ fget s 2 Field.x = fget s 0 Field.y.
Proof.
  intros s.
  assert (Hsh : shaped s) by apply docked_shaped.
  assert (Hlt : (0 < _n s)%nat) by (vm_compute; lia).
  split; [done|]. split; [done|].
  destruct (view_index_unchecked s 0 Hsh Hlt) as (Hany & Hun & Hnext & _).
  split_and!.
  - apply Hany.
  - apply (Hun Field.name). apply (bool_decide_unpack _). by vm_compute.
  - apply (Hnext Field.x Field.y); try done;
      apply (bool_decide_unpack _); by vm_compute.
Defined.

(** X12 on the name of a body that does not exist. *)
Lemma setitem_by_name_witness :
  let s := Exact.built Exact.docked in
  __setitem__ s (ByName "Mars") (ViewOfSelf 0) = (s, Ok tt)
  ∧ __setitem__ s (ByName "Mars") (Entity Exact.probe)
    = (s, Raise (ValueError "'Mars' is not in list"))
  ∧ __setitem__ s (ByName "AYSE") (Entity Exact.probe)
    = __setitem__ s (ByIndex 1) (Entity Exact.probe).
Proof.
  intros s.
  assert (Hn : "Mars" ∉ _entity_names s)
    by (apply (bool_decide_unpack _); by vm_compute).
  split_and!.
  - destruct (setitem_by_name s "Mars" (ViewOfSelf 0)) as (Hself & _).
    exact (Hself eq_refl).
  - destruct (setitem_by_name s "Mars" (Entity Exact.probe))
      as (_ & Habs & _).
    exact (Habs eq_refl Hn).
  - destruct (setitem_by_name s "AYSE" (Entity Exact.probe))
      as (_ & _ & Hfirst).
    exact (Hfirst 1%nat eq_refl).
Defined.

(** X13 on the stray body put in the place of AYSE. *)
Lemma setitem_stops_at_landed_on_witness :
  let s := Exact.built Exact.docked in
  shaped s ∧ (1 < _n s)%nat
  ∧ protos.landed_on Sample.stray ≠ ""
  ∧ (protos.landed_on Sample.stray ∉ _entity_names s)
  ∧ ∃ s', __setitem__ s (ByIndex 1) (Entity Sample.stray)
          = (s', Raise (NoEntityError "Mars not in entity list"))
      ∧ fget s' 1 Field.heading = Ok (VFloat 0%Q)
      ∧ fget s' 1 Field.landed_on = fget s 1 Field.landed_on
      ∧ _proto_state s' = _proto_state s.
Proof.
  intros s.
  assert (Hsh : shaped s) by apply docked_shaped.
  assert (Hlt : (1 < _n s)%nat) by (vm_compute; lia).
  assert (Hne : protos.landed_on Sample.stray ≠ "") by done.
  assert (Hn : protos.landed_on Sample.stray ∉ _entity_names s)
    by (apply (bool_decide_unpack _); by vm_compute).
  do 4 (split; [done|]).
  destruct (setitem_stops_at_landed_on s 1 Sample.stray Hsh Hlt Hne Hn)
    as (s' & Hset & Hnum & Hland & _ & Hproto).
  exists s'. split_and!; [done| |done|done].
  apply (Hnum Field.heading); [|done].
  apply (bool_decide_unpack _). by vm_compute.
Defined.

(** X14 on the docked Habitat. *)
Lemma as_proto_matches_views_witness :
  let s := Exact.built Exact.docked in
  shaped s
  ∧ ∃ P', as_proto s = Ok P'
      ∧ length (protos.entities P') = _n s
      ∧ ∀ (i : nat) e', protos.entities P' !! i = Some e' →
          fget s (Z.of_nat i) Field.heading
          = Ok (VFloat (protos.heading e')).
Proof.
  intros s.
  assert (Hsh : shaped s) by apply docked_shaped.
  split; [done|].
  destruct (as_proto_matches_views s Hsh) as [Hspec Hex].
  destruct Hex as [P' HP'].
  { intros i Hi. vm_compute in Hi.
    destruct i as [|[|i]]; [by eexists..|lia]. }
  exists P'. destruct (Hspec P' HP') as (_ & Hlen & Hview).
  split_and!; [done..|].
  intros i e' He'. apply (Hview i e' He' Field.heading).
Defined.

(** X15 on the position of Habitat, in binary64. *)
Lemma pos_round_trip_witness :
  let s := Binary64.built Binary64.tilted in
  shaped s ∧ (0 < _n s)%nat
  ∧ as_float64 (VInt 6) = Ok (of_int 6)
  ∧ as_float64 (VStr "7.5") = Ok Binary64.turned
  ∧ (∃ s', pos_set s 0 [VInt 6; VStr "7.5"] = (s', Ok tt)
       ∧ pos_get (fget s' 0)
         = Ok (VFloat (of_int 6), VFloat Binary64.turned)
       ∧ v_get (fget s' 0) = v_get (fget s 0))
  ∧ (∃ s', pos_set s 0 [VInt 6] = (s', Raise IndexError)
       ∧ fget s' 0 Field.x = Ok (VFloat (of_int 6)))
  ∧ pos_set s 0 [] = (s, Raise IndexError)
  ∧ pos_set s 0 [VInt (10 ^ 400); VInt 6] = (s, Raise OverflowError).
Proof.
  intros s.
  assert (Hsh : shaped s) by apply tilted_shaped.
  assert (Hlt : (0 < _n s)%nat) by (vm_compute; lia).
  assert (H0 : as_float64 (F := PrimFloat.float) (VInt 6) = Ok (of_int 6))
    by (by vm_compute).
  assert (H1 : as_float64 (VStr "7.5") = Ok Binary64.turned)
    by (by vm_compute).
  assert (Hbig : as_float64 (F := PrimFloat.float) (VInt (10 ^ 400))
                 = Raise OverflowError) by (by vm_compute).
  destruct (pos_round_trip s 0 (VInt 6) (VStr "7.5") [] (of_int 6)
              Binary64.turned Hsh Hlt H0 H1)
    as ((s1 & Hset & Hget & Hv & _) & _ & (s2 & Hshort & Hx & _) & Hnone
        & Hraise).
  change (Z.of_nat 0) with 0 in *.
  split; [exact Hsh|]. split; [exact Hlt|]. split; [exact H0|].
  split; [exact H1|].
  split; [|split; [|split; [exact Hnone|]]].
  - exists s1. split; [exact Hset|]. split; [exact Hget|exact Hv].
  - exists s2. split; [exact Hshort|exact Hx].
  - destruct (Hraise _ _ [VInt 6] Hbig) as [Hpos _]. exact Hpos.
Defined.

(** X16 on the docked Habitat, whose craft is AYSE. *)
Lemma craft_entity_view_witness :
  let s := Exact.built Exact.docked in
  craft s = Ok (Some "AYSE")
  ∧ ∃ i : nat, craft_entity s = Ok (Z.of_nat i)
      ∧ _entity_names s !! i = Some "AYSE".
Proof.
  intros s.
  assert (Hc : craft s = Ok (Some "AYSE")) by (by vm_compute).
  split; [done|].
  destruct (craft_entity_view s) as (Hsome & _).
  destruct (Hsome _ Hc) as (_ & i & Hi & Hn & _).
  exists i. split; [exact Hi|exact Hn].
Defined.

(** X17 on a reference that no entity has. *)
Lemma reference_and_target_witness :
  let s := Exact.built Exact.docked in
  (reference_set s (VStr "Mars")).2 = Ok tt
  ∧ reference (reference_set s (VStr "Mars")).1 = "Mars"
  ∧ reference_entity (reference_set s (VStr "Mars")).1
    = Raise (ValueError "'Mars' is not in list")
  ∧ reference_set s (VInt 1) = (s, Raise TypeError).
Proof.
  intros s.
  destruct (reference_and_target s (VStr "Mars")) as [Hstr _].
  destruct (Hstr "Mars" eq_refl)
    as (Hok & _ & Hr & _ & _ & _ & _ & _ & _ & _ & _ & _ & Habs & _).
  destruct (reference_and_target s (VInt 1)) as [_ Hother].
  destruct Hother as [Hraise _]; [done|].
  split_and!; [done..| |done].
  apply Habs. apply (bool_decide_unpack _). by vm_compute.
Defined.

(** X18 on a heading of 7.5 rad, which is more than one turn, in
    binary64. *)
Lemma heading_written_unreduced_witness :
  let s := Binary64.built Binary64.tilted in
  shaped s ∧ (0 < _n s)%nat
  ∧ as_float64 (VStr "7.5") = Ok Binary64.turned
  ∧ length (protos.entities Binary64.tilted) = _n s
  ∧ within_turn Binary64.turned = false
  ∧ (∃ s', fset s 0 Field.heading (VStr "7.5") = (s', Ok tt)
       ∧ fget s' 0 Field.heading = Ok (VFloat Binary64.turned)
       ∧ ∃ s2, __init__ (Some (y0 s')) Binary64.tilted = Ok s2
           ∧ fget s2 0 Field.heading
             = Ok (VFloat (np_mod Binary64.turned two_pi)))
  ∧ fset s 0 Field.heading (VInt (10 ^ 400)) = (s, Raise OverflowError).
Proof.
  intros s.
  assert (Hsh : shaped s) by apply tilted_shaped.
  assert (Hlt : (0 < _n s)%nat) by (vm_compute; lia).
  assert (Hw : as_float64 (VStr "7.5") = Ok Binary64.turned)
    by (by vm_compute).
  assert (Hl : length (protos.entities Binary64.tilted) = _n s)
    by (by vm_compute).
  assert (Hbig : as_float64 (F := PrimFloat.float) (VInt (10 ^ 400))
                 = Raise OverflowError) by (by vm_compute).
  destruct (heading_written_unreduced s 0 (VStr "7.5") Binary64.turned
              Binary64.tilted Hsh Hlt Hw Hl) as [Hok Hraise].
  change (Z.of_nat 0) with 0 in *.
  split; [exact Hsh|]. split; [exact Hlt|]. split; [exact Hw|].
  split; [exact Hl|]. split; [by vm_compute|].
  split; [exact Hok|exact (Hraise _ _ Hbig)].
Defined.

(** X19 on the sample y-vector and the docked Habitat. *)
Lemma vector_externalized_witness :
  let P' := Sample.externalized in
  __init__ (Some Sample.vector) Exact.docked = Ok Sample.rebuilt
  ∧ as_proto Sample.rebuilt = Ok P'
  ∧ getitem Sample.vector SRB_TIME_INDEX = Ok (protos.srb_time P')
  ∧ getitem Sample.vector TIME_ACC_INDEX = Ok (protos.time_acc P')
  ∧ protos.timestamp P' = protos.timestamp Exact.docked
  ∧ length (protos.entities P') = length (protos.entities Exact.docked).
Proof.
  intros P'. split; [apply vector_built|]. split; [apply vector_as_proto|].
  destruct (vector_externalized Sample.vector Exact.docked Sample.rebuilt P'
              vector_built vector_as_proto)
    as (Hsrb & Hacc & Hts & _ & _ & Hlen & _).
  by split_and!.
Defined.

(** X20 on the docked Habitat. *)
Lemma iteration_in_order_witness :
  let s := Exact.built Exact.docked in
  __init__ None Exact.docked = Ok s
  ∧ length (__iter__ s) = __len__ s
  ∧ __len__ s = length (protos.entities Exact.docked)
  ∧ ∃ i, __iter__ s !! 1%nat = Some i ∧ dockable (fget s i) = Ok true.
Proof.
  intros s. split; [apply docked_built|].
  destruct (iteration_in_order None Exact.docked s docked_built)
    as (Hlen & Hn & Hall).
  split; [exact Hlen|]. split; [exact Hn|].
  destruct (Hall 1%nat _ eq_refl) as (i & Hi & _ & _ & Hd).
  exists i. split; [exact Hi|exact Hd].
Defined.

(** X21 on AYSE landed on Habitat. *)
Lemma landing_round_trip_witness :
  let s := Exact.built Exact.docked in
  shaped s ∧ (1 < _n s)%nat ∧ index_exact (F := Q) (_n s)
  ∧ "Habitat" ∈ _entity_names s ∧ "Habitat" ≠ ""
  ∧ ∃ s', fset s 1 Field.landed_on (VStr "Habitat") = (s', Ok tt)
      ∧ fget s' 1 Field.landed_on = Ok (VStr "Habitat")
      ∧ landed (fget s' 1) = Ok true
      ∧ fget s' 0 Field.landed_on = fget s 0 Field.landed_on.
Proof.
  intros s.
  assert (Hsh : shaped s) by apply docked_shaped.
  assert (Hlt : (1 < _n s)%nat) by (vm_compute; lia).
  assert (Hin : "Habitat" ∈ _entity_names s)
    by (apply (bool_decide_unpack _); by vm_compute).
  assert (Hne : "Habitat" ≠ "") by done.
  split; [exact Hsh|]. split; [exact Hlt|].
  split; [apply exact_index_exact|]. split; [exact Hin|].
  split; [exact Hne|].
  destruct (landing_round_trip s 1 "Habitat" Hsh Hlt (exact_index_exact _)
              Hin Hne)
    as (s' & k & Hset & _ & _ & Hget & Hlanded & _ & Hframe).
  exists s'. split; [exact Hset|]. split; [exact Hget|].
  split; [exact Hlanded|].
  apply (Hframe 0%nat Field.landed_on); [vm_compute; lia|left; lia].
Defined.

(** X22 on the docked Habitat, undocked and docked again. *)
Lemma docking_switches_craft_witness :
  let s := Exact.built Exact.docked in
  shaped s ∧ index_eq_exact (F := Q) (_n s)
  ∧ list_index common.HABITAT (_entity_names s) = Some 0%nat
  ∧ list_index common.AYSE (_entity_names s) = Some 1%nat
  ∧ (∃ s', fset s 0 Field.landed_on (VStr "AYSE") = (s', Ok tt)
       ∧ craft s' = Ok (Some "AYSE"))
  ∧ (∃ s', fset s 0 Field.landed_on (VStr "") = (s', Ok tt)
       ∧ craft s' = Ok (Some "Habitat")).
Proof.
  intros s.
  assert (Hsh : shaped s) by apply docked_shaped.
  assert (Heq : index_eq_exact (F := Q) (_n s)) by apply exact_index_eq_exact.
  assert (Hh : list_index common.HABITAT (_entity_names s) = Some 0%nat)
    by (by vm_compute).
  assert (Ha : list_index common.AYSE (_entity_names s) = Some 1%nat)
    by (by vm_compute).
  split; [exact Hsh|]. split; [exact Heq|]. split; [exact Hh|].
  split; [exact Ha|].
  exact (docking_switches_craft s 0 1 Hsh Heq Hh Ha).
Defined.
